(** * xlf-translator: translation and context pipelines

    A shallow embedding of [api/process-xlf.js] (the translation
    orchestrator, the text preprocessor and the fallback synthesizer) and of
    [api/generate-context.js] (the context generator and the content
    classifier) and of the two POST routes of [server.js], followed by the
    properties of these functions.

    JavaScript strings are sequences of UTF-16 code units, request bodies are
    JSON values, a [throw] is the [Throw] outcome of a small exception monad,
    the conversions of a template literal and of [join] are part of the
    functions, with the TypeError they throw, the fallback object is a
    finite map from property names to strings, and numbers are IEEE 754
    binary64 values. *)

From Stdlib Require Import ZArith NArith List Ascii String Bool Lia.
From Stdlib Require Import DecimalNat.
From Stdlib.Floats Require Import SpecFloat.
From stdpp Require Import base option list gmap.

Local Open Scope list_scope.

(** ** The JavaScript built-ins the two files use *)

Module JS.

(** A string value: its UTF-16 code units. *)
Abbreviation jstring := (list N).

(** Reading a literal of the source. The literals of this development are
    UTF-8 text, the strings of the program are UTF-16: one, two and three byte
    sequences give one code unit, four byte sequences a surrogate pair. *)
Fixpoint utf16_of_bytes (bs : list N) : jstring :=
  match bs with
  | [] => []
  | b :: rest =>
      if (b <? 128)%N then b :: utf16_of_bytes rest
      else if (b <? 224)%N then
        match rest with
        | b2 :: rest2 =>
            ((b - 192) * 64 + (b2 - 128))%N :: utf16_of_bytes rest2
        | _ => [65533%N]
        end
      else if (b <? 240)%N then
        match rest with
        | b2 :: b3 :: rest3 =>
            ((b - 224) * 4096 + (b2 - 128) * 64 + (b3 - 128))%N
              :: utf16_of_bytes rest3
        | _ => [65533%N]
        end
      else
        match rest with
        | b2 :: b3 :: b4 :: rest4 =>
            let cp := ((b - 240) * 262144 + (b2 - 128) * 4096
                       + (b3 - 128) * 64 + (b4 - 128))%N in
            let v := (cp - 65536)%N in
            (55296 + v / 1024)%N :: (56320 + v mod 1024)%N
              :: utf16_of_bytes rest4
        | _ => [65533%N]
        end
  end.

Definition js (s : string) : jstring :=
  utf16_of_bytes (List.map N_of_ascii (list_ascii_of_string s)).

(** [s1 + s2] on strings, and the concatenation of the pieces of a template
    literal. *)
Definition concat (pieces : list jstring) : jstring := List.concat pieces.

(** WhiteSpace and LineTerminator code units: what [\s] matches and what
    [String.prototype.trim] strips. *)
Definition is_whitespace (c : N) : bool :=
  ((9 <=? c) && (c <=? 13)
   || (c =? 32) || (c =? 160) || (c =? 5760)
   || ((8192 <=? c) && (c <=? 8202))
   || (c =? 8232) || (c =? 8233) || (c =? 8239) || (c =? 8287)
   || (c =? 12288) || (c =? 65279))%N.

Definition SPACE : N := 32%N.

(** [s.replace(/\s+/g, ' ')]: every maximal run of whitespace becomes one
    space. [in_run] tells that the previous code unit belonged to the run
    that is being replaced. *)
Fixpoint replace_whitespace_runs (in_run : bool) (s : jstring) : jstring :=
  match s with
  | [] => []
  | c :: rest =>
      if is_whitespace c then
        if in_run then replace_whitespace_runs true rest
        else SPACE :: replace_whitespace_runs true rest
      else c :: replace_whitespace_runs false rest
  end.

Fixpoint trimStart (s : jstring) : jstring :=
  match s with
  | [] => []
  | c :: rest => if is_whitespace c then trimStart rest else s
  end.

Fixpoint trimEnd (s : jstring) : jstring :=
  match s with
  | [] => []
  | c :: rest =>
      match trimEnd rest with
      | [] => if is_whitespace c then [] else [c]
      | kept => c :: kept
      end
  end.

(** [s.trim()] *)
Definition trim (s : jstring) : jstring := trimEnd (trimStart s).

(** [s.substring(0, n)] *)
Definition substring0 (n : nat) (s : jstring) : jstring := firstn n s.

(** Case conversion. The Unicode tables are written out for Basic Latin
    and the Latin-1 Supplement: [lower_unit] and [upper_units] are the
    lower case and the upper case of a code unit below U+0100 (the upper
    case of U+00DF is two code units, those of U+00B5 and U+00FF lie above
    U+00FF). *)
Definition lower_unit (c : N) : N :=
  if ((65 <=? c) && (c <=? 90))%N then (c + 32)%N
  else if ((192 <=? c) && (c <=? 222) && negb (c =? 215))%N then (c + 32)%N
  else c.

Definition upper_units (c : N) : jstring :=
  if ((97 <=? c) && (c <=? 122))%N then [(c - 32)%N]
  else if ((224 <=? c) && (c <=? 254) && negb (c =? 247))%N then [(c - 32)%N]
  else if (c =? 223)%N then [83%N; 83%N]
  else if (c =? 255)%N then [376%N]
  else if (c =? 181)%N then [924%N]
  else [c].

Definition is_latin1 (c : N) : bool := (c <? 256)%N.

(** What the engine makes of a string that holds a code unit above U+00FF,
    where its tables are not written out here. A property stated for every
    instance of the class holds of the engine's conversion. *)
Class CaseConversion : Type := {
  lower_beyond_latin1 : jstring -> jstring;
  upper_beyond_latin1 : jstring -> jstring
}.

(** [s.toLowerCase()] and [s.toUpperCase()] *)
Definition toLowerCase `{CaseConversion} (s : jstring) : jstring :=
  if forallb is_latin1 s then List.map lower_unit s
  else lower_beyond_latin1 s.

Definition toUpperCase `{CaseConversion} (s : jstring) : jstring :=
  if forallb is_latin1 s then List.flat_map upper_units s
  else upper_beyond_latin1 s.

Fixpoint startsWith (s prefix : jstring) : bool :=
  match prefix, s with
  | [], _ => true
  | p :: prefix', c :: s' => (c =? p)%N && startsWith s' prefix'
  | _ :: _, [] => false
  end.

(** [s.includes(sub)] *)
Fixpoint includes (s sub : jstring) : bool :=
  startsWith s sub ||
  match s with
  | [] => false
  | _ :: rest => includes rest sub
  end.

Fixpoint uint_units (d : Decimal.uint) : jstring :=
  match d with
  | Decimal.Nil => []
  | Decimal.D0 d => 48%N :: uint_units d
  | Decimal.D1 d => 49%N :: uint_units d
  | Decimal.D2 d => 50%N :: uint_units d
  | Decimal.D3 d => 51%N :: uint_units d
  | Decimal.D4 d => 52%N :: uint_units d
  | Decimal.D5 d => 53%N :: uint_units d
  | Decimal.D6 d => 54%N :: uint_units d
  | Decimal.D7 d => 55%N :: uint_units d
  | Decimal.D8 d => 56%N :: uint_units d
  | Decimal.D9 d => 57%N :: uint_units d
  end.

(** [index.toString()] for an array index: its decimal digits. *)
Definition index_toString (n : nat) : jstring := uint_units (Nat.to_uint n).

(** *** Numbers: IEEE 754 binary64 *)
Abbreviation number := spec_float.

(** The number an integer literal denotes: the nearest binary64 value, a
    tie going to the even one; exact up to 2^53. *)
Definition Number_of_Z (z : Z) : number := binary_normalize 53 1024 z 0 false.
Definition Number_div (x y : number) : number := SFdiv 53 1024 x y.
Definition Number_mul (x y : number) : number := SFmul 53 1024 x y.
Definition Number_add (x y : number) : number := SFadd 53 1024 x y.

(** [Math.round(x)]: the integer nearest to [x], a tie going up. *)
Definition Math_round (x : number) : number :=
  match x with
  | S754_finite s m e =>
      if (0 <=? e)%Z then x
      else
        let v := if s then Z.neg m else Z.pos m in
        let r := ((2 * v + 2 ^ (- e)) / 2 ^ (1 - e))%Z in
        if (r =? 0)%Z then S754_zero s else Number_of_Z r
  | _ => x
  end.

(** [Math.min(x, y)] *)
Definition Math_min (x y : number) : number :=
  match SFcompare x y with
  | None => S754_nan
  | Some Lt => x
  | Some Gt => y
  | Some Eq =>
      match x with
      | S754_zero true => x
      | _ => match y with S754_zero true => y | _ => x end
      end
  end.

(** The integer a finite number of magnitude 1 or more denotes, when it is
    one. *)
Definition integer_of (x : number) : Z :=
  match x with
  | S754_finite s m e =>
      let v := if s then Z.neg m else Z.pos m in
      if (0 <=? e)%Z then (v * 2 ^ e)%Z else (v / 2 ^ (- e))%Z
  | _ => 0%Z
  end.

Definition same_number (x y : number) : bool :=
  match SFcompare x y with
  | Some Eq => true
  | _ => false
  end.

(** The decimal Number::toString prints for the positive integer [a] of
    [digits] digits that a number denotes: a multiple of a power of ten
    that denotes the same number and has the fewest significant digits, the
    nearest to [a] when two of them do, the one with the even last digit
    when they are equally near. [k] is the number of significant digits
    that is tried. *)
Fixpoint shortest_decimal (fuel k digits : nat) (a : Z) : Z :=
  match fuel with
  | O => a
  | S fuel' =>
      let unit := (10 ^ Z.of_nat (digits - k))%Z in
      let below := (a / unit * unit)%Z in
      let above := (below + unit)%Z in
      let below_reads := same_number (Number_of_Z below) (Number_of_Z a) in
      let above_reads := same_number (Number_of_Z above) (Number_of_Z a) in
      if below_reads && above_reads then
        match (a - below ?= above - a)%Z with
        | Lt => below
        | Gt => above
        | Eq => if Z.even (a / unit) then below else above
        end
      else if below_reads then below
      else if above_reads then above
      else shortest_decimal fuel' (S k) digits a
  end.

Fixpoint without_trailing_zeros (digits : jstring) : jstring :=
  match digits with
  | [] => []
  | d :: rest =>
      match without_trailing_zeros rest with
      | [] => if (d =? 48)%N then [] else [d]
      | kept => d :: kept
      end
  end.

(** The digits of a positive integer as Number::toString writes them: in
    full up to 21 digits, and beyond as the significant digits, a point
    after the first one, and the exponent. *)
Definition print_decimal (c : Z) : jstring :=
  let digits := uint_units (Pos.to_uint (Z.to_pos c)) in
  let n := length digits in
  if n <=? 21 then digits
  else
    match without_trailing_zeros digits with
    | [] => digits
    | [d] => d :: js "e+" ++ index_toString (n - 1)
    | d :: rest => d :: 46%N :: rest ++ js "e+" ++ index_toString (n - 1)
    end.

(** Number::toString for a number that is an integer, an infinity or
    NaN. *)
Definition Number_toString (x : number) : jstring :=
  match x with
  | S754_zero _ => js "0"
  | S754_infinity s => if s then js "-Infinity" else js "Infinity"
  | S754_nan => js "NaN"
  | S754_finite s _ _ =>
      let a := Z.abs (integer_of x) in
      let digits := length (uint_units (Pos.to_uint (Z.to_pos a))) in
      (if s then js "-" else [])
        ++ print_decimal (shortest_decimal digits 1 digits a)
  end.

(** [n.toString()], and [`${n}`], for the number an integer literal [n]
    denotes. *)
Definition number_toString (n : Z) : jstring :=
  Number_toString (Number_of_Z n).


(** [pieces.join(sep)] on strings. *)
Fixpoint join_strings (sep : jstring) (pieces : list jstring) : jstring :=
  match pieces with
  | [] => []
  | [p] => p
  | p :: rest => p ++ sep ++ join_strings sep rest
  end.

(** *** Values

    The values a JSON request body can hold, and [undefined] for a property
    that is absent. A number is given by an integer literal and is the
    binary64 value the literal denotes; an object lists its own properties,
    each key once. *)
#[warnings="-register-all"]
Inductive value : Type :=
  | VUndefined
  | VNull
  | VBool (b : bool)
  | VNum (n : Z)
  | VStr (s : jstring)
  | VArr (elements : list value)
  | VObj (props : list (jstring * value)).

(** ToBoolean: what [!v], [v ? _ : _] and [v && _] test. *)
Definition truthy (v : value) : bool :=
  match v with
  | VUndefined | VNull => false
  | VBool b => b
  | VNum n => negb (n =? 0)%Z
  | VStr s => match s with [] => false | _ => true end
  | VArr _ | VObj _ => true
  end.

Definition Array_isArray (v : value) : bool :=
  match v with VArr _ => true | _ => false end.

(** A destructuring default [{ field = dflt }]: used when the property is
    [undefined]. *)
Definition default_to (dflt v : value) : value :=
  match v with VUndefined => dflt | _ => v end.

(** *** Exceptions *)
Inductive exception : Type :=
  | Error (message : jstring)
  | TypeError.

Inductive completion (A : Type) : Type :=
  | Return (a : A)
  | Throw (e : exception).
Arguments Return {A} a.
Arguments Throw {A} e.

Definition bind {A B : Type} (c : completion A) (k : A -> completion B)
  : completion B :=
  match c with
  | Return a => k a
  | Throw e => Throw e
  end.

Notation "'let*' x ':=' c 'in' k" := (bind c (fun x => k))
  (at level 10, x name, c at level 100, k at level 200).

(** The value of an own property of an object, [undefined] when there is
    none. *)
Fixpoint own_property (props : list (jstring * value)) (key : jstring)
  : value :=
  match props with
  | [] => VUndefined
  | (k, v) :: rest =>
      if bool_decide (k = key) then v else own_property rest key
  end.

Definition has_own_property (props : list (jstring * value))
  (key : jstring) : bool :=
  existsb (fun p => bool_decide (fst p = key)) props.

Fixpoint sequence {A : Type} (l : list (completion A))
  : completion (list A) :=
  match l with
  | [] => Return []
  | c :: rest =>
      let* a := c in
      let* others := sequence rest in
      Return (a :: others)
  end.

(** ToString, as a template literal [`${v}`] and [join] apply it. An array
    prints its elements joined by commas, [null] and [undefined] elements
    as nothing. An object is asked for its [toString]: the one of
    [Object.prototype] prints [[object Object]]; an own property
    [toString] of a JSON object is no function, the [valueOf] tried next is
    no function either or returns the object itself, and the conversion
    throws a TypeError. *)
Fixpoint ToString (v : value) : completion jstring :=
  match v with
  | VUndefined => Return (js "undefined")
  | VNull => Return (js "null")
  | VBool true => Return (js "true")
  | VBool false => Return (js "false")
  | VNum n => Return (number_toString n)
  | VStr s => Return s
  | VArr elements =>
      let* pieces :=
        sequence (List.map (fun e => match e with
                                     | VUndefined | VNull => Return []
                                     | _ => ToString e
                                     end) elements) in
      Return (join_strings (js ",") pieces)
  | VObj props =>
      if has_own_property props (js "toString") then Throw TypeError
      else Return (js "[object Object]")
  end.

(** ToPrimitive without a hint, as [v + 1] applies it: on an array and on
    an object [valueOf] is tried first and returns the object itself, so
    [toString] decides as it does in [ToString]. *)
Definition ToPrimitive (v : value) : completion value :=
  match v with
  | VArr _ | VObj _ => let* s := ToString v in Return (VStr s)
  | _ => Return v
  end.

(** [`${v + 1}`]: [v] is made a primitive; a string gets "1" appended, any
    other primitive is made a number, [null] and [false] 0, [true] 1 and
    [undefined] NaN, and 1 is added to it. *)
Definition add_one (v : value) : completion jstring :=
  let* primitive := ToPrimitive v in
  Return
    match primitive with
    | VStr s => s ++ js "1"
    | VNum n => Number_toString (Number_add (Number_of_Z n) (Number_of_Z 1))
    | VBool true => js "2"
    | VBool false | VNull => js "1"
    | _ => js "NaN"
    end.

(** [elements.join(sep)] *)
Definition Array_join (sep : jstring) (elements : list value)
  : completion jstring :=
  let* pieces :=
    sequence (List.map (fun e => match e with
                                 | VUndefined | VNull => Return []
                                 | _ => ToString e
                                 end) elements) in
  Return (join_strings sep pieces).

(** [v.length] for a [v] that is neither [null] nor [undefined]. *)
Definition length_of (v : value) : value :=
  match v with
  | VStr s => VNum (Z.of_nat (length s))
  | VArr elements => VNum (Z.of_nat (length elements))
  | VObj props => own_property props (js "length")
  | _ => VUndefined
  end.

(** [try { c } catch (error) { handler }] *)
Definition try_catch {A : Type} (c : completion A)
  (handler : exception -> completion A) : completion A :=
  match c with
  | Return a => Return a
  | Throw e => handler e
  end.

(** The receiver of a String.prototype method ([substring], [replace],
    [trim], [toUpperCase], [toLowerCase]). On [null] and [undefined] the
    property access throws; a boolean, a number, an array and an object of a
    JSON body have no such method, and calling [undefined] throws as well. *)
Definition string_receiver (v : value) : completion jstring :=
  match v with
  | VStr s => Return s
  | _ => Throw TypeError
  end.

(** [Object.keys(v).length] *)
Definition Object_keys_length (v : value) : completion nat :=
  match v with
  | VUndefined | VNull => Throw TypeError
  | VBool _ | VNum _ => Return 0
  | VStr s => Return (length s)
  | VArr elements => Return (length elements)
  | VObj props => Return (length props)
  end.

(** *** Regular expressions: whole words *)

(** [\w] without the [u] flag. *)
Definition is_word_char (c : N) : bool :=
  ((48 <=? c) && (c <=? 57) || (65 <=? c) && (c <=? 90)
   || (c =? 95) || (97 <=? c) && (c <=? 122))%N.

(** [\b] between the code unit [prev] (none at the start of the input) and
    the rest [s] of the input. *)
Definition word_boundary (prev : option N) (s : jstring) : bool :=
  xorb (match prev with Some c => is_word_char c | None => false end)
       (match s with c :: _ => is_word_char c | [] => false end).

(** Canonicalize of the [i] flag without the [u] flag: the upper case of
    the code unit when that is one code unit, and not a Basic Latin one for
    a code unit outside Basic Latin. Above U+00FF the code unit is kept: its
    upper case does not lie below U+0100, and the patterns of the two files
    hold no code unit above U+00FF, so what matches them is not changed. *)
Definition canonicalize (c : N) : N :=
  match upper_units c with
  | [u] => if ((128 <=? c) && (u <? 128))%N then c else u
  | _ => c
  end.

Definition same_unit (ignoreCase : bool) (c p : N) : bool :=
  if ignoreCase then (canonicalize c =? canonicalize p)%N else (c =? p)%N.

(** The literal [pat] at the head of [s]: the last code unit read and the
    rest of the input. *)
Fixpoint match_literal (ignoreCase : bool) (pat s : jstring) (prev : option N)
  : option (option N * jstring) :=
  match pat with
  | [] => Some (prev, s)
  | p :: pat' =>
      match s with
      | c :: s' =>
          if same_unit ignoreCase c p
          then match_literal ignoreCase pat' s' (Some c)
          else None
      | [] => None
      end
  end.

(** [\bpat\b] at this position. *)
Definition match_word_here (ignoreCase : bool) (pat : jstring)
  (prev : option N) (s : jstring) : bool :=
  word_boundary prev s &&
  match match_literal ignoreCase pat s prev with
  | Some (last, rest) => word_boundary last rest
  | None => false
  end.

(** The number of matches [s.match(new RegExp(`\\b${word}\\b`, 'gi'))] finds,
    0 when it returns [null], for a non-empty [word] without regular
    expression operators. The search resumes where the last match ended:
    [skip] counts the code units of that match still to pass. *)
Fixpoint count_word_matches (word : jstring) (prev : option N) (s : jstring)
  (skip : nat) : nat :=
  match s with
  | [] => 0
  | c :: rest =>
      match skip with
      | S skip' => count_word_matches word (Some c) rest skip'
      | O =>
          if match_word_here true word prev s
          then S (count_word_matches word (Some c) rest (length word - 1))
          else count_word_matches word (Some c) rest 0
      end
  end.

Definition match_count (word s : jstring) : nat :=
  count_word_matches word None s 0.

(** [/\b(w1|w2|...)\b/.test(s)] *)
Fixpoint test_words_from (words : list jstring) (prev : option N)
  (s : jstring) : bool :=
  existsb (fun w => match_word_here false w prev s) words ||
  match s with
  | [] => false
  | c :: rest => test_words_from words (Some c) rest
  end.

Definition test_words (words : list jstring) (s : jstring) : bool :=
  test_words_from words None s.

Definition LINE_FEED : jstring := [10%N].
Definition QUOTE : jstring := [34%N].

(** The number of whitespace code units at the head of [s]: what a greedy
    [\s*] reads. *)
Fixpoint whitespace_run (s : jstring) : nat :=
  match s with
  | c :: rest => if is_whitespace c then S (whitespace_run rest) else 0
  | [] => 0
  end.

(** The length of the match of [/```json\s*|\s*```/] at the head of [s],
    the first alternative first. After a greedy [\s*] a shorter run is of
    no use: the next code unit is whitespace, not a backquote. *)
Definition fence_match (s : jstring) : option nat :=
  if startsWith s (js "```json")
  then Some (7 + whitespace_run (skipn 7 s))
  else if startsWith (skipn (whitespace_run s) s) (js "```")
  then Some (whitespace_run s + 3)
  else None.

(** [s.replace(/```json\s*|\s*```/g, '')]; [skip] counts the code units of
    the last match still to drop. *)
Fixpoint remove_code_fences_from (skip : nat) (s : jstring) : jstring :=
  match s with
  | [] => []
  | c :: rest =>
      match skip with
      | S skip' => remove_code_fences_from skip' rest
      | O =>
          match fence_match s with
          | Some n => remove_code_fences_from (n - 1) rest
          | None => c :: remove_code_fences_from 0 rest
          end
      end
  end.

Definition remove_code_fences (s : jstring) : jstring :=
  remove_code_fences_from 0 s.

(** [v.name] for a name that no array and no string has as a property
    ([content], [text]). *)
Definition get_named (v : value) (name : jstring) : completion value :=
  match v with
  | VUndefined | VNull => Throw TypeError
  | VObj props => Return (own_property props name)
  | _ => Return VUndefined
  end.

(** [v?.[0]] *)
Definition optional_first (v : value) : value :=
  match v with
  | VArr (first :: _) => first
  | VStr (c :: _) => VStr [c]
  | VObj props => own_property props (js "0")
  | _ => VUndefined
  end.

(** [v?.name], for such a name. *)
Definition optional_named (v : value) (name : jstring) : value :=
  match v with
  | VObj props => own_property props name
  | _ => VUndefined
  end.

(** What [fetch] is given besides the address; [body] is the object
    [JSON.stringify] is applied to. *)
Record FetchInit : Type := {
  method : jstring;
  headers : list (jstring * jstring);
  body : value
}.

(** What [fetch] resolves to: [text] and [json] are the outcomes of
    [await response.text()] and [await response.json()]. *)
Record Response : Type := {
  ok : bool;
  status : Z;
  text : completion jstring;
  json : completion value
}.

(** [error.message]; the text of a TypeError is the engine's. *)
Definition message_of (TypeError_message : jstring) (e : exception)
  : jstring :=
  match e with
  | Error message => message
  | TypeError => TypeError_message
  end.

(** The number of [\w] code units at the head of [s]: what a greedy [\w+]
    reads. *)
Fixpoint word_run (s : jstring) : nat :=
  match s with
  | c :: rest => if is_word_char c then S (word_run rest) else 0
  | [] => 0
  end.

(** The number of code units other than the double quote at the head of
    [s]: what a greedy class of all but the double quote reads. *)
Fixpoint unquoted_run (s : jstring) : nat :=
  match s with
  | c :: rest => if (c =? 34)%N then 0 else S (unquoted_run rest)
  | [] => 0
  end.

End JS.

Import JS.

(** [array.map((x, i) => f(x, i))] and [array.forEach((x, i) => ...)] with a
    callback that may throw; [index] is the position of the head of the
    list. *)
Fixpoint map_from {A B : Type} (f : A -> nat -> completion B)
  (index : nat) (l : list A) : completion (list B) :=
  match l with
  | [] => Return []
  | x :: rest =>
      let* y := f x index in
      let* ys := map_from f (S index) rest in
      Return (y :: ys)
  end.

Fixpoint forEach_from {A St : Type} (f : A -> nat -> St -> completion St)
  (index : nat) (l : list A) (state : St) : completion St :=
  match l with
  | [] => Return state
  | x :: rest =>
      let* state' := f x index state in
      forEach_from f (S index) rest state'
  end.

(** ** api/process-xlf.js *)

Module ProcessXlf.

Record TranslationRequest : Type := {
  chunkTexts : value;
  chunkIndex : value;
  totalChunks : value;
  sourceLang : value;
  targetLang : value;
  translationContext : value;
  sourceContent : value
}.

(** The [translations] of a response: what the model's reply parsed to, or
    the object the fallback built. *)
Inductive translations_object : Type :=
  | Parsed (reply : value)
  | Fallbacks (fallbacks : gmap jstring jstring).

Record TranslationStats : Type := {
  textsProcessed : nat;
  realTranslations : nat;
  chunkComplete : bool;
  contextualTranslation : bool
}.

Record TranslationMetadata : Type := {
  metadata_sourceLang : value;
  metadata_targetLang : value;
  chunkInfo : jstring
}.

(** [processingTimeMs] and [timestamp] are left out: they read the
    clock. *)
Record TranslationResponse : Type := {
  success : bool;
  response_chunkIndex : value;
  translations : translations_object;
  stats : TranslationStats;
  metadata : TranslationMetadata
}.

(** The log line at the head of the function evaluates
    [text.substring(0, 50)] before anything else. *)
Definition preprocessTextForTranslation (text : value) (index : nat)
  : completion jstring :=
  let* shown := (let* s := string_receiver text in Return (substring0 50 s)) in
  let* s := string_receiver text in
  let cleaned := trim (replace_whitespace_runs false s) in
  if negb (truthy (VStr cleaned)) || (length cleaned =? 0) then Return []
  else if length cleaned <? 3 then Return cleaned
  else Return cleaned.

Section Synthesizer.

Context `{CaseConversion}.

(** The body of the [forEach] callback of [generateContextualFallbacks]. *)
Definition fallback_for (targetLang translationContext : value)
  (text : value) (index : nat) (fallbacks : gmap jstring jstring)
  : completion (gmap jstring jstring) :=
  let* blank := (if negb (truthy text) then Return true
                 else let* t := string_receiver text in
                      Return (length (trim t) =? 0)) in
  if (blank : bool) then Return (<[index_toString index := []]> fallbacks)
  else
    let* lang := string_receiver targetLang in
    let fallback :=
      concat [js "["; toUpperCase lang; js "_TRANSLATION_";
              index_toString index; js "]"] in
    let* fallback :=
      (if truthy translationContext then
         let* context := string_receiver translationContext in
         if includes (toLowerCase context) (js "occupational")
            || includes (toLowerCase context) (js "prl")
         then Return (concat [js "[WORKPLACE_SAFETY_"; toUpperCase lang;
                              js "_"; index_toString index; js "]"])
         else if includes (toLowerCase context) (js "technical")
         then Return (concat [js "[TECHNICAL_"; toUpperCase lang;
                              js "_"; index_toString index; js "]"])
         else if includes (toLowerCase context) (js "educational")
         then Return (concat [js "[EDUCATIONAL_"; toUpperCase lang;
                              js "_"; index_toString index; js "]"])
         else Return fallback
       else Return fallback) in
    Return (<[index_toString index := fallback]> fallbacks).

Definition generateContextualFallbacks (texts : list value)
  (targetLang translationContext : value)
  : completion (gmap jstring jstring) :=
  forEach_from (fallback_for targetLang translationContext) 0 texts ∅.

End Synthesizer.

Section Orchestrator.

Context `{CaseConversion}.

(** The call of the external model, [await translateWithClaude(...)]: it
    returns what the reply parsed to, or throws (no API key, a failed
    request, an empty or malformed reply). *)
Variable translateWithClaude :
  list jstring -> value -> value -> value -> completion value.

(** [`${chunkIndex + 1}/${totalChunks}`] *)
Definition chunk_numbers (chunkIndex totalChunks : value)
  : completion jstring :=
  let* index := add_one chunkIndex in
  let* total := ToString totalChunks in
  Return (concat [index; js "/"; total]).

Definition processTranslation (requestData : TranslationRequest)
  : completion TranslationResponse :=
  let chunkTexts := chunkTexts requestData in
  let chunkIndex := default_to (VNum 0) (chunkIndex requestData) in
  let totalChunks := default_to (VNum 1) (totalChunks requestData) in
  let sourceLang := default_to (VStr (js "en")) (sourceLang requestData) in
  let targetLang := targetLang requestData in
  let translationContext := translationContext requestData in
  if negb (truthy chunkTexts) || negb (Array_isArray chunkTexts)
  then Throw (Error (js "Missing or invalid chunkTexts array"))
  else if negb (truthy targetLang)
  then Throw (Error (js "Target language is required"))
  else
    match chunkTexts with
    | VArr texts =>
        if length texts =? 0
        then Throw (Error (js "chunkTexts array cannot be empty"))
        else
          (* the two log lines print [`${chunkIndex + 1}/${totalChunks}`]
             and, for a truthy context,
             [`${translationContext.length} chars`] *)
          let* shown :=
            (let* numbers := chunk_numbers chunkIndex totalChunks in
             if truthy translationContext
             then ToString (length_of translationContext)
             else Return (js "none")) in
          let* processedTexts := map_from preprocessTextForTranslation 0 texts in
          let* translations :=
            try_catch
              (let* reply := translateWithClaude processedTexts sourceLang
                          targetLang translationContext in
               let* logged := Object_keys_length reply in
               Return (Parsed reply))
              (fun error =>
                 let* fallbacks := generateContextualFallbacks
                                (List.map VStr processedTexts)
                                targetLang translationContext in
                 Return (Fallbacks fallbacks)) in
          let* count := match translations with
                   | Parsed reply => Object_keys_length reply
                   | Fallbacks fallbacks => Return (size fallbacks)
                   end in
          let* chunkInfo := chunk_numbers chunkIndex totalChunks in
          Return {|
            success := true;
            response_chunkIndex := chunkIndex;
            translations := translations;
            stats := {|
              textsProcessed := length processedTexts;
              realTranslations := count;
              chunkComplete := true;
              contextualTranslation := truthy translationContext
            |};
            metadata := {|
              metadata_sourceLang := sourceLang;
              metadata_targetLang := targetLang;
              chunkInfo := chunkInfo
            |}
          |}
    | _ => Throw (Error (js "Missing or invalid chunkTexts array"))
    end.

End Orchestrator.


(** *** The prompt and the external call *)

Definition text_line (text : jstring) (i : nat) : jstring :=
  concat [index_toString i; js ": "; QUOTE; text; QUOTE].

(** [chunkTexts.map((text, i) => `${i}: "${text}"`).join('\n')] *)
Definition text_lines (chunkTexts : list jstring) : jstring :=
  join_strings LINE_FEED (imap (fun i text => text_line text i) chunkTexts).

(** [{"0": "translation1", "1": "translation2", ...}] *)
Definition JSON_FORMAT : jstring :=
  concat [js "{"; QUOTE; js "0"; QUOTE; js ": "; QUOTE; js "translation1";
          QUOTE; js ", "; QUOTE; js "1"; QUOTE; js ": "; QUOTE;
          js "translation2"; QUOTE; js ", ...}"].

Definition buildTranslationPrompt (chunkTexts : list jstring)
  (sourceLang targetLang translationContext : value) : completion jstring :=
  let* contextual :=
    (if truthy translationContext then
       let* context := string_receiver translationContext in
       Return (0 <? length (trim context))
     else Return false) in
  if (contextual : bool) then
    (* Contextual prompt *)
    let* context := ToString translationContext in
    let* source := ToString sourceLang in
    let* target := ToString targetLang in
    Return (concat [
      context; LINE_FEED;
      LINE_FEED;
      js "---"; LINE_FEED;
      LINE_FEED;
      js "TRANSLATION INSTRUCTIONS:"; LINE_FEED;
      js "- Translate ALL "; index_toString (length chunkTexts);
        js " texts from "; source; js " to "; target; LINE_FEED;
      js "- Follow the contextual guidelines above precisely"; LINE_FEED;
      js "- Preserve ALL XML structure: <g>, <br/>, <strong>, etc.";
        LINE_FEED;
      js "- Maintain exact formatting and spacing"; LINE_FEED;
      js "- Return ONLY JSON format: "; JSON_FORMAT; LINE_FEED;
      LINE_FEED;
      js "TEXTS TO TRANSLATE:"; LINE_FEED;
      text_lines chunkTexts ])
  else
    (* Standard prompt without context *)
    let* source := ToString sourceLang in
    let* target := ToString targetLang in
    Return (concat [
      js "Translate each text from "; source; js " to "; target; js ".";
        LINE_FEED;
      LINE_FEED;
      js "CRITICAL REQUIREMENTS:"; LINE_FEED;
      js "- Preserve ALL XML structure exactly: <g>, <br/>, <strong>, etc.";
        LINE_FEED;
      js "- Maintain exact formatting and spacing"; LINE_FEED;
      js "- Return ONLY JSON format: "; JSON_FORMAT; LINE_FEED;
      LINE_FEED;
      js "TEXTS TO TRANSLATE:"; LINE_FEED;
      text_lines chunkTexts ]).

Section Remote.

(** [process.env.CLAUDE_API_KEY]: a string when the variable is set. *)
Variable CLAUDE_API_KEY : option jstring.

(** [await fetch(address, init)] *)
Variable fetch : jstring -> FetchInit -> completion Response.

(** [JSON.parse(text)]: the value, or a SyntaxError, an [Error] with its
    message. *)
Variable JSON_parse : jstring -> completion value.

Variable TypeError_message : jstring.

Definition translateWithClaude (chunkTexts : list jstring)
  (sourceLang targetLang translationContext : value) : completion value :=
  (* the log lines print [`${sourceLang}`] and [`${targetLang}`] and, for
     a truthy context, [`${translationContext.length}`] and
     [translationContext.substring(0, 100)] *)
  let* source := ToString sourceLang in
  let* target := ToString targetLang in
  let* preview :=
    (if truthy translationContext then
       let* shown := ToString (length_of translationContext) in
       let* context := string_receiver translationContext in
       Return (substring0 100 context)
     else Return []) in
  (* API Key *)
  match CLAUDE_API_KEY with
  | None | Some [] => Throw (Error (js "Claude API key not configured"))
  | Some apiKey =>
      (* Build contextual prompt *)
      let* prompt := buildTranslationPrompt chunkTexts sourceLang targetLang
                       translationContext in
      (* Claude API call *)
      let* response :=
        fetch (js "https://api.anthropic.com/v1/messages") {|
          method := js "POST";
          headers := [
            (js "Content-Type", js "application/json; charset=utf-8");
            (js "x-api-key", apiKey);
            (js "anthropic-version", js "2023-06-01") ];
          body := VObj [
            (js "model", VStr (js "claude-sonnet-4-20250514"));
            (js "max_tokens", VNum 8000);
            (js "messages",
             VArr [VObj [(js "role", VStr (js "user"));
                         (js "content", VStr prompt)]]) ]
        |} in
      if negb (ok response) then
        let* errorText := text response in
        Throw (Error (concat [js "Claude API error ";
                              number_toString (status response);
                              js ": "; errorText]))
      else
        let* data := json response in
        (* Extract and parse response *)
        let* content := get_named data (js "content") in
        let responseText :=
          optional_named (optional_first content) (js "text") in
        if negb (truthy responseText)
        then Throw (Error (js "Claude API returned empty response"))
        else
          (* the log line prints [`${responseText.length}`] *)
          let* shown := ToString (length_of responseText) in
          (* Parse JSON response *)
          try_catch
            (let* reply := string_receiver responseText in
             let cleanedResponse := trim (remove_code_fences reply) in
             let* translations := JSON_parse cleanedResponse in
             let* logged := Object_keys_length translations in
             Return translations)
            (fun parseError =>
               Throw (Error (js "Failed to parse Claude response: "
                             ++ message_of TypeError_message parseError)))
  end.

End Remote.

(** *** Utility functions *)

(** [attributes[name] = value] on an object created by [{}]: the name
    [__proto__] reaches the setter of [Object.prototype], which ignores a
    string, and no property is added. *)
Definition set_attribute (name value : jstring)
  (attributes : gmap jstring jstring) : gmap jstring jstring :=
  if bool_decide (name = js "__proto__") then attributes
  else <[name := value]> attributes.

(** The match of the attribute expression at the head of [s]: a name
    [\w+(?::\w+)?], the equals sign, and between double quotes a value
    without double quote; the two groups and the length of the match. Each
    greedy run is followed by a code unit outside its class, so no shorter
    run can match. *)
Definition attribute_match (s : jstring)
  : option (jstring * jstring * nat) :=
  let n := word_run s in
  if n =? 0 then None
  else
    let name_length :=
      match skipn n s with
      | 58%N :: rest =>
          let m := word_run rest in
          if m =? 0 then n else n + 1 + m
      | _ => n
      end in
    match skipn name_length s with
    | 61%N :: 34%N :: rest =>
        let k := unquoted_run rest in
        match skipn k rest with
        | 34%N :: _ =>
            Some (firstn name_length s, firstn k rest, name_length + 3 + k)
        | _ => None
        end
    | _ => None
    end.

(** The [while] loop over [attrRegex.exec]: the search resumes where the
    last match ended. *)
Fixpoint parse_attributes_from (skip : nat) (s : jstring)
  (attributes : gmap jstring jstring) : gmap jstring jstring :=
  match s with
  | [] => attributes
  | c :: rest =>
      match skip with
      | S skip' => parse_attributes_from skip' rest attributes
      | O =>
          match attribute_match s with
          | Some (name, value, n) =>
              parse_attributes_from (n - 1) rest
                (set_attribute name value attributes)
          | None => parse_attributes_from 0 rest attributes
          end
      end
  end.

(** [exec] converts its argument to a string. *)
Definition parseAttributes (attributeString : value)
  : completion (gmap jstring jstring) :=
  let* s := ToString attributeString in
  Return (parse_attributes_from 0 s ∅).

(** The class [[.*+?^${}()|[\]\\]]. *)
Definition is_regexp_special (c : N) : bool :=
  existsb (N.eqb c)
    [46; 42; 43; 63; 94; 36; 123; 125; 40; 41; 124; 91; 93; 92]%N.

(** [string.replace(/[.*+?^${}()|[\]\\]/g, '\\$&')] *)
Definition escapeRegExp (string : value) : completion jstring :=
  let* s := string_receiver string in
  Return (List.flat_map
            (fun c => if is_regexp_special c then [92%N; c] else [c]) s).

(** [[a-z]] under the [i] flag. *)
Definition is_letter (c : N) : bool :=
  ((65 <=? canonicalize c) && (canonicalize c <=? 90))%N.

(** [[a-z]*;$] *)
Fixpoint letters_then_semicolon (s : jstring) : bool :=
  match s with
  | [] => false
  | c :: rest =>
      match rest with
      | [] => (c =? 59)%N
      | _ => is_letter c && letters_then_semicolon rest
      end
  end.

(** [/^&[a-z]+;$/i] *)
Definition is_entity (s : jstring) : bool :=
  match s with
  | 38%N :: c :: rest => is_letter c && letters_then_semicolon rest
  | _ => false
  end.

(** [[<>\s]] *)
Definition is_angle_or_space (c : N) : bool :=
  ((c =? 60) || (c =? 62))%N || is_whitespace c.

Definition isSignificantText (text : value) : bool :=
  if negb (truthy text) || negb (match text with VStr _ => true | _ => false end)
  then false
  else
    match text with
    | VStr s =>
        let trimmed := trim s in
        (2 <? length trimmed)
        && negb (forallb is_whitespace trimmed)
        && negb (is_entity trimmed)
        && negb (forallb is_angle_or_space trimmed)
    | _ => false
    end.

End ProcessXlf.

(** ** api/generate-context.js *)

Module GenerateContext.

Record ContextRequest : Type := {
  sampleTexts : value;
  userContext : value;
  targetLang : value;
  contentType : value
}.

Record Analysis : Type := {
  analysis_contentType : jstring;
  recommendedTone : jstring;
  targetAudience : jstring;
  specialConsiderations : list jstring
}.

Section Classifier.

Context `{CaseConversion}.

Definition analyzeContentPatterns (sampleTexts : list value)
  : completion Analysis :=
  let* joined := Array_join (js " ") sampleTexts in
  let allContent := toLowerCase joined in
  let analysis := {|
    analysis_contentType := js "Educational/Training Content";
    recommendedTone := js "Professional";
    targetAudience := js "Learners";
    specialConsiderations := []
  |} in
  (* UI/Interactive elements detection *)
  let analysis :=
    if test_words [js "click"; js "button"; js "navigate"; js "select";
                   js "choose"; js "continue"; js "next"; js "previous";
                   js "start"; js "complete"] allContent
    then {|
      analysis_contentType := analysis_contentType analysis;
      recommendedTone := recommendedTone analysis;
      targetAudience := targetAudience analysis;
      specialConsiderations :=
        (specialConsiderations analysis ++ [js "UI elements"])
          ++ [js "interaction clarity"]
    |}
    else analysis in
  (* Technical content detection *)
  let analysis :=
    if test_words [js "api"; js "system"; js "configuration"; js "database";
                   js "server"; js "technical"; js "setup"; js "install"]
         allContent
    then {|
      analysis_contentType := analysis_contentType analysis;
      recommendedTone := js "Technical";
      targetAudience := js "Technical Users";
      specialConsiderations :=
        specialConsiderations analysis ++ [js "technical accuracy"]
    |}
    else analysis in
  (* Educational content detection *)
  let analysis :=
    if test_words [js "lesson"; js "course"; js "learning"; js "training";
                   js "module"; js "chapter"; js "quiz"; js "student";
                   js "learn"] allContent
    then {|
      analysis_contentType := js "E-Learning Platform";
      recommendedTone := recommendedTone analysis;
      targetAudience := targetAudience analysis;
      specialConsiderations :=
        specialConsiderations analysis ++ [js "learning flow"]
    |}
    else analysis in
  (* Corporate content detection *)
  let analysis :=
    if test_words [js "company"; js "organization"; js "employee";
                   js "business"; js "corporate"; js "workplace"; js "team"]
         allContent
    then {|
      analysis_contentType := js "Corporate Training";
      recommendedTone := js "Professional";
      targetAudience := js "Employees";
      specialConsiderations := specialConsiderations analysis
    |}
    else analysis in
  Return analysis.

End Classifier.

Record Domain : Type := {
  name : jstring;
  keywords : list jstring;
  weight : nat
}.

(** The [domains] object literal, its properties in the order they are
    written, which is the order [Object.keys] lists them in. *)
Definition domains : list (jstring * Domain) := [
  (js "prl", {|
     name := js "Occupational Health & Safety (PRL)";
     keywords := [
       js "prl"; js "prevención"; js "riesgos laborales"; js "ergonomía";
       js "postura"; js "asiento"; js "respaldo";
       js "estrés laboral"; js "seguridad"; js "salud laboral";
       js "workplace safety"; js "occupational health";
       js "ergonomic"; js "posture"; js "safety guidelines";
       js "health risks"; js "prevention" ];
     weight := 0 |});
  (js "technical", {|
     name := js "Technical & IT Training";
     keywords := [
       js "api"; js "system"; js "software"; js "configuration";
       js "install"; js "database"; js "server"; js "code";
       js "technical"; js "setup"; js "data"; js "process"; js "function";
       js "network"; js "interface"; js "development" ];
     weight := 0 |});
  (js "educational", {|
     name := js "Educational & E-Learning";
     keywords := [
       js "lesson"; js "course"; js "learning"; js "training"; js "module";
       js "chapter"; js "quiz"; js "assessment";
       js "knowledge"; js "skill"; js "student"; js "learn"; js "teach";
       js "education"; js "instruction" ];
     weight := 0 |});
  (js "corporate", {|
     name := js "Corporate Training";
     keywords := [
       js "company"; js "organization"; js "team"; js "department";
       js "employee"; js "business"; js "corporate";
       js "workplace"; js "professional"; js "management"; js "process";
       js "procedure"; js "policy" ];
     weight := 0 |})
].

(** The body of [domain.keywords.forEach]: [matches] is [null] when the
    keyword is not found. *)
Definition add_matches (allContent : jstring) (domain : Domain)
  (keyword : jstring) : Domain :=
  let matches := match_count keyword allContent in
  if 0 <? matches
  then {| name := name domain; keywords := keywords domain;
          weight := weight domain + matches |}
  else domain.

Definition weigh (allContent : jstring) (domain : Domain) : Domain :=
  fold_left (add_matches allContent) (keywords domain) domain.

(** The callback of [reduce]: [a] is kept only when it is strictly heavier
    than [b]. *)
Definition heavier (a b : jstring * Domain) : jstring * Domain :=
  if weight (snd b) <? weight (snd a) then a else b.

(** [keys.reduce(f)] without an initial value; on an empty array it
    throws. *)
Definition reduce {A : Type} (f : A -> A -> A) (l : list A) : completion A :=
  match l with
  | [] => Throw TypeError
  | first :: rest => Return (fold_left f rest first)
  end.

Record DomainAnalysis : Type := {
  primary : jstring;
  description : jstring;
  confidence : number;
  weights : list (jstring * nat)
}.

(** The [domains] object after the weights are calculated. *)
Definition weighted_domains (allContent : jstring)
  : list (jstring * Domain) :=
  List.map (fun entry => (fst entry, weigh allContent (snd entry))) domains.

Section Generation.

Context `{CaseConversion}.

Definition detectContentDomain (sampleTexts : list value)
  : completion DomainAnalysis :=
  let* joined := Array_join (js " ") sampleTexts in
  let allContent := toLowerCase joined in
  (* Calculate domain weights *)
  let domains := weighted_domains allContent in
  (* Find dominant domain *)
  let* dominantDomain := reduce heavier domains in
  let maxWeight := weight (snd dominantDomain) in
  let confidence :=
    if 0 <? maxWeight
    then Math_min
           (Math_round
              (Number_mul
                 (Number_div (Number_of_Z (Z.of_nat maxWeight))
                             (Number_of_Z (Z.of_nat (length sampleTexts))))
                 (Number_of_Z 100)))
           (Number_of_Z 95)
    else Number_of_Z 50 in
  Return {|
    primary := fst dominantDomain;
    description := name (snd dominantDomain);
    confidence := confidence;
    weights := List.map (fun entry => (fst entry, weight (snd entry))) domains
  |}.

(** The [approaches] object literal, for the string [targetLang] prints
    as. *)
Definition approaches (target : jstring) : list (jstring * jstring) := [
  (js "prl",
   concat [js "Professional "; target;
           js " workplace safety terminology, technical precision for ergonomic and health concepts"]);
  (js "technical",
   concat [js "Technical "; target;
           js " terminology with accuracy for system/software concepts, maintain English technical terms where standard"]);
  (js "educational",
   concat [js "Clear, accessible "; target;
           js " with educational clarity, avoid overly technical jargon unless necessary"]);
  (js "corporate",
   concat [js "Professional business "; target;
           js " terminology, formal register appropriate for corporate environment"])
].

Fixpoint property {A : Type} (props : list (jstring * A)) (key : jstring)
  : option A :=
  match props with
  | [] => None
  | (k, v) :: rest =>
      if bool_decide (k = key) then Some v else property rest key
  end.

(** [approaches[domain] || ...], for a [domain] that is a key of
    [domains] or no property at all. The templates of the object literal
    print [targetLang] before the lookup. *)
Definition getTerminologyApproach (domain : jstring) (targetLang : value)
  : completion jstring :=
  let* target := ToString targetLang in
  match property (approaches target) domain with
  | Some approach => Return approach
  | None =>
      Return (concat [js "Professional "; target;
                      js " terminology appropriate for the content domain"])
  end.

Definition generateEnhancedLocalContext (sampleTexts : list value)
  (userContext targetLang : value) : completion jstring :=
  (* the log line prints [`${targetLang}`] *)
  let* shown := ToString targetLang in
  let* analysis := analyzeContentPatterns sampleTexts in
  let* domainAnalysis := detectContentDomain sampleTexts in
  (* Build contextual guidelines *)
  let contextualPrompt :=
    concat [js "**CONTENT TYPE**: "; analysis_contentType analysis;
            [10%N]] in
  let contextualPrompt :=
    contextualPrompt ++
    concat [js "**DOMAIN**: "; description domainAnalysis; [10%N]] in
  let* approach :=
    getTerminologyApproach (primary domainAnalysis) targetLang in
  let contextualPrompt :=
    contextualPrompt ++
    concat [js "**TERMINOLOGY APPROACH**: "; approach; [10%N]] in
  let contextualPrompt :=
    contextualPrompt ++
    concat [js "**TONE**: "; recommendedTone analysis; [10%N]] in
  let contextualPrompt :=
    contextualPrompt ++
    concat [js "**AUDIENCE**: "; targetAudience analysis; [10%N]] in
  (* the array in the template literal prints as its elements joined
     by "," *)
  let contextualPrompt :=
    contextualPrompt ++
    concat [js "**SPECIAL CONSIDERATIONS**: ";
            join_strings (js ",") (specialConsiderations analysis);
            [10%N]] in
  let* contextualPrompt :=
    (if truthy userContext then
       let* trimmed := (let* u := string_receiver userContext in
                        Return (trim u)) in
       if 0 <? length trimmed then
         let* again := (let* u := string_receiver userContext in
                        Return (trim u)) in
         Return (contextualPrompt ++
                 concat [js "**USER REQUIREMENTS**: "; again; [10%N]])
       else Return contextualPrompt
     else Return contextualPrompt) in
  let* target := ToString targetLang in
  let contextualPrompt :=
    contextualPrompt ++
    concat [js "**QUALITY STANDARDS**: Maintain XML structure integrity, preserve spacing, ensure ";
            target; js " linguistic accuracy"; [10%N]] in
  Return (trim contextualPrompt).

End Generation.

Record ContextStats : Type := {
  sampleTextsAnalyzed : nat;
  contextLength : nat;
  userContextProvided : bool
}.

Record ContextMetadata : Type := {
  metadata_targetLang : value;
  metadata_contentType : value;
  generationMethod : jstring
}.

(** [processingTimeMs] and [timestamp] are left out. *)
Record ContextResponse : Type := {
  success : bool;
  translationContext : jstring;
  stats : ContextStats;
  metadata : ContextMetadata
}.

Section Generator.

Context `{CaseConversion}.

(** The call of the external model,
    [await generateContextWithClaude(...)]: the trimmed text of the reply, or
    a throw. *)
Variable generateContextWithClaude :
  list value -> value -> value -> completion jstring.

Definition generateTranslationContext (requestData : ContextRequest)
  : completion ContextResponse :=
  let sampleTexts := default_to (VArr []) (sampleTexts requestData) in
  let userContext := default_to (VStr []) (userContext requestData) in
  let targetLang := default_to (VStr (js "es")) (targetLang requestData) in
  let contentType :=
    default_to (VStr (js "educational")) (contentType requestData) in
  if negb (truthy sampleTexts) || negb (Array_isArray sampleTexts)
  then Throw (Error (js "Missing or invalid sampleTexts array"))
  else
    match sampleTexts with
    | VArr samples =>
        if length samples =? 0
        then Throw (Error (js "sampleTexts array cannot be empty"))
        else
          (* the log line prints [`${targetLang}`] *)
          let* shown := ToString targetLang in
          let* translationContext :=
            try_catch
              (generateContextWithClaude samples userContext targetLang)
              (fun error =>
                 generateEnhancedLocalContext samples userContext targetLang)
          in
          Return {|
            success := true;
            translationContext := translationContext;
            stats := {|
              sampleTextsAnalyzed := length samples;
              contextLength := length translationContext;
              userContextProvided := truthy userContext
            |};
            metadata := {|
              metadata_targetLang := targetLang;
              metadata_contentType := contentType;
              generationMethod :=
                if includes translationContext (js "**CONTENT TYPE**")
                then js "claude" else js "local"
            |}
          |}
    | _ => Throw (Error (js "Missing or invalid sampleTexts array"))
    end.

End Generator.


Section Remote.

(** [process.env.CLAUDE_API_KEY]: a string when the variable is set. *)
Variable CLAUDE_API_KEY : option jstring.

(** [await fetch(address, init)] *)
Variable fetch : jstring -> FetchInit -> completion Response.

(** The analysis prompt for the sample and the two request fields. *)
Definition analysis_prompt (sampleForAnalysis : jstring)
  (userContext targetLang : value) : completion jstring :=
  let* additional :=
    (if truthy userContext
     then let* user := ToString userContext in
          Return (js "ADDITIONAL USER CONTEXT: " ++ user)
     else Return []) in
  let* target := ToString targetLang in
  Return (concat [
    js "Analyze this content and generate precise translation context guidelines.";
      LINE_FEED;
    LINE_FEED;
    js "CONTENT SAMPLE (first 40 representative texts):"; LINE_FEED;
    sampleForAnalysis; LINE_FEED;
    LINE_FEED;
    additional; LINE_FEED;
    LINE_FEED;
    js "TARGET LANGUAGE: "; target; LINE_FEED;
    LINE_FEED;
    js "Generate ONLY a structured translation context (max 800 characters) in exactly this format:";
      LINE_FEED;
    LINE_FEED;
    js "**CONTENT TYPE**: [Educational/Training/Technical/Corporate/Interactive]";
      LINE_FEED;
    js "**DOMAIN**: [Identify specific domain: Corporate Training, Technical Software, Academic Course, E-Learning Platform, Occupational Health & Safety Training, etc.]";
      LINE_FEED;
    js "**TERMINOLOGY APPROACH**: [Specific "; target;
      js " terminology guidance for this domain - be precise about technical vs educational language]";
      LINE_FEED;
    js "**TONE**: [Professional/Academic/Technical/Instructional/Interactive - choose most appropriate]";
      LINE_FEED;
    js "**AUDIENCE**: [Learners/Employees/Students/Technical Users/End Users - be specific]";
      LINE_FEED;
    js "**SPECIAL CONSIDERATIONS**: [UI elements, technical accuracy, cultural adaptation, learning flow, interaction clarity - list relevant ones]";
      LINE_FEED;
    (if truthy userContext
     then js "**USER REQUIREMENTS**: [Incorporate user context here]"
     else []); LINE_FEED;
    js "**QUALITY STANDARDS**: Maintain XML structure integrity, preserve spacing, ensure ";
      target; js " linguistic accuracy"; LINE_FEED;
    LINE_FEED;
    js "Focus on translation quality enhancement. Be specific and actionable." ]).

Definition generateContextWithClaude (sampleTexts : list value)
  (userContext targetLang : value) : completion jstring :=
  (* the log line prints [`${targetLang}`] *)
  let* shown := ToString targetLang in
  (* API Key *)
  match CLAUDE_API_KEY with
  | None | Some [] => Throw (Error (js "Claude API key not configured"))
  | Some apiKey =>
      (* Prepare representative sample (max 40 texts for analysis) *)
      let* sampleForAnalysis :=
        Array_join (concat [LINE_FEED; js "---"; LINE_FEED])
          (firstn 40 sampleTexts) in
      (* Build analysis prompt *)
      let* prompt :=
        analysis_prompt sampleForAnalysis userContext targetLang in
      (* Claude API call *)
      let* response :=
        fetch (js "https://api.anthropic.com/v1/messages") {|
          method := js "POST";
          headers := [
            (js "Content-Type", js "application/json; charset=utf-8");
            (js "x-api-key", apiKey);
            (js "anthropic-version", js "2023-06-01") ];
          body := VObj [
            (js "model", VStr (js "claude-sonnet-4-20250514"));
            (js "max_tokens", VNum 1000);
            (js "messages",
             VArr [VObj [(js "role", VStr (js "user"));
                         (js "content", VStr prompt)]]) ]
        |} in
      if negb (ok response) then
        let* errorText := text response in
        Throw (Error (concat [js "Claude API error ";
                              number_toString (status response);
                              js ": "; errorText]))
      else
        let* data := json response in
        (* Extract response *)
        let* content := get_named data (js "content") in
        let responseText :=
          optional_named (optional_first content) (js "text") in
        if negb (truthy responseText)
        then Throw (Error (js "Claude API returned empty response"))
        else
          (* the log line prints [`${responseText.length}`] *)
          let* shown := ToString (length_of responseText) in
          let* reply := string_receiver responseText in
          Return (trim reply)
  end.

End Remote.

End GenerateContext.

(** ** server.js *)

Module Server.

(** What a route sends: [res.json(result)], with the status 200 of a
    response whose status was not set, or
    [res.status(500).json({success: false, error: error.message, service})]. *)
Inductive Payload (A : Type) : Type :=
  | Result (result : A)
  | Failure (success : bool) (error : jstring) (service : jstring).
Arguments Result {A} result.
Arguments Failure {A} success error service.

Record Sent (A : Type) : Type := {
  statusCode : Z;
  payload : Payload A
}.
Arguments statusCode {A} _.
Arguments payload {A} _.

Section Routes.

Context `{CaseConversion}.

Variable translateWithClaude :
  list jstring -> value -> value -> value -> completion value.

Variable generateContextWithClaude :
  list value -> value -> value -> completion jstring.

(** The [message] of a TypeError the engine throws. *)
Variable TypeError_message : jstring.

(** [app.post('/api/process-xlf', ...)] on the parsed body of the request. *)
Definition post_process_xlf (body : ProcessXlf.TranslationRequest)
  : Sent ProcessXlf.TranslationResponse :=
  match ProcessXlf.processTranslation translateWithClaude body with
  | Return result => {| statusCode := 200; payload := Result result |}
  | Throw error => {|
      statusCode := 500;
      payload := Failure false (message_of TypeError_message error)
                   (js "process-xlf")
    |}
  end.

(** [app.post('/api/generate-context', ...)] *)
Definition post_generate_context (body : GenerateContext.ContextRequest)
  : Sent GenerateContext.ContextResponse :=
  match GenerateContext.generateTranslationContext
          generateContextWithClaude body with
  | Return result => {| statusCode := 200; payload := Result result |}
  | Throw error => {|
      statusCode := 500;
      payload := Failure false (message_of TypeError_message error)
                   (js "generate-context")
    |}
  end.

End Routes.

End Server.

(** ** What the properties speak of *)

Import ProcessXlf.

(** The head of a string is not whitespace. *)
Definition no_leading_whitespace (r : jstring) : Prop :=
  forall c, head r = Some c -> is_whitespace c = false.

(** The last code unit of a string is not whitespace. *)
Definition no_trailing_whitespace (r : jstring) : Prop :=
  forall c, last r = Some c -> is_whitespace c = false.

(** No two neighbouring code units are both whitespace. *)
Definition no_whitespace_run (r : jstring) : Prop :=
  forall i c d, r !! i = Some c -> r !! S i = Some d ->
    is_whitespace c = true -> is_whitespace d = false.

Definition whitespace_only (s : jstring) : Prop :=
  Forall (fun c => is_whitespace c = true) s.

(** The executable form of [no_whitespace_run]. *)
Fixpoint single_spaced (l : jstring) : bool :=
  match l with
  | c :: rest =>
      match rest with
      | d :: _ => negb (is_whitespace c && is_whitespace d)
      | [] => true
      end && single_spaced rest
  | [] => true
  end.

(** Every whitespace code unit is the space U+0020. *)
Definition only_spaces (l : jstring) : Prop :=
  Forall (fun c => is_whitespace c = true -> c = SPACE) l.

(** The cleaned string of the preprocessor. *)
Definition cleaned_of (s : jstring) : jstring :=
  trim (replace_whitespace_runs false s).

(** A preprocessed text: what [preprocessTextForTranslation] returns on a
    string of the request. *)
Definition preprocessed (text : jstring) : Prop :=
  exists s index,
    ProcessXlf.preprocessTextForTranslation (VStr s) index = Return text.

(** The placeholder [[TOKEN_index]]. *)
Definition placeholder (token : jstring) (index : nat) : jstring :=
  concat [js "["; token; js "_"; index_toString index; js "]"].

Definition matches_fallback_pattern (v : jstring) (index : nat) : Prop :=
  exists token, v = placeholder token index.

(** The token of a placeholder: the default one, unless the lowercased
    guidance contains a keyword; the keywords are tried in the order
    occupational or prl, technical, educational. *)
Definition guidance_token `{CaseConversion} (TARGETLANG : jstring)
  (guidance : option jstring) : jstring :=
  let lowered :=
    match guidance with Some g => toLowerCase g | None => [] end in
  if includes lowered (js "occupational") || includes lowered (js "prl")
  then js "WORKPLACE_SAFETY_" ++ TARGETLANG
  else if includes lowered (js "technical")
  then js "TECHNICAL_" ++ TARGETLANG
  else if includes lowered (js "educational")
  then js "EDUCATIONAL_" ++ TARGETLANG
  else TARGETLANG ++ js "_TRANSLATION".

(** The [translationContext] of a request: a guidance string, or absent. *)
Definition context_value (guidance : option jstring) : value :=
  match guidance with Some g => VStr g | None => VUndefined end.

(** What the fallback object holds for the text at [index]. *)
Definition expected_fallback `{CaseConversion} (targetLang : jstring)
  (guidance : option jstring) (text : jstring) (index : nat) : jstring :=
  match trim text with
  | [] => []
  | _ => placeholder (guidance_token (toUpperCase targetLang) guidance) index
  end.

(** A request that passes the validation of [processTranslation]:
    [chunkTexts] is a non-empty array and [targetLang] is present. *)
Definition valid_request (requestData : TranslationRequest) : Prop :=
  exists texts,
    chunkTexts requestData = VArr texts
    /\ texts <> []
    /\ truthy (targetLang requestData) = true.

Definition is_string (v : value) : bool :=
  match v with VStr _ => true | _ => false end.

(** A request whose fields have the types of the interface: strings in
    [chunkTexts], a string [targetLang], a string or no
    [translationContext]. *)
Definition typed_request (texts : list jstring) (targetLang : jstring)
  (guidance : option jstring) (chunkIndex totalChunks sourceLang
  sourceContent : value) : TranslationRequest := {|
  chunkTexts := VArr (List.map VStr texts);
  chunkIndex := chunkIndex;
  totalChunks := totalChunks;
  sourceLang := sourceLang;
  targetLang := VStr targetLang;
  translationContext := context_value guidance;
  sourceContent := sourceContent
|}.

(** A request with only [chunkTexts] and [targetLang]. *)
Definition plain_request (chunkTexts targetLang : value)
  : TranslationRequest := {|
  chunkTexts := chunkTexts;
  chunkIndex := VUndefined;
  totalChunks := VUndefined;
  sourceLang := VUndefined;
  targetLang := targetLang;
  translationContext := VUndefined;
  sourceContent := VUndefined
|}.

(** No reachable external model: the call throws. *)
Definition unreachable_model
  : list jstring -> value -> value -> value -> completion value :=
  fun _ _ _ _ => Throw (Error (js "Claude API key not configured")).

(** The marker [generationMethod] is computed from. *)
Definition MARKER : jstring := js "**CONTENT TYPE**".

(** No reachable external model for the context generator. *)
Definition unreachable_context_model
  : list value -> value -> value -> completion jstring :=
  fun _ _ _ => Throw (Error (js "Claude API key not configured")).

(** The context request
    [{sampleTexts: ["Click continue to proceed", "Click continue to proceed"],
      targetLang: "de"}]. *)
Definition click_samples : list value :=
  [VStr (js "Click continue to proceed");
   VStr (js "Click continue to proceed")].

Definition click_request : GenerateContext.ContextRequest := {|
  GenerateContext.sampleTexts := VArr click_samples;
  GenerateContext.userContext := VUndefined;
  GenerateContext.targetLang := VStr (js "de");
  GenerateContext.contentType := VUndefined
|}.



(** The error the validation of [processTranslation] raises, if any: the
    three checks in the order they are made. *)
Definition validation_message (requestData : TranslationRequest)
  : option jstring :=
  match chunkTexts requestData with
  | VArr texts =>
      if negb (truthy (targetLang requestData))
      then Some (js "Target language is required")
      else match texts with
           | [] => Some (js "chunkTexts array cannot be empty")
           | _ => None
           end
  | _ => Some (js "Missing or invalid chunkTexts array")
  end.

Definition nullish (v : value) : bool :=
  match v with VUndefined | VNull => true | _ => false end.

Definition not_whitespace (c : N) : bool := negb (is_whitespace c).

(** A string the preprocessor has nothing to do on. *)
Definition normalized (s : jstring) : Prop :=
  no_leading_whitespace s /\ no_trailing_whitespace s
  /\ no_whitespace_run s /\ only_spaces s.

(** The whole-word matches of the keywords of a domain in a content. *)
Definition keyword_matches (content : jstring)
  (domain : GenerateContext.Domain) : nat :=
  sum_list_with (fun keyword => match_count keyword content)
    (GenerateContext.keywords domain).

(** The error the validation of [generateTranslationContext] raises, if
    any; an absent [sampleTexts] has the default [[]]. *)
Definition context_validation_message
  (requestData : GenerateContext.ContextRequest) : option jstring :=
  match GenerateContext.sampleTexts requestData with
  | VUndefined | VArr [] => Some (js "sampleTexts array cannot be empty")
  | VArr _ => None
  | _ => Some (js "Missing or invalid sampleTexts array")
  end.

(** A context request whose [userContext] is a string or absent. *)
Definition typed_context_request (samples : list value)
  (user : option jstring) (targetLang contentType : value)
  : GenerateContext.ContextRequest := {|
  GenerateContext.sampleTexts := VArr samples;
  GenerateContext.userContext := context_value user;
  GenerateContext.targetLang := targetLang;
  GenerateContext.contentType := contentType
|}.

(** The analysis, given which of the four detections fired: interface,
    technical, educational, corporate. *)
Definition analysis_of (interface technical educational corporate : bool)
  : GenerateContext.Analysis := {|
  GenerateContext.analysis_contentType :=
    if corporate then js "Corporate Training"
    else if educational then js "E-Learning Platform"
    else js "Educational/Training Content";
  GenerateContext.recommendedTone :=
    if corporate then js "Professional"
    else if technical then js "Technical"
    else js "Professional";
  GenerateContext.targetAudience :=
    if corporate then js "Employees"
    else if technical then js "Technical Users"
    else js "Learners";
  GenerateContext.specialConsiderations :=
    (if interface then [js "UI elements"; js "interaction clarity"] else [])
    ++ (if technical then [js "technical accuracy"] else [])
    ++ (if educational then [js "learning flow"] else [])
|}.

Definition LF : jstring := [10%N].

(** The lines of the local context block, for the terminology approach of
    the selected domain and the string [targetLang] prints as. *)
Definition local_context_lines (analysis : GenerateContext.Analysis)
  (domainAnalysis : GenerateContext.DomainAnalysis) (user : option jstring)
  (approach target : jstring) : list jstring :=
  [ js "**CONTENT TYPE**: " ++ GenerateContext.analysis_contentType analysis;
    js "**DOMAIN**: " ++ GenerateContext.description domainAnalysis;
    js "**TERMINOLOGY APPROACH**: " ++ approach;
    js "**TONE**: " ++ GenerateContext.recommendedTone analysis;
    js "**AUDIENCE**: " ++ GenerateContext.targetAudience analysis;
    js "**SPECIAL CONSIDERATIONS**: "
      ++ join_strings (js ",")
           (GenerateContext.specialConsiderations analysis) ]
  ++ match user with
     | Some u =>
         match trim u with
         | [] => []
         | requirements => [js "**USER REQUIREMENTS**: " ++ requirements]
         end
     | None => []
     end
  ++ [ js "**QUALITY STANDARDS**: Maintain XML structure integrity, preserve spacing, ensure "
         ++ target ++ js " linguistic accuracy" ].

(** Reading an escaped string back as a regular expression without
    operators: a backslash before a special code unit stands for that code
    unit, any other special code unit is an operator and is refused. *)
Fixpoint literal_of_pattern (pattern : jstring) : option jstring :=
  match pattern with
  | [] => Some []
  | c :: rest =>
      if (c =? 92)%N then
        match rest with
        | d :: rest' =>
            if ProcessXlf.is_regexp_special d
            then option_map (cons d) (literal_of_pattern rest')
            else None
        | [] => None
        end
      else if ProcessXlf.is_regexp_special c then None
      else option_map (cons c) (literal_of_pattern rest)
  end.


(** A string without backquote. *)
Definition no_backquote (s : jstring) : bool :=
  forallb (fun c => negb (c =? 96)%N) s.


(** An attribute name the expression of [parseAttributes] reads whole:
    [^\w+(:\w+)?$]. *)
Definition is_attribute_name (name : jstring) : bool :=
  let n := word_run name in
  (0 <? n)
  && match skipn n name with
     | [] => true
     | c :: rest =>
         (c =? 58)%N && (0 <? length rest) && forallb is_word_char rest
     end.

(** An attribute value that needs no escaping: it holds no double quote. *)
Definition is_attribute_value (v : jstring) : bool :=
  forallb (fun c => negb (c =? 34)%N) v.

(** The attributes as a start tag writes them: each one after a space, as
    the name, the equals sign and the value between double quotes. *)
Fixpoint attributes_source (attributes : list (jstring * jstring))
  : jstring :=
  match attributes with
  | [] => []
  | (name, v) :: rest =>
      32%N :: name ++ 61%N :: 34%N :: v ++ 34%N :: attributes_source rest
  end.


(** A conversion for the requests whose strings hold no code unit above
    U+00FF: it is never consulted on them, and answers with the string it
    is given. *)
Definition unconverted : CaseConversion := {|
  lower_beyond_latin1 := fun s => s;
  upper_beyond_latin1 := fun s => s
|}.

(** A value the conversion to a string succeeds on: no object with an own
    property [toString] is reached. *)
Definition printable (v : value) : bool :=
  match ToString v with
  | Return _ => true
  | Throw _ => false
  end.

(** The [chunkInfo] of a response: what
    [`${chunkIndex + 1}/${totalChunks}`] prints, for chunk numbers that can
    be printed. *)
Definition printed_numbers (chunkIndex totalChunks : value) : jstring :=
  match ProcessXlf.chunk_numbers chunkIndex totalChunks with
  | Return numbers => numbers
  | Throw _ => []
  end.

(** ** The built-ins on concrete inputs *)

Section Properties.

Context {conversion : CaseConversion}.

Example js_reads_utf8 :
  js "ergonomía" = [101; 114; 103; 111; 110; 111; 109; 237; 97]%N.
Proof. reflexivity. Qed.

Example replace_then_trim :
  trim (replace_whitespace_runs false (js "  Hello   world  "))
  = js "Hello world".
Proof. reflexivity. Qed.

Example upper_and_lower :
  toUpperCase (js "fr") = js "FR"
  /\ toLowerCase (js "ERGONOMÍA") = js "ergonomía".
Proof. split; reflexivity. Qed.

Example index_digits : index_toString 120 = js "120".
Proof. reflexivity. Qed.

(** Whole words only, any case, and a match does not overlap the next. *)
Example whole_word_matches :
  match_count (js "process") (js "process, processes and Process") = 2
  /\ match_count (js "ergonomía") (js "ergonomías: la ergonomía") = 1
  /\ match_count (js "riesgos laborales") (js "los riesgos laborales") = 1.
Proof. repeat split; vm_compute; reflexivity. Qed.

Example alternation_test :
  test_words [js "click"; js "learn"] (js "to click.") = true
  /\ test_words [js "click"; js "learn"] (js "clicks, learning") = false.
Proof. split; vm_compute; reflexivity. Qed.

Example round_half_up :
  Math_round (Number_div (Number_of_Z 5) (Number_of_Z 2)) = Number_of_Z 3
  /\ Math_round (Number_div (Number_of_Z (-5)) (Number_of_Z 2))
     = Number_of_Z (-2)
  /\ Math_round (Number_div (Number_of_Z 125) (Number_of_Z 2))
     = Number_of_Z 63.
Proof. repeat split; vm_compute; reflexivity. Qed.

(** ** Outcomes and conversions *)

Lemma bind_throws {A B : Type} (c : completion A) (k : A -> completion B) e :
  (let* a := c in k a) = Throw e ->
  c = Throw e \/ exists a, c = Return a /\ k a = Throw e.
Proof.
  destruct c as [a|e']; simpl; intros H; [right; eauto|left; congruence].
Qed.

Lemma bind_returns {A B : Type} (c : completion A) (k : A -> completion B)
  (b : B) :
  (let* a := c in k a) = Return b ->
  exists a, c = Return a /\ k a = Return b.
Proof. destruct c as [a|e]; [eauto|discriminate]. Qed.

Lemma bind_fails {A B : Type} (c : completion A) (k : A -> completion B) :
  (forall a, c = Return a -> exists e, k a = Throw e) ->
  exists e, (let* a := c in k a) = Throw e.
Proof. destruct c as [a|e]; cbn [bind]; eauto. Qed.

Lemma string_receiver_throws v e :
  string_receiver v = Throw e -> e = TypeError.
Proof. destruct v; simpl; congruence. Qed.

Lemma sequence_throws {A : Type} (l : list (completion A)) e :
  sequence l = Throw e -> exists c, c ∈ l /\ c = Throw e.
Proof.
  induction l as [|c rest IH]; [discriminate|].
  cbn [sequence]. intros Hthrow.
  apply bind_throws in Hthrow as [Hthrow|(a & _ & Hthrow)].
  - exists c. split; [left|exact Hthrow].
  - apply bind_throws in Hthrow as [Hthrow|(others & _ & Hthrow)];
      [|discriminate].
    destruct (IH Hthrow) as (c' & Hin & Hc'). exists c'.
    split; [right; exact Hin|exact Hc'].
Qed.

(** Induction on a value and on the elements of an array. *)
Lemma value_elements_ind (P : value -> Prop) :
  P VUndefined -> P VNull -> (forall b, P (VBool b)) ->
  (forall n, P (VNum n)) -> (forall s, P (VStr s)) ->
  (forall elements, Forall P elements -> P (VArr elements)) ->
  (forall props, P (VObj props)) ->
  forall v, P v.
Proof.
  intros Hundefined Hnull Hbool Hnum Hstr Harr Hobj. fix IH 1.
  intros [| |b|n|s|elements|props];
    [exact Hundefined|exact Hnull|apply Hbool|apply Hnum|apply Hstr|
    |apply Hobj].
  apply Harr. revert elements. fix IHelements 1.
  intros [|x rest]; constructor; [apply IH|apply IHelements].
Qed.

(** A conversion to a string throws nothing but a TypeError. *)
Lemma ToString_throws v : forall e, ToString v = Throw e -> e = TypeError.
Proof.
  induction v as [| |[|]|n|s|elements IH|props] using value_elements_ind;
    intros e; cbn [ToString]; try discriminate.
  - intros Hthrow.
    apply bind_throws in Hthrow as [Hthrow|(pieces & _ & Hthrow)];
      [|discriminate].
    apply sequence_throws in Hthrow as (c & Hin & ->).
    apply list_elem_of_fmap in Hin as (x & Hx & Hin).
    rewrite Forall_forall in IH. specialize (IH x Hin).
    destruct x; try discriminate; symmetry in Hx; exact (IH _ Hx).
  - destruct (has_own_property props (js "toString")); [|discriminate].
    intros [= <-]. reflexivity.
Qed.

Lemma ToPrimitive_throws v e : ToPrimitive v = Throw e -> e = TypeError.
Proof.
  destruct v; try discriminate; cbn [ToPrimitive]; intros Hthrow;
    (apply bind_throws in Hthrow as [Hthrow|(s & _ & Hthrow)];
     [exact (ToString_throws _ _ Hthrow)|discriminate]).
Qed.

Lemma Array_join_throws sep elements e :
  Array_join sep elements = Throw e -> e = TypeError.
Proof.
  unfold Array_join. intros Hthrow.
  apply bind_throws in Hthrow as [Hthrow|(pieces & _ & Hthrow)];
    [|discriminate].
  apply sequence_throws in Hthrow as (c & Hin & ->).
  apply list_elem_of_fmap in Hin as (x & Hx & _).
  destruct x; try discriminate; symmetry in Hx;
    exact (ToString_throws _ _ Hx).
Qed.

Lemma printable_prints v :
  printable v = true -> exists s, ToString v = Return s.
Proof.
  unfold printable. destruct (ToString v) as [s|e]; [eauto|discriminate].
Qed.

Lemma printable_primitive v :
  printable v = true -> exists p, ToPrimitive v = Return p.
Proof.
  intros Hv. apply printable_prints in Hv as [s Hs].
  destruct v; cbn [ToPrimitive]; try (eexists; reflexivity);
    rewrite Hs; eexists; reflexivity.
Qed.

Lemma add_one_throws v e : add_one v = Throw e -> e = TypeError.
Proof.
  unfold add_one. intros H. apply bind_throws in H as [H|(p & _ & H)];
    [exact (ToPrimitive_throws _ _ H)|discriminate].
Qed.

Lemma printable_default dflt v :
  printable dflt = true -> printable v = true ->
  printable (default_to dflt v) = true.
Proof. destruct v; auto. Qed.

(** [join] on strings. *)
Lemma Array_join_strings sep (texts : list jstring) :
  Array_join sep (List.map VStr texts) = Return (join_strings sep texts).
Proof.
  unfold Array_join.
  assert (Hpieces :
    sequence (List.map (fun e => match e with
                                 | VUndefined | VNull => Return []
                                 | _ => ToString e
                                 end) (List.map VStr texts))
    = Return texts).
  { induction texts as [|text rest IH]; [reflexivity|].
    cbn [List.map sequence ToString bind]. rewrite IH. reflexivity. }
  rewrite Hpieces. reflexivity.
Qed.

(** ** The preprocessor *)

Lemma SPACE_is_whitespace : is_whitespace SPACE = true.
Proof. reflexivity. Qed.

Lemma replace_runs_after_run s :
  no_leading_whitespace (replace_whitespace_runs true s).
Proof.
  induction s as [|c rest IH]; intros x; simpl; [discriminate|].
  destruct (is_whitespace c) eqn:Hc; [apply IH|].
  simpl. intros [= <-]. exact Hc.
Qed.

Lemma replace_runs_only_spaces b s :
  only_spaces (replace_whitespace_runs b s).
Proof.
  revert b. induction s as [|c rest IH]; intros b; simpl.
  - constructor.
  - destruct (is_whitespace c) eqn:Hc.
    + destruct b; [apply IH|]. constructor; [reflexivity|apply IH].
    + constructor; [congruence|apply IH].
Qed.

Lemma single_spaced_cons c l :
  single_spaced l = true ->
  (is_whitespace c = true -> no_leading_whitespace l) ->
  single_spaced (c :: l) = true.
Proof.
  intros Hl Hc. simpl. rewrite Hl, andb_true_r.
  destruct l as [|d l']; [reflexivity|].
  destruct (is_whitespace c) eqn:E; [|reflexivity].
  rewrite (Hc eq_refl d eq_refl). reflexivity.
Qed.

Lemma replace_runs_single_spaced b s :
  single_spaced (replace_whitespace_runs b s) = true.
Proof.
  revert b. induction s as [|c rest IH]; intros b; simpl; [reflexivity|].
  destruct (is_whitespace c) eqn:Hc.
  - destruct b; [apply IH|].
    apply single_spaced_cons; [apply IH|].
    intros _. apply replace_runs_after_run.
  - apply single_spaced_cons; [apply IH|]. unfold SPACE. congruence.
Qed.

Lemma single_spaced_tail c l :
  single_spaced (c :: l) = true -> single_spaced l = true.
Proof. simpl. intros H. apply andb_true_iff in H. tauto. Qed.

Lemma trimStart_single_spaced l :
  single_spaced l = true -> single_spaced (trimStart l) = true.
Proof.
  induction l as [|c rest IH]; intros H; simpl; [reflexivity|].
  destruct (is_whitespace c); [|exact H].
  apply IH. eapply single_spaced_tail, H.
Qed.

Lemma trimStart_only_spaces l :
  only_spaces l -> only_spaces (trimStart l).
Proof.
  induction 1 as [|c rest Hc Hrest IH]; simpl; [constructor|].
  destruct (is_whitespace c) eqn:E; [exact IH|].
  constructor; [congruence|assumption].
Qed.

Lemma trimStart_no_leading l : no_leading_whitespace (trimStart l).
Proof.
  induction l as [|c rest IH]; intros x; simpl; [discriminate|].
  destruct (is_whitespace c) eqn:Hc; [apply IH|].
  simpl. intros [= <-]. exact Hc.
Qed.

Lemma trimEnd_head l :
  no_leading_whitespace l -> no_leading_whitespace (trimEnd l).
Proof.
  destruct l as [|c rest]; intros H x; simpl; [discriminate|].
  destruct (trimEnd rest).
  - destruct (is_whitespace c) eqn:Hc; [discriminate|].
    simpl. intros [= <-]. exact Hc.
  - simpl. intros [= <-]. apply H. reflexivity.
Qed.

Lemma trimEnd_single_spaced l :
  single_spaced l = true -> single_spaced (trimEnd l) = true.
Proof.
  induction l as [|c rest IH]; intros H; [reflexivity|].
  pose proof (IH (single_spaced_tail _ _ H)) as IH'.
  simpl. destruct (trimEnd rest) as [|k ks] eqn:E.
  - destruct (is_whitespace c); reflexivity.
  - apply single_spaced_cons; [exact IH'|].
    intros Hc x [= <-].
    destruct rest as [|d rest']; [discriminate|].
    simpl in H. rewrite Hc in H. simpl in H.
    assert (k = d) as ->.
    { simpl in E. destruct (trimEnd rest'); [destruct (is_whitespace d)|];
        congruence. }
    destruct (is_whitespace d); [discriminate|reflexivity].
Qed.

Lemma trimEnd_only_spaces l :
  only_spaces l -> only_spaces (trimEnd l).
Proof.
  induction 1 as [|c rest Hc Hrest IH]; simpl; [constructor|].
  destruct (trimEnd rest).
  - destruct (is_whitespace c) eqn:E; constructor;
      [congruence|constructor].
  - constructor; assumption.
Qed.

Lemma trimEnd_no_trailing l : no_trailing_whitespace (trimEnd l).
Proof.
  induction l as [|c rest IH]; intros x; simpl; [discriminate|].
  destruct (trimEnd rest) as [|k ks].
  - destruct (is_whitespace c) eqn:Hc; [discriminate|].
    simpl. intros [= <-]. exact Hc.
  - intros H. apply IH. exact H.
Qed.

Lemma trimStart_fixed l : no_leading_whitespace l -> trimStart l = l.
Proof.
  destruct l as [|c rest]; intros H; simpl; [reflexivity|].
  rewrite (H c eq_refl). reflexivity.
Qed.

Lemma trimEnd_fixed l : no_trailing_whitespace l -> trimEnd l = l.
Proof.
  induction l as [|c rest IH]; intros H; simpl; [reflexivity|].
  destruct rest as [|d rest'].
  - simpl. rewrite (H c eq_refl). reflexivity.
  - rewrite IH; [reflexivity|]. intros x Hx. apply H. exact Hx.
Qed.

Lemma replace_runs_fixed b l :
  single_spaced l = true -> only_spaces l ->
  (b = true -> no_leading_whitespace l) ->
  replace_whitespace_runs b l = l.
Proof.
  revert b. induction l as [|c rest IH]; intros b Hs Ho Hb; [reflexivity|].
  simpl. inversion Ho as [|? ? Hc Hrest]; subst.
  pose proof (single_spaced_tail _ _ Hs) as Hs'.
  destruct (is_whitespace c) eqn:E.
  - destruct b.
    + rewrite (Hb eq_refl c eq_refl) in E. discriminate.
    + rewrite (Hc eq_refl). f_equal. apply IH; [exact Hs'|exact Hrest|].
      intros _ d Hd. destruct rest as [|d' rest']; [discriminate|].
      simpl in Hd. injection Hd as ->.
      simpl in Hs. rewrite E in Hs. simpl in Hs.
      destruct (is_whitespace d); [discriminate|reflexivity].
  - f_equal. apply IH; [exact Hs'|exact Hrest|discriminate].
Qed.

Lemma single_spaced_no_run l :
  single_spaced l = true -> no_whitespace_run l.
Proof.
  induction l as [|c rest IH]; intros H i x y Hx Hy Hws.
  - discriminate.
  - destruct i as [|i].
    + simpl in Hx. injection Hx as ->.
      destruct rest as [|d rest']; [discriminate|].
      simpl in Hy. injection Hy as ->.
      simpl in H. rewrite Hws in H. simpl in H.
      destruct (is_whitespace y); [discriminate|reflexivity].
    + apply (IH (single_spaced_tail _ _ H) i x y); assumption.
Qed.

Lemma replace_runs_whitespace_only b s :
  whitespace_only s -> trimStart (replace_whitespace_runs b s) = [].
Proof.
  intros H. revert b. induction H as [|c rest Hc Hrest IH]; intros b.
  - reflexivity.
  - simpl. rewrite Hc. destruct b; [apply IH|].
    simpl. apply IH.
Qed.

Lemma preprocess_string s index :
  preprocessTextForTranslation (VStr s) index = Return (cleaned_of s).
Proof.
  unfold preprocessTextForTranslation, cleaned_of. simpl.
  destruct (trim (replace_whitespace_runs false s)) as [|c l]; simpl.
  - reflexivity.
  - destruct (S (length l) <? 3); reflexivity.
Qed.

Lemma cleaned_single_spaced s : single_spaced (cleaned_of s) = true.
Proof.
  apply trimEnd_single_spaced, trimStart_single_spaced,
    replace_runs_single_spaced.
Qed.

Lemma cleaned_only_spaces s : only_spaces (cleaned_of s).
Proof.
  apply trimEnd_only_spaces, trimStart_only_spaces, replace_runs_only_spaces.
Qed.

Lemma cleaned_no_leading s : no_leading_whitespace (cleaned_of s).
Proof. apply trimEnd_head, trimStart_no_leading. Qed.

Lemma cleaned_no_trailing s : no_trailing_whitespace (cleaned_of s).
Proof. apply trimEnd_no_trailing. Qed.

Lemma trim_cleaned s : trim (cleaned_of s) = cleaned_of s.
Proof.
  unfold trim at 1.
  rewrite (trimStart_fixed _ (cleaned_no_leading s)).
  apply trimEnd_fixed, cleaned_no_trailing.
Qed.

Lemma cleaned_fixed s : cleaned_of (cleaned_of s) = cleaned_of s.
Proof.
  unfold cleaned_of at 1.
  rewrite replace_runs_fixed.
  - apply trim_cleaned.
  - apply cleaned_single_spaced.
  - apply cleaned_only_spaces.
  - discriminate.
Qed.

(** C7. For every input string the preprocessor returns, and the string it
    returns has no leading whitespace, no trailing whitespace and no two
    consecutive whitespace code units; for an empty or whitespace-only input
    it returns the empty string. *)
Theorem preprocess_normalized (s : jstring) (index : nat) :
  exists r,
    preprocessTextForTranslation (VStr s) index = Return r
    /\ no_leading_whitespace r
    /\ no_trailing_whitespace r
    /\ no_whitespace_run r
    /\ (whitespace_only s -> r = []).
Proof.
  exists (cleaned_of s). split; [apply preprocess_string|].
  split; [apply cleaned_no_leading|].
  split; [apply cleaned_no_trailing|].
  split; [apply single_spaced_no_run, cleaned_single_spaced|].
  intros H. unfold cleaned_of, trim.
  rewrite (replace_runs_whitespace_only false s H). reflexivity.
Qed.

(** C8. The preprocessor is idempotent: applied to a string it returned, it
    returns that same string. *)
Theorem preprocess_idempotent (s : jstring) (i j : nat) :
  exists r,
    preprocessTextForTranslation (VStr s) i = Return r
    /\ preprocessTextForTranslation (VStr r) j = Return r.
Proof.
  exists (cleaned_of s). split; [apply preprocess_string|].
  rewrite preprocess_string, cleaned_fixed. reflexivity.
Qed.

(** ** The fallback synthesizer *)

Section Fallbacks.

Variable tl : jstring.
Variable guidance : option jstring.

Lemma uint_units_inj d d' : uint_units d = uint_units d' -> d = d'.
Proof.
  revert d'. induction d; destruct d'; simpl; intros H;
    try discriminate; try reflexivity;
    injection H as H; f_equal; apply IHd; exact H.
Qed.

#[local] Instance index_toString_inj : Inj (=) (=) index_toString.
Proof.
  intros n n' H. apply DecimalNat.Unsigned.to_uint_inj, uint_units_inj, H.
Qed.

Lemma includes_empty sub : sub <> [] -> includes [] sub = false.
Proof. destruct sub; [congruence|reflexivity]. Qed.

Lemma default_placeholder TL index :
  concat [js "["; TL; js "_TRANSLATION_"; index_toString index; js "]"]
  = placeholder (TL ++ js "_TRANSLATION") index.
Proof.
  unfold placeholder, concat. simpl.
  change (js "_TRANSLATION_") with (js "_TRANSLATION" ++ js "_").
  rewrite <- !app_assoc. reflexivity.
Qed.

Lemma specific_placeholder prefix TL index :
  concat [js "[" ++ prefix; TL; js "_"; index_toString index; js "]"]
  = placeholder (prefix ++ TL) index.
Proof.
  unfold placeholder, concat. simpl. rewrite <- !app_assoc. reflexivity.
Qed.

Lemma fallback_for_string text index fallbacks :
  fallback_for (VStr tl) (context_value guidance) (VStr text) index fallbacks
  = Return (<[index_toString index :=
               expected_fallback tl guidance text index]> fallbacks).
Proof.
  unfold fallback_for, expected_fallback.
  destruct text as [|c text']; [reflexivity|].
  cbn [truthy negb string_receiver bind].
  destruct (trim (c :: text')) as [|k ks]; [reflexivity|].
  cbn [length Nat.eqb bind].
  rewrite default_placeholder. unfold guidance_token.
  destruct guidance as [g|]; [|reflexivity].
  destruct g as [|gc g']; [reflexivity|].
  cbn [context_value truthy string_receiver bind].
  change (js "[WORKPLACE_SAFETY_") with (js "[" ++ js "WORKPLACE_SAFETY_").
  change (js "[TECHNICAL_") with (js "[" ++ js "TECHNICAL_").
  change (js "[EDUCATIONAL_") with (js "[" ++ js "EDUCATIONAL_").
  rewrite !specific_placeholder.
  destruct (includes (toLowerCase (gc :: g')) (js "occupational")
            || includes (toLowerCase (gc :: g')) (js "prl"));
    [reflexivity|].
  destruct (includes (toLowerCase (gc :: g')) (js "technical"));
    [reflexivity|].
  destruct (includes (toLowerCase (gc :: g')) (js "educational"));
    reflexivity.
Qed.

(** The [forEach] of the synthesizer on strings: it returns, it holds the
    expected entry for each text, and it leaves the other keys alone. *)
Lemma forEach_fallbacks texts :
  forall (start : nat) (fallbacks : gmap jstring jstring),
  exists m,
    forEach_from (fallback_for (VStr tl) (context_value guidance)) start
      (List.map VStr texts) fallbacks = Return m
    /\ (forall i text, texts !! i = Some text ->
          m !! index_toString (start + i)
          = Some (expected_fallback tl guidance text (start + i)))
    /\ (forall key,
          (forall i, i < length texts -> key <> index_toString (start + i)) ->
          m !! key = fallbacks !! key).
Proof.
  induction texts as [|text rest IH]; intros start fallbacks.
  - exists fallbacks. split; [reflexivity|]. split; [|reflexivity].
    intros i t H. discriminate.
  - cbn [List.map forEach_from]. rewrite fallback_for_string.
    cbn [bind].
    destruct (IH (S start)
                (<[index_toString start :=
                    expected_fallback tl guidance text start]> fallbacks))
      as (m & Hrun & Hin & Hout).
    exists m. split; [exact Hrun|]. split.
    + intros [|i] t Ht.
      * simpl in Ht. injection Ht as <-.
        rewrite Nat.add_0_r, Hout.
        -- apply lookup_insert_eq.
        -- intros i _ Heq. apply (inj index_toString) in Heq. lia.
      * simpl in Ht. replace (start + S i) with (S start + i) by lia.
        apply Hin. exact Ht.
    + intros key Hkey. rewrite Hout.
      * apply lookup_insert_ne. intros Heq. apply (Hkey 0); [simpl; lia|].
        rewrite Nat.add_0_r. congruence.
      * intros i Hi. replace (S start + i) with (start + S i) by lia.
        apply Hkey. simpl. lia.
Qed.

Lemma fallbacks_total texts :
  exists m,
    generateContextualFallbacks (List.map VStr texts) (VStr tl)
      (context_value guidance) = Return m
    /\ (forall i text, texts !! i = Some text ->
          m !! index_toString i
          = Some (expected_fallback tl guidance text i))
    /\ dom m = list_to_set (index_toString <$> seq 0 (length texts))
    /\ size m = length texts.
Proof.
  destruct (forEach_fallbacks texts 0 ∅) as (m & Hrun & Hin & Hout).
  assert (Hdom : dom m
                 = list_to_set (index_toString <$> seq 0 (length texts))).
  { apply set_eq. intros key.
    rewrite elem_of_dom, elem_of_list_to_set.
    split.
    - intros Hsome.
      destruct (decide (key ∈ index_toString <$> seq 0 (length texts)))
        as [Hyes|Hno]; [exact Hyes|].
      rewrite Hout in Hsome.
      + rewrite lookup_empty in Hsome. destruct Hsome; discriminate.
      + intros i Hi Heq. apply Hno. apply list_elem_of_fmap.
        exists i. split; [exact Heq|]. apply elem_of_seq. lia.
    - intros Hkey. apply list_elem_of_fmap in Hkey as (i & -> & Hi).
      apply elem_of_seq in Hi.
      destruct (lookup_lt_is_Some_2 texts i) as [t Ht]; [lia|].
      specialize (Hin i t Ht). simpl in Hin. rewrite Hin. eauto. }
  exists m. split; [exact Hrun|]. split; [exact Hin|]. split; [exact Hdom|].
  rewrite <- size_dom, Hdom, size_list_to_set.
  - rewrite length_fmap, length_seq. reflexivity.
  - apply NoDup_fmap_2; [apply _|apply NoDup_seq].
Qed.

End Fallbacks.

(** ** The translation orchestrator *)

Section Orchestration.

Variable translateWithClaude :
  list jstring -> value -> value -> value -> completion value.

Lemma preprocess_strings texts :
  forall start,
    map_from preprocessTextForTranslation start (List.map VStr texts)
    = Return (List.map cleaned_of texts).
Proof.
  induction texts as [|text rest IH]; intros start; [reflexivity|].
  cbn [List.map map_from]. rewrite preprocess_string. cbn [bind].
  rewrite IH. reflexivity.
Qed.

Lemma preprocess_non_string text index :
  is_string text = false ->
  preprocessTextForTranslation text index = Throw TypeError.
Proof. destruct text; intros H; try discriminate; reflexivity. Qed.

Lemma preprocess_outcome text index :
  preprocessTextForTranslation text index = Throw TypeError
  \/ exists s, text = VStr s
       /\ preprocessTextForTranslation text index = Return (cleaned_of s).
Proof.
  destruct text; try (left; reflexivity).
  right. eexists. split; [reflexivity|apply preprocess_string].
Qed.

Lemma preprocess_some_non_string texts :
  forall start,
    forallb is_string texts = false ->
    map_from preprocessTextForTranslation start texts = Throw TypeError.
Proof.
  induction texts as [|text rest IH]; intros start H; [discriminate|].
  cbn [map_from].
  destruct (preprocess_outcome text start) as [->|(s & -> & ->)];
    [reflexivity|].
  cbn [bind]. simpl in H. rewrite IH; [reflexivity|exact H].
Qed.

Lemma typed_request_valid texts tl guidance ci tc sl sc :
  texts <> [] -> tl <> [] ->
  valid_request (typed_request texts tl guidance ci tc sl sc).
Proof.
  intros Htexts Htl. exists (List.map VStr texts).
  split; [reflexivity|]. split.
  - destruct texts; [congruence|discriminate].
  - destruct tl; [congruence|reflexivity].
Qed.

(** The log lines before the [try] block print the chunk numbers and the
    length of the guidance. *)
Lemma chunk_numbers_print ci tc :
  printable ci = true -> printable tc = true ->
  chunk_numbers (default_to (VNum 0) ci) (default_to (VNum 1) tc)
  = Return (printed_numbers (default_to (VNum 0) ci)
              (default_to (VNum 1) tc)).
Proof.
  intros Hci Htc. unfold printed_numbers, chunk_numbers, add_one.
  destruct (printable_primitive (default_to (VNum 0) ci)) as [index ->];
    [apply printable_default; [reflexivity|exact Hci]|].
  destruct (printable_prints (default_to (VNum 1) tc)) as [total ->];
    [apply printable_default; [reflexivity|exact Htc]|].
  reflexivity.
Qed.

Lemma chunk_numbers_throws ci tc e :
  chunk_numbers ci tc = Throw e -> e = TypeError.
Proof.
  unfold chunk_numbers. intros H.
  apply bind_throws in H as [H|(index & _ & H)];
    [exact (add_one_throws _ _ H)|].
  apply bind_throws in H as [H|(total & _ & H)];
    [exact (ToString_throws _ _ H)|discriminate].
Qed.

Lemma log_lines_print ci tc guidance :
  printable ci = true -> printable tc = true ->
  exists shown,
    (let* numbers := chunk_numbers (default_to (VNum 0) ci)
                       (default_to (VNum 1) tc) in
     if truthy (context_value guidance)
     then ToString (length_of (context_value guidance))
     else Return (js "none")) = Return shown.
Proof.
  intros Hci Htc. rewrite (chunk_numbers_print ci tc Hci Htc).
  cbn [bind]. destruct guidance as [[|c g]|]; eexists; reflexivity.
Qed.

(** The request goes through validation and preprocessing and reaches the
    [try] block. *)
Lemma typed_request_runs texts tl guidance ci tc sl sc :
  texts <> [] -> tl <> [] ->
  printable ci = true -> printable tc = true ->
  processTranslation translateWithClaude
    (typed_request texts tl guidance ci tc sl sc)
  = let processedTexts := List.map cleaned_of texts in
    let* translations :=
      try_catch
        (let* reply := translateWithClaude processedTexts
                         (default_to (VStr (js "en")) sl) (VStr tl)
                         (context_value guidance) in
         let* logged := Object_keys_length reply in
         Return (Parsed reply))
        (fun error =>
           let* fallbacks := generateContextualFallbacks
                               (List.map VStr processedTexts) (VStr tl)
                               (context_value guidance) in
           Return (Fallbacks fallbacks)) in
    let* count := match translations with
                  | Parsed reply => Object_keys_length reply
                  | Fallbacks fallbacks => Return (size fallbacks)
                  end in
    Return {|
      success := true;
      response_chunkIndex := default_to (VNum 0) ci;
      translations := translations;
      stats := {|
        textsProcessed := length processedTexts;
        realTranslations := count;
        chunkComplete := true;
        contextualTranslation := truthy (context_value guidance)
      |};
      metadata := {|
        metadata_sourceLang := default_to (VStr (js "en")) sl;
        metadata_targetLang := VStr tl;
        chunkInfo := printed_numbers (default_to (VNum 0) ci)
                       (default_to (VNum 1) tc)
      |}
    |}.
Proof.
  intros Htexts Htl Hci Htc. unfold processTranslation, typed_request.
  cbn [chunkTexts chunkIndex totalChunks sourceLang targetLang
       translationContext truthy Array_isArray negb orb].
  destruct tl as [|c tl']; [congruence|].
  destruct texts as [|t texts']; [congruence|].
  cbn [List.map length Nat.eqb].
  destruct (log_lines_print ci tc guidance Hci Htc) as [shown ->].
  cbn [bind].
  change (VStr t :: List.map VStr texts') with (List.map VStr (t :: texts')).
  rewrite preprocess_strings, (chunk_numbers_print ci tc Hci Htc).
  cbn [bind].
  destruct (try_catch _ _) as [translations|e]; [|reflexivity].
  cbn [bind]. destruct translations as [reply|fallbacks]; cbn [bind].
  - destruct (Object_keys_length reply); reflexivity.
  - reflexivity.
Qed.

(** A request that is not valid is rejected with one of the three
    validation errors. *)
Lemma validation_rejects requestData :
  ~ valid_request requestData ->
  exists message,
    processTranslation translateWithClaude requestData
    = Throw (Error message).
Proof.
  intros Hinvalid. unfold processTranslation.
  destruct (chunkTexts requestData) as [| | | | |texts|] eqn:Hchunks;
    cbn [truthy Array_isArray negb orb]; rewrite ?orb_true_r;
    try (eexists; reflexivity).
  destruct (truthy (targetLang requestData)) eqn:Htarget;
    cbn [negb]; [|eexists; reflexivity].
  destruct texts as [|t texts']; [eexists; reflexivity|].
  exfalso. apply Hinvalid. exists (t :: texts'). auto.
Qed.



Lemma preprocess_throws texts :
  forall start e,
    map_from preprocessTextForTranslation start texts = Throw e ->
    e = TypeError.
Proof.
  induction texts as [|text rest IH]; intros start e; [discriminate|].
  cbn [map_from].
  destruct (preprocess_outcome text start) as [->|(s & -> & ->)];
    cbn [bind]; [congruence|].
  destruct (map_from _ _ rest) eqn:Hrest; cbn [bind]; [discriminate|].
  intros [= <-]. exact (IH _ _ Hrest).
Qed.

Lemma fallback_for_throws targetLang translationContext text index m e :
  fallback_for targetLang translationContext text index m = Throw e ->
  e = TypeError.
Proof.
  unfold fallback_for. intros H.
  apply bind_throws in H as [H|(blank & _ & H)].
  { destruct (negb (truthy text)); [discriminate|].
    apply bind_throws in H as [H|(? & _ & H)]; [|discriminate].
    exact (string_receiver_throws _ _ H). }
  destruct blank; [discriminate|].
  apply bind_throws in H as [H|(lang & _ & H)];
    [exact (string_receiver_throws _ _ H)|].
  apply bind_throws in H as [H|(? & _ & H)]; [|discriminate].
  destruct (truthy translationContext); [|discriminate].
  apply bind_throws in H as [H|(context & _ & H)];
    [exact (string_receiver_throws _ _ H)|].
  repeat match type of H with
         | (if ?b then _ else _) = _ => destruct b
         end; discriminate.
Qed.

Lemma fallbacks_throw targetLang translationContext texts :
  forall start m e,
    forEach_from (fallback_for targetLang translationContext) start texts m
    = Throw e ->
    e = TypeError.
Proof.
  induction texts as [|text rest IH]; intros start m e; [discriminate|].
  cbn [forEach_from]. intros H.
  apply bind_throws in H as [H|(m' & _ & H)].
  - exact (fallback_for_throws _ _ _ _ _ _ H).
  - exact (IH _ _ _ H).
Qed.

Lemma Object_keys_length_throws v e :
  Object_keys_length v = Throw e -> e = TypeError.
Proof. destruct v; simpl; congruence. Qed.

Lemma log_lines_throw ci tc context e :
  (let* numbers := chunk_numbers ci tc in
   if truthy context then ToString (length_of context)
   else Return (js "none")) = Throw e ->
  e = TypeError.
Proof.
  intros H. apply bind_throws in H as [H|(numbers & _ & H)];
    [exact (chunk_numbers_throws _ _ _ H)|].
  destruct (truthy context); [exact (ToString_throws _ _ H)|discriminate].
Qed.

(** Past validation the only error that leaves [processTranslation] is a
    TypeError: what the external call throws is caught. *)
Lemma valid_request_throws requestData e :
  valid_request requestData ->
  processTranslation translateWithClaude requestData = Throw e ->
  e = TypeError.
Proof.
  intros (texts & Hchunks & Hne & Htarget). unfold processTranslation.
  rewrite Hchunks, Htarget. cbn [truthy Array_isArray negb orb].
  destruct texts as [|t texts']; [congruence|]. cbn [length Nat.eqb].
  intros H. apply bind_throws in H as [H|(shown & _ & H)];
    [exact (log_lines_throw _ _ _ _ H)|].
  apply bind_throws in H as [H|(processed & _ & H)];
    [exact (preprocess_throws _ _ _ H)|].
  apply bind_throws in H as [H|(translations & Htry & H)].
  - destruct (translateWithClaude _ _ _ _) as [reply|e'];
      cbn [bind try_catch] in H.
    + destruct (Object_keys_length reply); cbn [bind try_catch] in H;
        [discriminate|].
      apply bind_throws in H as [H|(? & _ & H)]; [|discriminate].
      exact (fallbacks_throw _ _ _ _ _ _ H).
    + apply bind_throws in H as [H|(? & _ & H)]; [|discriminate].
      exact (fallbacks_throw _ _ _ _ _ _ H).
  - apply bind_throws in H as [H|(count & _ & H)].
    + destruct translations; [|discriminate].
      exact (Object_keys_length_throws _ _ H).
    + apply bind_throws in H as [H|(? & _ & H)]; [|discriminate].
      exact (chunk_numbers_throws _ _ _ H).
Qed.

(** Every response [processTranslation] returns is a success. *)
Lemma returned_response_succeeds requestData r :
  processTranslation translateWithClaude requestData = Return r ->
  success r = true.
Proof.
  unfold processTranslation.
  destruct (negb (truthy (chunkTexts requestData))
            || negb (Array_isArray (chunkTexts requestData)));
    [discriminate|].
  destruct (negb (truthy (targetLang requestData))); [discriminate|].
  destruct (chunkTexts requestData) as [| | | | |texts|]; try discriminate.
  destruct (length texts =? 0); [discriminate|].
  match goal with
  | |- (let* shown := ?c in _) = _ -> _ => destruct c as [shown|]
  end; cbn [bind]; [|discriminate].
  destruct (map_from preprocessTextForTranslation 0 texts) as [processed|];
    cbn [bind]; [|discriminate].
  destruct (try_catch _ _) as [translations|]; cbn [bind]; [|discriminate].
  destruct (match translations with
            | Parsed reply => Object_keys_length reply
            | Fallbacks fallbacks => Return (size fallbacks)
            end); cbn [bind]; [|discriminate].
  destruct (chunk_numbers _ _) as [info|]; cbn [bind]; [|discriminate].
  intros [= <-]. reflexivity.
Qed.

End Orchestration.

Lemma placeholder_not_empty token index : placeholder token index <> [].
Proof. unfold placeholder, concat. simpl. discriminate. Qed.

Lemma expected_fallback_cleaned tl guidance text index :
  cleaned_of text = []
  /\ expected_fallback tl guidance (cleaned_of text) index = []
  \/ cleaned_of text <> []
  /\ expected_fallback tl guidance (cleaned_of text) index
     = placeholder (guidance_token (toUpperCase tl) guidance) index.
Proof.
  unfold expected_fallback. rewrite trim_cleaned.
  destruct (cleaned_of text); [left|right]; split; congruence.
Qed.

(** C1, as amended. A request with a non-empty array of strings, a string
    target language, a string or no guidance and chunk numbers that can be
    printed, for which the call of the external model throws:
    [processTranslation] returns the fallback object;
    it has exactly [chunkTexts.length] entries, its keys are the decimal
    indices 0 to n-1, and the value at an index is the empty string when the
    preprocessed text is empty and a placeholder [[TOKEN_index]]
    otherwise. *)
Theorem fallback_translations_shape
  (translateWithClaude :
     list jstring -> value -> value -> value -> completion value)
  (texts : list jstring) (tl : jstring) (guidance : option jstring)
  (ci tc sl sc : value) (e : exception) :
  texts <> [] -> tl <> [] ->
  printable ci = true -> printable tc = true ->
  translateWithClaude (List.map cleaned_of texts)
    (default_to (VStr (js "en")) sl) (VStr tl) (context_value guidance)
  = Throw e ->
  exists r m,
    processTranslation translateWithClaude
      (typed_request texts tl guidance ci tc sl sc) = Return r
    /\ translations r = Fallbacks m
    /\ size m = length texts
    /\ dom m = list_to_set (index_toString <$> seq 0 (length texts))
    /\ (forall i text, texts !! i = Some text ->
          exists v, m !! index_toString i = Some v
            /\ (cleaned_of text = [] /\ v = []
                \/ cleaned_of text <> [] /\ matches_fallback_pattern v i)).
Proof.
  intros Htexts Htl Hci Htc Hfail.
  rewrite (typed_request_runs _ _ _ _ _ _ _ _ Htexts Htl Hci Htc).
  cbv zeta. rewrite Hfail. cbn [bind try_catch].
  destruct (fallbacks_total tl guidance (List.map cleaned_of texts))
    as (m & -> & Hin & Hdom & Hsize).
  cbn [bind]. rewrite length_map in Hdom, Hsize.
  eexists _, m. split; [reflexivity|]. split; [reflexivity|].
  split; [exact Hsize|]. split; [exact Hdom|].
  intros i text Hi. eexists. split.
  - apply Hin. rewrite list_lookup_fmap, Hi. reflexivity.
  - destruct (expected_fallback_cleaned tl guidance text i)
      as [[H0 ->]|[H0 ->]]; [left; split; [exact H0|reflexivity]|].
    right. split; [exact H0|]. eexists. reflexivity.
Qed.


(** C2, as amended. A request with a non-empty array of strings, a string
    target language, a string or no guidance and chunk numbers that can be
    printed: whatever the call of the external model does,
    [processTranslation] returns a response whose [success] is [true]. *)
Theorem typed_request_succeeds
  (translateWithClaude :
     list jstring -> value -> value -> value -> completion value)
  (texts : list jstring) (tl : jstring) (guidance : option jstring)
  (ci tc sl sc : value) :
  texts <> [] -> tl <> [] ->
  printable ci = true -> printable tc = true ->
  valid_request (typed_request texts tl guidance ci tc sl sc)
  /\ exists r,
       processTranslation translateWithClaude
         (typed_request texts tl guidance ci tc sl sc) = Return r
       /\ success r = true.
Proof.
  intros Htexts Htl Hci Htc.
  split; [apply typed_request_valid; assumption|].
  rewrite (typed_request_runs _ _ _ _ _ _ _ _ Htexts Htl Hci Htc). cbv zeta.
  destruct (fallbacks_total tl guidance (List.map cleaned_of texts))
    as (m & Hm & _).
  destruct (translateWithClaude _ _ _ _) as [reply|e]; cbn [bind try_catch].
  - destruct (Object_keys_length reply) as [n|e'] eqn:Hkeys;
      cbn [bind try_catch].
    + rewrite Hkeys. cbn [bind]. eexists. split; reflexivity.
    + rewrite Hm. cbn [bind]. eexists. split; reflexivity.
  - rewrite Hm. cbn [bind]. eexists. split; reflexivity.
Qed.


(** C10. A request whose [chunkTexts] is an array with an element that is
    not a string and whose [targetLang] is present passes validation; the
    preprocessing step throws a TypeError, and [processTranslation] throws
    it whatever the call of the external model would do: the fallback does
    not run. *)
Theorem non_string_chunk_escapes
  (requestData : TranslationRequest) (texts : list value) :
  chunkTexts requestData = VArr texts ->
  truthy (targetLang requestData) = true ->
  forallb is_string texts = false ->
  valid_request requestData
  /\ map_from preprocessTextForTranslation 0 texts = Throw TypeError
  /\ forall translateWithClaude,
       processTranslation translateWithClaude requestData = Throw TypeError.
Proof.
  intros Hchunks Htarget Htexts.
  assert (Hne : texts <> []) by (intros ->; discriminate).
  split; [exists texts; auto|].
  split; [apply preprocess_some_non_string, Htexts|].
  intros translateWithClaude. unfold processTranslation.
  rewrite Hchunks, Htarget. cbn [truthy Array_isArray negb orb].
  destruct texts as [|t texts']; [congruence|].
  cbn [length Nat.eqb].
  match goal with
  | |- (let* shown := ?c in _) = _ => destruct c as [shown|e] eqn:Hlog
  end; cbn [bind].
  - rewrite (preprocess_some_non_string _ 0 Htexts). reflexivity.
  - apply log_lines_throw in Hlog as ->. reflexivity.
Qed.


Lemma trimStart_blank l :
  trimStart l = [] <-> forallb is_whitespace l = true.
Proof.
  induction l as [|c rest IH]; simpl; [tauto|].
  destruct (is_whitespace c); simpl; [exact IH|].
  split; discriminate.
Qed.

Lemma trimEnd_blank l :
  no_leading_whitespace l -> trimEnd l = [] -> l = [].
Proof.
  destruct l as [|c rest]; intros Hhead H; [reflexivity|].
  simpl in H. destruct (trimEnd rest); [|discriminate].
  rewrite (Hhead c eq_refl) in H. discriminate.
Qed.

Lemma trim_blank l : trim l = [] <-> forallb is_whitespace l = true.
Proof.
  rewrite <- trimStart_blank. unfold trim. split.
  - apply trimEnd_blank, trimStart_no_leading.
  - intros ->. reflexivity.
Qed.

Lemma preprocessed_cleaned text : preprocessed text -> cleaned_of text = text.
Proof.
  intros (s & index & Hs). rewrite preprocess_string in Hs.
  injection Hs as <-. apply cleaned_fixed.
Qed.

(** C5. On preprocessed texts, with a string target language and a string
    or no guidance, [generateContextualFallbacks] returns an object with
    one entry per text that maps the index of every empty text to the empty
    string and the index [i] of every other text to [[TOKEN_i]], the token
    chosen by the lowercased guidance in the order occupational or prl,
    technical, educational, and the default [TARGETLANG_TRANSLATION]
    otherwise; and the request
    [{chunkTexts: ['Hello world', ''], targetLang: 'fr'}] with no reachable
    model yields [{'0': '[FR_TRANSLATION_0]', '1': ''}]. *)
Theorem fallbacks_by_guidance
  (texts : list jstring) (tl : jstring) (guidance : option jstring) :
  Forall preprocessed texts ->
  (exists m,
     generateContextualFallbacks (List.map VStr texts) (VStr tl)
       (context_value guidance) = Return m
     /\ size m = length texts
     /\ forall i text, texts !! i = Some text ->
          m !! index_toString i
          = Some (match text with
                  | [] => []
                  | _ => placeholder
                           (guidance_token (toUpperCase tl) guidance) i
                  end))
  /\ exists r,
       processTranslation unreachable_model
         (plain_request (VArr [VStr (js "Hello world"); VStr []])
            (VStr (js "fr"))) = Return r
       /\ translations r
          = Fallbacks (<[js "0" := js "[FR_TRANSLATION_0]"]>
                         (<[js "1" := []]> ∅)).
Proof.
  intros Htexts. split.
  - destruct (fallbacks_total tl guidance texts) as (m & Hm & Hin & _ & Hsize).
    exists m. split; [exact Hm|]. split; [exact Hsize|].
    intros i text Hi. rewrite (Hin i text Hi). f_equal.
    assert (Hclean : cleaned_of text = text).
    { apply preprocessed_cleaned.
      rewrite Forall_forall in Htexts. apply Htexts.
      eapply list_elem_of_lookup_2, Hi. }
    unfold expected_fallback. rewrite <- Hclean at 1. rewrite trim_cleaned, Hclean.
    reflexivity.
  - eexists. split; [vm_compute; reflexivity|].
    vm_compute. reflexivity.
Qed.


(** ** The context generator *)

Import GenerateContext.

Lemma startsWith_app p l : startsWith (p ++ l) p = true.
Proof.
  induction p as [|c p IH]; [destruct l; reflexivity|].
  simpl. rewrite N.eqb_refl. exact IH.
Qed.

Lemma includes_startsWith s sub :
  startsWith s sub = true -> includes s sub = true.
Proof. destruct s; simpl; intros ->; reflexivity. Qed.

Lemma includes_prefix p l : includes (p ++ l) p = true.
Proof. apply includes_startsWith, startsWith_app. Qed.

Lemma trimEnd_keeps_prefix p l :
  p <> [] -> no_trailing_whitespace p ->
  exists l', trimEnd (p ++ l) = p ++ l'.
Proof.
  induction p as [|c p IH]; intros Hne Hlast; [congruence|].
  destruct p as [|d p'].
  - simpl. destruct (trimEnd l) as [|k ks].
    + rewrite (Hlast c eq_refl). exists []. reflexivity.
    + exists (k :: ks). reflexivity.
  - destruct IH as [l' Hl']; [discriminate|exact Hlast|].
    change (trimEnd ((c :: d :: p') ++ l))
      with (match trimEnd ((d :: p') ++ l) with
            | [] => if is_whitespace c then [] else [c]
            | kept => c :: kept
            end).
    rewrite Hl'. exists l'. reflexivity.
Qed.

Lemma trim_keeps_marker l : includes (trim (MARKER ++ l)) MARKER = true.
Proof.
  unfold trim.
  replace (trimStart (MARKER ++ l)) with (MARKER ++ l) by reflexivity.
  destruct (trimEnd_keeps_prefix MARKER l) as [l' ->].
  - discriminate.
  - intros c H. vm_compute in H. injection H as <-. reflexivity.
  - apply includes_prefix.
Qed.

Lemma detectContentDomain_returns samples joined :
  Array_join (js " ") samples = Return joined ->
  exists r, detectContentDomain samples = Return r.
Proof.
  intros Hjoined. unfold detectContentDomain. rewrite Hjoined.
  eexists. reflexivity.
Qed.

Lemma analyzeContentPatterns_returns samples joined :
  Array_join (js " ") samples = Return joined ->
  exists analysis, analyzeContentPatterns samples = Return analysis.
Proof.
  intros Hjoined. unfold analyzeContentPatterns. rewrite Hjoined.
  eexists. reflexivity.
Qed.

Lemma local_context_marker samples userContext targetLang c :
  generateEnhancedLocalContext samples userContext targetLang = Return c ->
  includes c MARKER = true.
Proof.
  unfold generateEnhancedLocalContext. intros H.
  apply bind_returns in H as (shown & _ & H).
  apply bind_returns in H as (analysis & _ & H).
  apply bind_returns in H as (domainAnalysis & _ & H).
  apply bind_returns in H as (approach & _ & H).
  apply bind_returns in H as (contextualPrompt & Hprompt & H).
  apply bind_returns in H as (target & _ & H).
  injection H as <-.
  assert (Hhead : exists rest, contextualPrompt = MARKER ++ rest).
  { revert Hprompt. unfold concat at 1. cbn [List.concat].
    change (js "**CONTENT TYPE**: ") with (MARKER ++ js ": ").
    set (U := string_receiver userContext).
    destruct (truthy userContext); [destruct U as [u|e]|]; cbn [bind];
      [destruct (0 <? length (trim u))| |];
      cbn [bind]; intros Hp; try discriminate; injection Hp as <-;
      rewrite <- !app_assoc; eexists; reflexivity. }
  destruct Hhead as [rest ->]. rewrite <- app_assoc.
  apply trim_keeps_marker.
Qed.

Lemma local_context_returns samples joined userContext targetLang :
  Array_join (js " ") samples = Return joined ->
  printable targetLang = true ->
  (truthy userContext = true -> is_string userContext = true) ->
  exists c,
    generateEnhancedLocalContext samples userContext targetLang = Return c.
Proof.
  intros Hjoined Htarget Htyped. unfold generateEnhancedLocalContext.
  destruct (printable_prints _ Htarget) as [target Hprint].
  rewrite Hprint. cbn [bind].
  destruct (analyzeContentPatterns_returns samples joined Hjoined)
    as [analysis ->].
  destruct (detectContentDomain_returns samples joined Hjoined) as [d ->].
  cbn [bind]. unfold getTerminologyApproach. rewrite Hprint. cbn [bind].
  destruct (property (approaches target) (primary d)); cbn [bind].
  all: destruct (truthy userContext);
    [destruct userContext; try (specialize (Htyped eq_refl); discriminate);
     cbn [string_receiver bind];
     destruct (0 <? length (trim s)); cbn [bind]; eexists; reflexivity
    |cbn [bind]; eexists; reflexivity].
Qed.

(** C9. When the call of the external model throws and
    [generateTranslationContext] returns a response, the context came from
    the local analysis and [metadata.generationMethod] is ["claude"]: the
    local block contains the marker the tag is computed from. *)
Theorem local_context_tagged_claude
  (generateContextWithClaude :
     list value -> value -> value -> completion jstring)
  (requestData : ContextRequest) (r : ContextResponse) :
  (forall samples userContext targetLang,
     exists e,
       generateContextWithClaude samples userContext targetLang = Throw e) ->
  generateTranslationContext generateContextWithClaude requestData
  = Return r ->
  (exists samples,
     default_to (VArr []) (sampleTexts requestData) = VArr samples
     /\ generateEnhancedLocalContext samples
          (default_to (VStr []) (userContext requestData))
          (default_to (VStr (js "es")) (targetLang requestData))
        = Return (translationContext r))
  /\ generationMethod (metadata r) = js "claude"
  /\ generationMethod (metadata r) <> js "local".
Proof.
  intros Hfail. unfold generateTranslationContext.
  destruct (default_to (VArr []) (sampleTexts requestData))
    as [| | | | |samples|]; cbn [truthy Array_isArray negb orb];
    rewrite ?orb_true_r; try discriminate.
  destruct (length samples =? 0); [discriminate|].
  destruct (ToString (default_to (VStr (js "es")) (targetLang requestData)))
    as [shown|]; cbn [bind]; [|discriminate].
  destruct (Hfail samples (default_to (VStr []) (userContext requestData))
              (default_to (VStr (js "es")) (targetLang requestData)))
    as [e ->].
  cbn [try_catch].
  destruct (generateEnhancedLocalContext _ _ _) as [c|e'] eqn:Hlocal;
    cbn [bind]; [|discriminate].
  intros [= <-]. cbn [translationContext metadata generationMethod].
  pose proof (local_context_marker _ _ _ _ Hlocal) as Hmarker.
  unfold MARKER in Hmarker. rewrite Hmarker.
  split; [exists samples; split; [reflexivity|exact Hlocal]|].
  split; [reflexivity|discriminate].
Qed.

(** ** The content classifier *)

(** A goal about every position of [b :: rest]: position 0 by arithmetic,
    a later position from the facts [Hall] about [rest]. *)
Ltac by_position Hall :=
  let j := fresh "j" in
  let y := fresh "y" in
  let Hy := fresh "Hy" in
  intros [|j] y Hy;
  [ injection Hy as <-; split; lia
  | pose proof (Hall j y Hy); split; [lia | intros; intuition lia] ].

(** [reduce] with [heavier] selects an entry that no entry outweighs and
    that every later entry is strictly lighter than. *)
Lemma fold_heavier rest :
  forall acc,
    let x := fold_left heavier rest acc in
    (x = acc /\ forall j y, rest !! j = Some y ->
                  weight (snd y) < weight (snd acc))
    \/ exists k,
         rest !! k = Some x
         /\ weight (snd acc) <= weight (snd x)
         /\ forall j y, rest !! j = Some y ->
              weight (snd y) <= weight (snd x)
              /\ (k < j -> weight (snd y) < weight (snd x)).
Proof.
  induction rest as [|b rest IH]; intros acc x.
  - left. split; [reflexivity|]. intros j y H. discriminate.
  - subst x. cbn [fold_left].
    replace (heavier acc b)
      with (if weight (snd b) <? weight (snd acc) then acc else b)
      by reflexivity.
    destruct (weight (snd b) <? weight (snd acc)) eqn:E.
    + apply Nat.ltb_lt in E.
      destruct (IH acc) as [[Hx Hall]|(k & Hk & Hacc & Hall)].
      * left. split; [exact Hx|].
        intros [|j] y Hy; [injection Hy as <-; exact E|].
        apply (Hall j y Hy).
      * right. exists (S k). split; [exact Hk|]. split; [exact Hacc|].
        by_position Hall.
    + apply Nat.ltb_ge in E.
      destruct (IH b) as [[Hx Hall]|(k & Hk & Hb & Hall)].
      * right. exists 0. rewrite Hx. split; [reflexivity|].
        split; [exact E|]. by_position Hall.
      * right. exists (S k). split; [exact Hk|]. split; [lia|].
        by_position Hall.
Qed.

Lemma reduce_heavier (l : list (jstring * Domain)) :
  l <> [] ->
  exists x i,
    reduce heavier l = Return x
    /\ l !! i = Some x
    /\ forall j y, l !! j = Some y ->
         weight (snd y) <= weight (snd x)
         /\ (i < j -> weight (snd y) < weight (snd x)).
Proof.
  destruct l as [|first rest]; [congruence|]. intros _.
  exists (fold_left heavier rest first). cbn [reduce].
  destruct (fold_heavier rest first) as [[Hx Hall]|(k & Hk & Hacc & Hall)].
  - exists 0. split; [reflexivity|]. rewrite Hx. split; [reflexivity|].
    by_position Hall.
  - exists (S k). split; [reflexivity|]. split; [exact Hk|].
    by_position Hall.
Qed.

Lemma weighted_domains_keys content :
  List.map fst (weighted_domains content)
  = [js "prl"; js "technical"; js "educational"; js "corporate"].
Proof. reflexivity. Qed.

Lemma weighted_domains_not_empty content : weighted_domains content <> [].
Proof.
  intros H. apply (f_equal (List.map fst)) in H.
  rewrite weighted_domains_keys in H. discriminate.
Qed.

(** What [detectContentDomain] returns, in terms of the entry [reduce]
    selected. *)
Lemma detectContentDomain_selected samples joined :
  Array_join (js " ") samples = Return joined ->
  let content := toLowerCase joined in
  exists x i,
    weighted_domains content !! i = Some x
    /\ (forall j y, weighted_domains content !! j = Some y ->
          weight (snd y) <= weight (snd x)
          /\ (i < j -> weight (snd y) < weight (snd x)))
    /\ detectContentDomain samples = Return {|
         primary := fst x;
         description := name (snd x);
         confidence :=
           if 0 <? weight (snd x)
           then Math_min
                  (Math_round
                     (Number_mul
                        (Number_div
                           (Number_of_Z (Z.of_nat (weight (snd x))))
                           (Number_of_Z (Z.of_nat (length samples))))
                        (Number_of_Z 100)))
                  (Number_of_Z 95)
           else Number_of_Z 50;
         weights := List.map (fun entry => (fst entry, weight (snd entry)))
                      (weighted_domains content)
       |}.
Proof.
  intros Hjoined content.
  destruct (reduce_heavier _ (weighted_domains_not_empty content))
    as (x & i & Hrun & Hi & Hall).
  exists x, i. split; [exact Hi|]. split; [exact Hall|].
  unfold detectContentDomain. rewrite Hjoined. cbn [bind]. cbv zeta.
  fold content. rewrite Hrun. reflexivity.
Qed.





Lemma fold_add_matches content keywords0 :
  forall domain,
    let domain' := fold_left (add_matches content) keywords0 domain in
    weight domain'
    = weight domain
      + sum_list_with (fun keyword => match_count keyword content) keywords0
    /\ name domain' = name domain.
Proof.
  induction keywords0 as [|keyword rest IH]; intros domain domain'.
  - subst domain'. simpl. split; [lia|reflexivity].
  - subst domain'. cbn [fold_left].
    destruct (IH (add_matches content domain keyword)) as [-> ->].
    unfold add_matches. simpl sum_list_with.
    destruct (0 <? match_count keyword content) eqn:E; cbn [weight name].
    + split; [lia|reflexivity].
    + apply Nat.ltb_ge in E. split; [lia|reflexivity].
Qed.

Lemma weigh_weight content domain :
  weight (weigh content domain)
  = weight domain
    + sum_list_with (fun keyword => match_count keyword content)
        (keywords domain).
Proof. apply fold_add_matches. Qed.

Lemma weigh_name content domain : name (weigh content domain) = name domain.
Proof. apply fold_add_matches. Qed.





(** The division and the multiplication are those of binary64: 29 matches
    in 200 samples give 14.499999999999998, which rounds to 14. *)
Example confidence_29_of_200 :
  Math_round
    (Number_mul (Number_div (Number_of_Z 29) (Number_of_Z 200))
       (Number_of_Z 100))
  = Number_of_Z 14.
Proof. vm_compute. reflexivity. Qed.

(** A tie at a positive weight: one technical and one educational keyword
    select the later domain. *)
Example tie_selects_later_domain :
  exists r,
    detectContentDomain [VStr (js "The system course")] = Return r
    /\ weights r = [(js "prl", 0); (js "technical", 1);
                    (js "educational", 1); (js "corporate", 0)]
    /\ primary r = js "educational".
Proof.
  eexists. split; [vm_compute; reflexivity|]. split; reflexivity.
Qed.


(** C6, as amended. For the context request
    [{sampleTexts: ["Click continue to proceed", "Click continue to proceed"],
      targetLang: "de"}] with no reachable model, the returned
    [translationContext] contains [**CONTENT TYPE**] and
    [**SPECIAL CONSIDERATIONS**: UI elements,interaction clarity], the
    considerations in the order they were detected and joined by a comma
    alone. *)
Theorem click_context_block :
  exists r,
    generateTranslationContext unreachable_context_model click_request
    = Return r
    /\ includes (translationContext r) (js "**CONTENT TYPE**") = true
    /\ includes (translationContext r)
         (js "**SPECIAL CONSIDERATIONS**: UI elements,interaction clarity")
       = true
    /\ exists analysis,
         analyzeContentPatterns click_samples = Return analysis
         /\ specialConsiderations analysis
            = [js "UI elements"; js "interaction clarity"].
Proof.
  eexists. split; [vm_compute; reflexivity|].
  split; [vm_compute; reflexivity|].
  split; [vm_compute; reflexivity|].
  eexists. split; vm_compute; reflexivity.
Qed.


(** ** Further properties of api/process-xlf.js *)

Import ProcessXlf.

(** X1. Validation of [processTranslation]: a [chunkTexts] that is not an
    array is rejected first, then a missing [targetLang], then an empty
    array, each with its own message; when all three checks pass no [Error]
    leaves the function, whatever the external call throws. *)
Theorem validation_outcome
  (translateWithClaude :
     list jstring -> value -> value -> value -> completion value)
  (requestData : TranslationRequest) :
  match validation_message requestData with
  | Some message =>
      processTranslation translateWithClaude requestData
      = Throw (Error message)
  | None =>
      valid_request requestData
      /\ forall message,
           processTranslation translateWithClaude requestData
           <> Throw (Error message)
  end.
Proof.
  destruct (validation_message requestData) as [message|] eqn:Hcheck.
  - unfold validation_message in Hcheck. unfold processTranslation.
    destruct (chunkTexts requestData) as [| | | | |texts|];
      cbn [truthy Array_isArray negb orb]; rewrite ?orb_true_r;
      try (injection Hcheck as <-; reflexivity).
    destruct (negb (truthy (ProcessXlf.targetLang requestData)));
      [injection Hcheck as <-; reflexivity|].
    destruct texts; [injection Hcheck as <-; reflexivity|discriminate].
  - assert (Hvalid : valid_request requestData).
    { unfold validation_message in Hcheck.
      destruct (chunkTexts requestData) as [| | | | |texts|] eqn:Hchunks;
        try discriminate.
      destruct (truthy (ProcessXlf.targetLang requestData)) eqn:Htarget;
        [|discriminate].
      destruct texts as [|t texts']; [discriminate|].
      exists (t :: texts'). auto. }
    split; [exact Hvalid|].
    intros message H.
    apply (valid_request_throws _ _ _ Hvalid) in H. discriminate.
Qed.

(** X2. On a request with strings, a string target language, a string or
    no guidance and chunk numbers that can be printed, a reply of the
    external model that is not [null] is returned as it is: [translations]
    is the reply, [realTranslations] the number of its keys and
    [textsProcessed] the number of texts, and the two counts are not
    compared. *)
Theorem reply_passed_through
  (translateWithClaude :
     list jstring -> value -> value -> value -> completion value)
  (texts : list jstring) (tl : jstring) (guidance : option jstring)
  (ci tc sl sc reply : value) (keys : nat) :
  texts <> [] -> tl <> [] ->
  printable ci = true -> printable tc = true ->
  translateWithClaude (List.map cleaned_of texts)
    (default_to (VStr (js "en")) sl) (VStr tl) (context_value guidance)
  = Return reply ->
  Object_keys_length reply = Return keys ->
  exists r,
    processTranslation translateWithClaude
      (typed_request texts tl guidance ci tc sl sc) = Return r
    /\ translations r = Parsed reply
    /\ realTranslations (ProcessXlf.stats r) = keys
    /\ textsProcessed (ProcessXlf.stats r) = length texts.
Proof.
  intros Htexts Htl Hci Htc Hreply Hkeys.
  rewrite (typed_request_runs _ _ _ _ _ _ _ _ Htexts Htl Hci Htc). cbv zeta.
  rewrite Hreply. cbn [bind try_catch]. rewrite Hkeys.
  cbn [bind try_catch]. rewrite Hkeys. cbn [bind].
  eexists. split; [reflexivity|]. cbn. rewrite length_map. auto.
Qed.


(** X3. A [null] reply is handled like a failed call: [Object.keys] throws
    inside the [try] block, and the response is the one an unreachable model
    gives, for every request. *)
Theorem null_reply_falls_back
  (translateWithClaude :
     list jstring -> value -> value -> value -> completion value)
  (requestData : TranslationRequest) :
  (forall processed sourceLang targetLang context,
     exists reply,
       translateWithClaude processed sourceLang targetLang context
       = Return reply /\ nullish reply = true) ->
  processTranslation translateWithClaude requestData
  = processTranslation unreachable_model requestData.
Proof.
  intros Hnull. unfold processTranslation.
  destruct (negb (truthy (chunkTexts requestData))
            || negb (Array_isArray (chunkTexts requestData)));
    [reflexivity|].
  destruct (negb (truthy (ProcessXlf.targetLang requestData)));
    [reflexivity|].
  destruct (chunkTexts requestData) as [| | | | |texts|]; try reflexivity.
  destruct (length texts =? 0); [reflexivity|].
  destruct (map_from preprocessTextForTranslation 0 texts) as [processed|];
    cbn [bind]; [|reflexivity].
  destruct (Hnull processed
              (default_to (VStr (js "en")) (sourceLang requestData))
              (ProcessXlf.targetLang requestData)
              (ProcessXlf.translationContext requestData))
    as (reply & -> & Hreply).
  destruct reply; try discriminate; reflexivity.
Qed.


Lemma replace_runs_keeps_text b s :
  List.filter not_whitespace (replace_whitespace_runs b s)
  = List.filter not_whitespace s
  /\ length (replace_whitespace_runs b s) <= length s.
Proof.
  revert b. induction s as [|c rest IH]; intros b; [split; reflexivity|].
  simpl. change (not_whitespace c) with (negb (is_whitespace c)).
  destruct (is_whitespace c) eqn:Hc; simpl.
  - destruct b; simpl; destruct (IH true); (split; [assumption|lia]).
  - change (not_whitespace c) with (negb (is_whitespace c)).
    rewrite Hc. simpl.
    destruct (IH false) as [-> ?]. split; [reflexivity|lia].
Qed.

Lemma trimStart_keeps_text s :
  List.filter not_whitespace (trimStart s) = List.filter not_whitespace s
  /\ length (trimStart s) <= length s.
Proof.
  induction s as [|c rest IH]; [split; reflexivity|].
  simpl. change (not_whitespace c) with (negb (is_whitespace c)).
  destruct (is_whitespace c) eqn:Hc; simpl.
  - destruct IH. split; [assumption|lia].
  - change (not_whitespace c) with (negb (is_whitespace c)).
    rewrite Hc. split; [reflexivity|lia].
Qed.

Lemma trimEnd_keeps_text s :
  List.filter not_whitespace (trimEnd s) = List.filter not_whitespace s
  /\ length (trimEnd s) <= length s.
Proof.
  induction s as [|c rest [IHf IHl]]; [split; reflexivity|].
  simpl. destruct (trimEnd rest) as [|k ks].
  - simpl in IHf. rewrite <- IHf.
    change (not_whitespace c) with (negb (is_whitespace c)).
    destruct (is_whitespace c) eqn:Hc; simpl.
    + split; [reflexivity|lia].
    + change (not_whitespace c) with (negb (is_whitespace c)).
      rewrite Hc. split; [reflexivity|lia].
  - rewrite <- IHf. simpl. simpl in IHl. split; [reflexivity|lia].
Qed.

(** X4. The preprocessor leaves the text alone: the code units of the result
    that are not whitespace are those of the input, in the same order, and
    the result is never longer than the input. *)
Theorem preprocess_keeps_text (s : jstring) (index : nat) :
  exists r,
    preprocessTextForTranslation (VStr s) index = Return r
    /\ List.filter not_whitespace r = List.filter not_whitespace s
    /\ length r <= length s.
Proof.
  exists (cleaned_of s). split; [apply preprocess_string|].
  unfold cleaned_of, trim.
  destruct (trimEnd_keeps_text
              (trimStart (replace_whitespace_runs false s))) as [-> H1].
  destruct (trimStart_keeps_text (replace_whitespace_runs false s))
    as [-> H2].
  destruct (replace_runs_keeps_text false s) as [-> H3].
  split; [reflexivity|lia].
Qed.

Lemma no_run_single_spaced l :
  no_whitespace_run l -> single_spaced l = true.
Proof.
  induction l as [|c rest IH]; intros H; [reflexivity|].
  apply single_spaced_cons.
  - apply IH. intros i x y Hx Hy. apply (H (S i) x y Hx Hy).
  - intros Hc d Hd. destruct rest as [|d' rest']; [discriminate|].
    injection Hd as <-. apply (H 0 c d' eq_refl eq_refl Hc).
Qed.

(** X5. The strings the preprocessor returns unchanged are exactly the
    normalized ones: no whitespace at either end, no two whitespace code
    units in a row, and no whitespace other than the space U+0020. *)
Theorem preprocess_fixed_points (s : jstring) (index : nat) :
  preprocessTextForTranslation (VStr s) index = Return s <-> normalized s.
Proof.
  rewrite preprocess_string. split.
  - intros [= H]. unfold normalized. rewrite <- H.
    split; [apply cleaned_no_leading|].
    split; [apply cleaned_no_trailing|].
    split; [apply single_spaced_no_run, cleaned_single_spaced|].
    apply cleaned_only_spaces.
  - intros (Hlead & Htrail & Hrun & Hspaces). f_equal.
    unfold cleaned_of, trim.
    rewrite replace_runs_fixed;
      [|apply no_run_single_spaced, Hrun|exact Hspaces|discriminate].
    rewrite (trimStart_fixed _ Hlead). apply trimEnd_fixed, Htrail.
Qed.

(** ** Further properties of the content classifier *)

Import GenerateContext.

Lemma SFcompare_swap x y c :
  SFcompare x y = Some c -> SFcompare y x = Some (CompOpp c).
Proof.
  destruct x as [sx|sx| |sx mx ex], y as [sy|sy| |sy my ey]; simpl;
    try discriminate;
    try (destruct sx; intros [= <-]; reflexivity);
    try (destruct sy; intros [= <-]; reflexivity);
    try (destruct sx, sy; intros [= <-]; reflexivity).
  assert (Hm : Pos.compare_cont Eq my mx
               = CompOpp (Pos.compare_cont Eq mx my)).
  { rewrite (Pos.compare_cont_antisym mx my Eq). reflexivity. }
  destruct sx, sy; try (intros [= <-]; reflexivity);
    rewrite (Z.compare_antisym ex ey), Hm;
    destruct (ex ?= ey)%Z; simpl; intros [= <-];
    rewrite ?CompOpp_involutive; reflexivity.
Qed.


Lemma SFltb_irrefl y : SFltb y y = false.
Proof.
  unfold SFltb. destruct (SFcompare y y) as [c|] eqn:E; [|reflexivity].
  pose proof (SFcompare_swap _ _ _ E) as E'. rewrite E in E'.
  destruct c; [reflexivity|discriminate|reflexivity].
Qed.

Lemma Math_min_capped x y : SFltb y (Math_min x y) = false.
Proof.
  unfold Math_min. destruct (SFcompare x y) as [c|] eqn:E.
  - pose proof (SFcompare_swap _ _ _ E) as E'.
    destruct c; cbn [CompOpp] in E'.
    + assert (Hx : SFltb y x = false) by (unfold SFltb; rewrite E'; reflexivity).
      destruct x as [[]| | |]; try exact Hx;
        destruct y as [[]| | |]; try exact Hx; apply SFltb_irrefl.
    + unfold SFltb. rewrite E'. reflexivity.
    + apply SFltb_irrefl.
  - destruct y; reflexivity.
Qed.

(** X6. On samples that [join] can print, the confidence
    [detectContentDomain] returns is never greater than 95. *)
Theorem confidence_capped (samples : list value) (joined : jstring) :
  Array_join (js " ") samples = Return joined ->
  exists r,
    detectContentDomain samples = Return r
    /\ SFltb (Number_of_Z 95) (confidence r) = false.
Proof.
  intros Hjoined.
  destruct (detectContentDomain_selected samples joined Hjoined)
    as (x & i & _ & _ & Hrun).
  eexists. split; [exact Hrun|]. cbn [confidence].
  destruct (0 <? weight (snd x)).
  - apply Math_min_capped.
  - vm_compute. reflexivity.
Qed.

(** X7. On samples that [join] can print, the weight of a domain is the
    total number of whole-word, case-insensitive matches of its keywords in
    the lowercased concatenation of the samples; the four weights are
    returned in the order of the [domains] object. *)
Theorem weights_are_match_totals (samples : list value) (joined : jstring) :
  Array_join (js " ") samples = Return joined ->
  exists r,
    detectContentDomain samples = Return r
    /\ weights r
       = List.map
           (fun entry =>
              (fst entry, keyword_matches (toLowerCase joined) (snd entry)))
           domains.
Proof.
  intros Hjoined.
  destruct (detectContentDomain_selected samples joined Hjoined)
    as (x & i & _ & _ & Hrun).
  eexists. split; [exact Hrun|]. cbn [weights].
  unfold weighted_domains. rewrite List.map_map.
  apply List.map_ext_in. intros [key domain] Hin. cbn [fst snd].
  f_equal. rewrite weigh_weight. unfold keyword_matches.
  replace (weight domain) with 0; [reflexivity|].
  repeat (destruct Hin as [Hin|Hin]; [injection Hin as <- <-; reflexivity|]).
  destruct Hin.
Qed.

(** A keyword listed in two domains counts for both. *)
Example process_counts_twice :
  exists r,
    detectContentDomain [VStr (js "The process")] = Return r
    /\ weights r = [(js "prl", 0); (js "technical", 1);
                    (js "educational", 0); (js "corporate", 1)].
Proof. eexists. split; [vm_compute; reflexivity|reflexivity]. Qed.

Lemma property_found {A : Type} (props : list (jstring * A)) key :
  key ∈ List.map fst props -> exists v, property props key = Some v.
Proof.
  induction props as [|[k v] props IH]; intros H; [inversion H|].
  cbn [property]. case_bool_decide; [eauto|].
  apply IH. cbn [List.map fst] in H.
  apply elem_of_cons in H as [->|H]; [congruence|exact H].
Qed.

Lemma approaches_keys target :
  List.map fst (approaches target) = List.map fst domains.
Proof. reflexivity. Qed.

(** X8. On samples that [join] can print and a target language that can
    be printed, the selected domain is one of the four of the [domains]
    object, its description is the name of that domain, and the terminology
    approach looked up for it is one of the four specific ones: the generic
    phrase of [getTerminologyApproach] is never used for it. *)
Theorem selected_domain_is_known (samples : list value) (joined : jstring)
  (targetLang : value) (target : jstring) :
  Array_join (js " ") samples = Return joined ->
  ToString targetLang = Return target ->
  exists r key domain approach,
    detectContentDomain samples = Return r
    /\ (key, domain) ∈ domains
    /\ primary r = key
    /\ description r = name domain
    /\ getTerminologyApproach (primary r) targetLang = Return approach
    /\ property (approaches target) key = Some approach.
Proof.
  intros Hjoined Htarget.
  destruct (detectContentDomain_selected samples joined Hjoined)
    as (x & i & Hi & _ & Hrun).
  unfold weighted_domains in Hi.
  change (List.map ?f ?l) with (f <$> l) in Hi.
  rewrite list_lookup_fmap in Hi.
  destruct (domains !! i) as [[key domain]|] eqn:Hd; [|discriminate].
  injection Hi as <-. cbn [fst snd] in Hrun.
  assert (Hin : (key, domain) ∈ domains)
    by (eapply list_elem_of_lookup_2, Hd).
  destruct (property_found (approaches target) key) as [approach Happroach].
  { rewrite approaches_keys.
    apply (list_elem_of_fmap_2 fst) in Hin. exact Hin. }
  eexists _, key, domain, approach. split; [exact Hrun|].
  cbn [primary description].
  split; [exact Hin|].
  split; [reflexivity|]. split; [apply weigh_name|].
  unfold getTerminologyApproach. rewrite Htarget. cbn [bind].
  rewrite Happroach. split; reflexivity.
Qed.

(** ** Further properties of the context generator *)

Lemma analyzeContentPatterns_cases samples joined :
  Array_join (js " ") samples = Return joined ->
  analyzeContentPatterns samples
  = let content := toLowerCase joined in
    Return
      (analysis_of
         (test_words [js "click"; js "button"; js "navigate"; js "select";
                      js "choose"; js "continue"; js "next"; js "previous";
                      js "start"; js "complete"] content)
         (test_words [js "api"; js "system"; js "configuration";
                      js "database"; js "server"; js "technical";
                      js "setup"; js "install"] content)
         (test_words [js "lesson"; js "course"; js "learning"; js "training";
                      js "module"; js "chapter"; js "quiz"; js "student";
                      js "learn"] content)
         (test_words [js "company"; js "organization"; js "employee";
                      js "business"; js "corporate"; js "workplace";
                      js "team"] content)).
Proof.
  intros Hjoined. unfold analyzeContentPatterns, analysis_of.
  rewrite Hjoined. cbn [bind]. cbv zeta.
  repeat match goal with
         | |- context [if ?b then _ else _] => destruct b
         end; reflexivity.
Qed.

Lemma analyzeContentPatterns_throws samples e :
  analyzeContentPatterns samples = Throw e ->
  Array_join (js " ") samples = Throw TypeError /\ e = TypeError.
Proof.
  unfold analyzeContentPatterns. intros H.
  apply bind_throws in H as [H|(joined & _ & H)]; [|discriminate].
  pose proof (Array_join_throws _ _ _ H) as ->. auto.
Qed.

(** X9. What [analyzeContentPatterns] keeps between the fields of the
    analysis it returns: the considerations never repeat; the two interface
    tags come together; a Technical tone comes with the Technical Users
    audience and the technical accuracy tag; and the content type is
    Corporate Training exactly when the audience is Employees, in which
    case the tone is Professional. When it returns no analysis, [join] has
    thrown a TypeError on the samples. *)
Theorem analysis_fields_agree (samples : list value) :
  match analyzeContentPatterns samples with
  | Return analysis =>
      NoDup (specialConsiderations analysis)
      /\ (js "UI elements" ∈ specialConsiderations analysis
          <-> js "interaction clarity" ∈ specialConsiderations analysis)
      /\ (recommendedTone analysis = js "Technical" ->
          targetAudience analysis = js "Technical Users"
          /\ js "technical accuracy" ∈ specialConsiderations analysis)
      /\ (analysis_contentType analysis = js "Corporate Training"
          <-> targetAudience analysis = js "Employees")
      /\ (targetAudience analysis = js "Employees" ->
          recommendedTone analysis = js "Professional")
  | Throw e => e = TypeError /\ Array_join (js " ") samples = Throw TypeError
  end.
Proof.
  destruct (Array_join (js " ") samples) as [joined|e] eqn:Hjoined.
  - rewrite (analyzeContentPatterns_cases samples joined Hjoined). cbv zeta.
    repeat match goal with
           | |- context [test_words ?words ?content] =>
               generalize (test_words words content); intros [|]
           end; compute_done.
  - destruct (analyzeContentPatterns samples) as [analysis|e'] eqn:Hrun.
    + unfold analyzeContentPatterns in Hrun. rewrite Hjoined in Hrun.
      discriminate.
    + apply analyzeContentPatterns_throws in Hrun as [_ ->].
      pose proof (Array_join_throws _ _ _ Hjoined) as ->. auto.
Qed.

Lemma trimEnd_whitespace w : forallb is_whitespace w = true -> trimEnd w = [].
Proof.
  induction w as [|c w IH]; simpl; [reflexivity|].
  intros H. apply andb_true_iff in H as [Hc Hw].
  rewrite (IH Hw), Hc. reflexivity.
Qed.

Lemma trimEnd_strips x c w :
  is_whitespace c = false -> forallb is_whitespace w = true ->
  trimEnd (x ++ c :: w) = x ++ [c].
Proof.
  intros Hc Hw. induction x as [|a x IH]; simpl.
  - rewrite (trimEnd_whitespace w Hw), Hc. reflexivity.
  - rewrite IH. destruct x; reflexivity.
Qed.

Lemma join_lines_feed (lines : list jstring) :
  lines <> [] ->
  List.concat (List.map (fun line => line ++ LF) lines)
  = join_strings LF lines ++ LF.
Proof.
  induction lines as [|line rest IH]; [congruence|]. intros _.
  destruct rest as [|line' rest'].
  - simpl. rewrite app_nil_r. reflexivity.
  - change (join_strings LF (line :: line' :: rest'))
      with (line ++ LF ++ join_strings LF (line' :: rest')).
    cbn [List.map List.concat]. cbn [List.map List.concat] in IH.
    rewrite IH by discriminate. rewrite <- !app_assoc. reflexivity.
Qed.

(** The local block before its final [trim], as lines each followed by a
    line feed. *)
Lemma local_context_untrimmed samples user targetLang analysis d approach
  target :
  ToString targetLang = Return target ->
  analyzeContentPatterns samples = Return analysis ->
  detectContentDomain samples = Return d ->
  getTerminologyApproach (primary d) targetLang = Return approach ->
  exists prompt,
    generateEnhancedLocalContext samples (context_value user) targetLang
    = Return (trim prompt)
    /\ prompt
       = List.concat
           (List.map (fun line => line ++ LF)
              (local_context_lines analysis d user approach target)).
Proof.
  intros Htarget Hanalysis Hd Happroach.
  unfold generateEnhancedLocalContext.
  rewrite Htarget, Hanalysis, Hd. cbn [bind]. rewrite Happroach.
  cbn [bind]. unfold local_context_lines, concat.
  assert (Hlines : forall (head tail user_lines : list jstring),
            List.concat (List.map (fun line => line ++ LF)
                           (head ++ user_lines ++ tail))
            = List.concat (List.map (fun line => line ++ LF) head)
              ++ List.concat (List.map (fun line => line ++ LF) user_lines)
              ++ List.concat (List.map (fun line => line ++ LF) tail)).
  { intros. rewrite !List.map_app, !List.concat_app. reflexivity. }
  destruct user as [[|c u]|]; cbn [context_value truthy string_receiver bind].
  - eexists. split; [reflexivity|]. rewrite Hlines.
    cbn [trim trimStart trimEnd List.map List.concat]. unfold LF.
    rewrite ?app_nil_r, ?app_nil_l, <- ?app_assoc. reflexivity.
  - destruct (trim (c :: u)) as [|k ks] eqn:Htrim;
      cbn [length Nat.ltb Nat.leb bind];
      (eexists; split; [reflexivity|]); rewrite Hlines;
      cbn [List.map List.concat]; unfold LF;
      rewrite ?app_nil_r, ?app_nil_l, <- ?app_assoc; reflexivity.
  - eexists. split; [reflexivity|]. rewrite Hlines.
    cbn [List.map List.concat]. unfold LF.
    rewrite ?app_nil_r, ?app_nil_l, <- ?app_assoc. reflexivity.
Qed.

Lemma join_head sep (line : jstring) (rest : list jstring) c :
  head line = Some c -> head (join_strings sep (line :: rest)) = Some c.
Proof.
  destruct line as [|c' line']; [discriminate|]. intros [= <-].
  destruct rest; reflexivity.
Qed.

Lemma last_app_end (a b : jstring) c :
  last b = Some c -> last (a ++ b) = Some c.
Proof.
  intros Hb. induction a as [|x a IH]; [exact Hb|].
  simpl. destruct (a ++ b) eqn:E; [|exact IH].
  destruct a, b; discriminate.
Qed.

Lemma join_last sep (lines : list jstring) (line : jstring) c :
  last line = Some c -> last (join_strings sep (lines ++ [line])) = Some c.
Proof.
  intros Hc. induction lines as [|first lines IH]; [exact Hc|].
  destruct (lines ++ [line]) as [|next more] eqn:E;
    [destruct lines; discriminate|].
  change (join_strings sep ((first :: lines) ++ [line]))
    with (join_strings sep (first :: lines ++ [line])).
  rewrite E.
  change (join_strings sep (first :: next :: more))
    with (first ++ sep ++ join_strings sep (next :: more)).
  apply last_app_end, last_app_end. exact IH.
Qed.

Lemma trim_line_feed (block : jstring) c c' :
  head block = Some c -> is_whitespace c = false ->
  last block = Some c' -> is_whitespace c' = false ->
  trim (block ++ LF) = block.
Proof.
  intros Hhead Hc Hlast Hc'. unfold trim.
  destruct block as [|x block']; [discriminate|].
  injection Hhead as ->.
  change (trimStart ((c :: block') ++ LF))
    with (if is_whitespace c then trimStart (block' ++ LF)
          else (c :: block') ++ LF).
  rewrite Hc.
  apply last_Some in Hlast as [init Hinit]. rewrite Hinit.
  rewrite <- app_assoc. apply trimEnd_strips; [exact Hc'|reflexivity].
Qed.

Lemma includes_app_r a s sub :
  includes s sub = true -> includes (a ++ s) sub = true.
Proof.
  intros H. induction a as [|c a IH]; [exact H|].
  simpl. rewrite IH. apply orb_true_r.
Qed.

Lemma local_context_lines_cons analysis d user approach target :
  exists rest,
    local_context_lines analysis d user approach target
    = (js "**CONTENT TYPE**: " ++ analysis_contentType analysis)
        :: (js "**DOMAIN**: " ++ description d) :: rest.
Proof. unfold local_context_lines. eexists. reflexivity. Qed.

Lemma local_context_lines_snoc analysis d user approach target :
  exists lines,
    local_context_lines analysis d user approach target
    = lines
      ++ [js "**QUALITY STANDARDS**: Maintain XML structure integrity, preserve spacing, ensure "
            ++ target ++ js " linguistic accuracy"].
Proof. unfold local_context_lines. eexists. apply app_assoc. Qed.

Lemma getTerminologyApproach_returns domain targetLang target :
  ToString targetLang = Return target ->
  exists approach,
    getTerminologyApproach domain targetLang = Return approach.
Proof.
  intros Htarget. unfold getTerminologyApproach. rewrite Htarget.
  cbn [bind]. destruct (property _ _); eexists; reflexivity.
Qed.

(** X10. On samples that [join] can print, with a target language that
    can be printed and a [userContext] that is a string or absent, the
    local context block is exactly its labelled lines joined by line feeds:
    CONTENT TYPE, DOMAIN, TERMINOLOGY APPROACH, TONE, AUDIENCE, SPECIAL
    CONSIDERATIONS, the USER REQUIREMENTS line only when the user context
    holds something besides whitespace, and QUALITY STANDARDS; no line feed
    follows the last line, and the block contains [**DOMAIN**: ]. *)
Theorem local_context_block (samples : list value) (joined : jstring)
  (user : option jstring) (targetLang : value) (target : jstring) :
  Array_join (js " ") samples = Return joined ->
  ToString targetLang = Return target ->
  exists analysis d approach block,
    analyzeContentPatterns samples = Return analysis
    /\ detectContentDomain samples = Return d
    /\ getTerminologyApproach (primary d) targetLang = Return approach
    /\ generateEnhancedLocalContext samples (context_value user) targetLang
       = Return block
    /\ block
       = join_strings LF
           (local_context_lines analysis d user approach target)
    /\ includes block (js "**DOMAIN**: ") = true.
Proof.
  intros Hjoined Htarget.
  destruct (analyzeContentPatterns_returns samples joined Hjoined)
    as [analysis Hanalysis].
  destruct (detectContentDomain_returns samples joined Hjoined) as [d Hd].
  destruct (getTerminologyApproach_returns (primary d) targetLang target
              Htarget) as [approach Happroach].
  destruct (local_context_untrimmed samples user targetLang analysis d
              approach target Htarget Hanalysis Hd Happroach)
    as (prompt & Hrun & ->).
  destruct (local_context_lines_cons analysis d user approach target)
    as [rest Hcons].
  destruct (local_context_lines_snoc analysis d user approach target)
    as [lines Hsnoc].
  set (all := local_context_lines analysis d user approach target) in *.
  exists analysis, d, approach, (join_strings LF all).
  split; [exact Hanalysis|]. split; [exact Hd|]. split; [exact Happroach|].
  split; [|split; [reflexivity|]].
  - rewrite Hrun. f_equal.
    rewrite join_lines_feed by (rewrite Hcons; discriminate).
    apply (trim_line_feed _ 42%N 121%N); [|reflexivity| |reflexivity].
    + rewrite Hcons. apply join_head.
      change (js "**CONTENT TYPE**: ") with (42%N :: js "*CONTENT TYPE**: ").
      reflexivity.
    + rewrite Hsnoc. apply join_last.
      apply last_app_end, last_app_end. reflexivity.
  - rewrite Hcons.
    change (join_strings LF (?a :: ?b :: rest))
      with (a ++ LF ++ join_strings LF (b :: rest)).
    apply includes_app_r, includes_app_r.
    destruct rest as [|line rest'].
    + apply includes_prefix.
    + change (join_strings LF (?b :: line :: rest'))
        with (b ++ LF ++ join_strings LF (line :: rest')).
      rewrite <- app_assoc. apply includes_prefix.
Qed.

Lemma detectContentDomain_throws samples e :
  detectContentDomain samples = Throw e -> e = TypeError.
Proof.
  unfold detectContentDomain. intros H.
  apply bind_throws in H as [H|(joined & _ & H)];
    [exact (Array_join_throws _ _ _ H)|].
  cbv zeta in H.
  apply bind_throws in H as [H|(dominant & _ & H)]; [|discriminate].
  destruct (weighted_domains (toLowerCase joined)); [|discriminate].
  injection H as <-. reflexivity.
Qed.

Lemma getTerminologyApproach_throws domain targetLang e :
  getTerminologyApproach domain targetLang = Throw e -> e = TypeError.
Proof.
  unfold getTerminologyApproach. intros H.
  apply bind_throws in H as [H|(target & _ & H)];
    [exact (ToString_throws _ _ H)|].
  destruct (property _ _); discriminate.
Qed.

Lemma local_context_throws samples userContext targetLang e :
  generateEnhancedLocalContext samples userContext targetLang = Throw e ->
  e = TypeError.
Proof.
  unfold generateEnhancedLocalContext. intros H.
  apply bind_throws in H as [H|(shown & _ & H)];
    [exact (ToString_throws _ _ H)|].
  apply bind_throws in H as [H|(analysis & _ & H)];
    [apply analyzeContentPatterns_throws in H as [_ ->]; reflexivity|].
  apply bind_throws in H as [H|(d & _ & H)];
    [exact (detectContentDomain_throws _ _ H)|].
  apply bind_throws in H as [H|(approach & _ & H)];
    [exact (getTerminologyApproach_throws _ _ _ H)|].
  apply bind_throws in H as [H|(prompt & _ & H)].
  - destruct (truthy userContext); [|discriminate].
    apply bind_throws in H as [H|(trimmed & _ & H)].
    + apply bind_throws in H as [H|(u & _ & H)];
        [exact (string_receiver_throws _ _ H)|discriminate].
    + destruct (0 <? length trimmed); [|discriminate].
      apply bind_throws in H as [H|(again & _ & H)]; [|discriminate].
      apply bind_throws in H as [H|(u & _ & H)];
        [exact (string_receiver_throws _ _ H)|discriminate].
  - apply bind_throws in H as [H|(target & _ & H)];
      [exact (ToString_throws _ _ H)|discriminate].
Qed.

(** X11. Validation of [generateTranslationContext]: an absent
    [sampleTexts] takes the default [[]] and is rejected as empty, like an
    empty array; any other value that is not an array is rejected as missing
    or invalid; when the checks pass no [Error] leaves the function,
    whatever the external call throws. *)
Theorem context_validation_outcome
  (generateContextWithClaude :
     list value -> value -> value -> completion jstring)
  (requestData : ContextRequest) :
  match context_validation_message requestData with
  | Some message =>
      generateTranslationContext generateContextWithClaude requestData
      = Throw (Error message)
  | None =>
      forall message,
        generateTranslationContext generateContextWithClaude requestData
        <> Throw (Error message)
  end.
Proof.
  unfold context_validation_message, generateTranslationContext.
  destruct (sampleTexts requestData) as [| | | | |samples|];
    cbn [default_to truthy Array_isArray negb orb length Nat.eqb];
    rewrite ?orb_true_r; try reflexivity.
  destruct samples as [|sample samples']; [reflexivity|].
  cbn [length Nat.eqb]. intros message.
  destruct (ToString (default_to (VStr (js "es"))
                        (GenerateContext.targetLang requestData)))
    as [shown|e0] eqn:Hshown; cbn [bind].
  - destruct (generateContextWithClaude _ _ _) as [c|e];
      cbn [try_catch bind]; [discriminate|].
    destruct (generateEnhancedLocalContext _ _ _) as [c|e'] eqn:Hlocal;
      cbn [bind]; [discriminate|].
    apply local_context_throws in Hlocal as ->. discriminate.
  - apply ToString_throws in Hshown as ->. discriminate.
Qed.

(** X12. A context request with a non-empty [sampleTexts] array that
    [join] can print, a target language that can be printed and a
    [userContext] that is a string or absent always gets a response with
    [success] true, whatever the external call does; its statistics count
    the samples and the code units of the context. *)
Theorem typed_context_request_succeeds
  (generateContextWithClaude :
     list value -> value -> value -> completion jstring)
  (samples : list value) (joined : jstring) (user : option jstring)
  (targetLang contentType : value) :
  samples <> [] ->
  Array_join (js " ") samples = Return joined ->
  printable targetLang = true ->
  exists r,
    generateTranslationContext generateContextWithClaude
      (typed_context_request samples user targetLang contentType)
    = Return r
    /\ success r = true
    /\ sampleTextsAnalyzed (stats r) = length samples
    /\ contextLength (stats r) = length (translationContext r).
Proof.
  intros Hne Hjoined Htarget.
  unfold generateTranslationContext, typed_context_request.
  cbn [sampleTexts GenerateContext.userContext GenerateContext.targetLang
       GenerateContext.contentType default_to truthy Array_isArray negb
       orb].
  destruct samples as [|sample samples']; [congruence|].
  cbn [length Nat.eqb].
  assert (Htyped : truthy (default_to (VStr []) (context_value user)) = true
                   -> is_string (default_to (VStr []) (context_value user))
                      = true).
  { destruct user; reflexivity. }
  assert (Hprints : printable (default_to (VStr (js "es")) targetLang) = true)
    by (apply printable_default; [reflexivity|exact Htarget]).
  destruct (local_context_returns (sample :: samples') joined
              (default_to (VStr []) (context_value user))
              (default_to (VStr (js "es")) targetLang) Hjoined Hprints Htyped)
    as [c Hc].
  destruct (printable_prints _ Hprints) as [shown ->]. cbn [bind].
  destruct (generateContextWithClaude _ _ _) as [c'|e]; cbn [try_catch bind].
  - eexists. repeat split; reflexivity.
  - rewrite Hc. cbn [bind]. eexists. repeat split; reflexivity.
Qed.

Lemma local_context_needs_string samples userContext targetLang c :
  generateEnhancedLocalContext samples userContext targetLang = Return c ->
  truthy userContext = true -> is_string userContext = true.
Proof.
  unfold generateEnhancedLocalContext. intros H Htruthy.
  apply bind_returns in H as (shown & _ & H).
  apply bind_returns in H as (analysis & _ & H).
  apply bind_returns in H as (d & _ & H).
  apply bind_returns in H as (approach & _ & H).
  apply bind_returns in H as (prompt & H & _).
  rewrite Htruthy in H.
  destruct userContext; try discriminate. reflexivity.
Qed.

(** X13. A [userContext] that is truthy and not a string breaks the local
    analysis: when the external call throws, [generateTranslationContext]
    throws a TypeError, at [userContext.trim()] if not before, although the
    request passed validation. *)
Theorem untyped_user_context_escapes
  (generateContextWithClaude :
     list value -> value -> value -> completion jstring)
  (samples : list value) (userContext targetLang contentType : value) :
  samples <> [] ->
  truthy userContext = true -> is_string userContext = false ->
  (forall s u t, exists e, generateContextWithClaude s u t = Throw e) ->
  generateTranslationContext generateContextWithClaude {|
    sampleTexts := VArr samples;
    userContext := userContext;
    GenerateContext.targetLang := targetLang;
    contentType := contentType
  |} = Throw TypeError.
Proof.
  intros Hne Htruthy Hstring Hfail. unfold generateTranslationContext.
  cbn [sampleTexts GenerateContext.userContext GenerateContext.targetLang
       GenerateContext.contentType default_to truthy Array_isArray negb orb].
  destruct samples as [|sample samples']; [congruence|].
  cbn [length Nat.eqb].
  destruct (ToString (default_to (VStr (js "es")) targetLang))
    as [shown|e0] eqn:Hshown; cbn [bind];
    [|apply ToString_throws in Hshown as ->; reflexivity].
  destruct (Hfail (sample :: samples') (default_to (VStr []) userContext)
              (default_to (VStr (js "es")) targetLang)) as [e ->].
  cbn [try_catch].
  assert (Huser : default_to (VStr []) userContext = userContext)
    by (destruct userContext; try reflexivity; discriminate).
  rewrite Huser.
  destruct (generateEnhancedLocalContext _ _ _) as [c|e'] eqn:Hlocal;
    cbn [bind].
  - apply local_context_needs_string in Hlocal; [congruence|exact Htruthy].
  - apply local_context_throws in Hlocal as ->. reflexivity.
Qed.

(** X14. On a target language that can be printed, when the external call
    returns a text, the response carries that text unchanged, and
    [generationMethod] is ["local"] exactly when the text lacks
    [**CONTENT TYPE**]: a reply of the model without the marker is tagged
    local. *)
Theorem remote_context_tag
  (generateContextWithClaude :
     list value -> value -> value -> completion jstring)
  (samples : list value) (userContext targetLang contentType : value)
  (reply : jstring) :
  samples <> [] ->
  printable targetLang = true ->
  generateContextWithClaude samples (default_to (VStr []) userContext)
    (default_to (VStr (js "es")) targetLang) = Return reply ->
  exists r,
    generateTranslationContext generateContextWithClaude {|
      sampleTexts := VArr samples;
      userContext := userContext;
      GenerateContext.targetLang := targetLang;
      contentType := contentType
    |} = Return r
    /\ translationContext r = reply
    /\ generationMethod (metadata r)
       = (if includes reply MARKER then js "claude" else js "local").
Proof.
  intros Hne Htarget Hreply. unfold generateTranslationContext.
  cbn [sampleTexts GenerateContext.userContext GenerateContext.targetLang
       GenerateContext.contentType default_to truthy Array_isArray negb orb].
  destruct samples as [|sample samples']; [congruence|].
  cbn [length Nat.eqb].
  destruct (printable_prints (default_to (VStr (js "es")) targetLang))
    as [shown ->]; [apply printable_default; [reflexivity|exact Htarget]|].
  cbn [bind]. rewrite Hreply. cbn [try_catch bind].
  eexists. repeat split; reflexivity.
Qed.

(** ** The utility functions of api/process-xlf.js *)

Import ProcessXlf.

(** X15. [escapeRegExp] puts a backslash before each of the fourteen
    special code units and changes nothing else: read back as a pattern,
    the result denotes the input; it is at least as long as the input and
    at most twice as long. *)
Theorem escape_reads_back (s : jstring) :
  exists escaped,
    escapeRegExp (VStr s) = Return escaped
    /\ literal_of_pattern escaped = Some s
    /\ length s <= length escaped <= 2 * length s.
Proof.
  eexists. split; [reflexivity|].
  induction s as [|c s [IHr IHl]]; [split; [reflexivity|simpl; lia]|].
  cbn [List.flat_map].
  destruct (is_regexp_special c) eqn:Hc.
  - cbn [app literal_of_pattern]. rewrite N.eqb_refl, Hc, IHr.
    split; [reflexivity|]. cbn [length]. lia.
  - cbn [app literal_of_pattern]. rewrite Hc.
    destruct (c =? 92)%N eqn:Hb.
    + apply N.eqb_eq in Hb. subst c. discriminate.
    + rewrite IHr. split; [reflexivity|]. cbn [length]. lia.
Qed.

Lemma trim_trim s : trim (trim s) = trim s.
Proof.
  unfold trim at 1.
  rewrite (trimStart_fixed (trim s));
    [|apply trimEnd_head, trimStart_no_leading].
  apply trimEnd_fixed, trimEnd_no_trailing.
Qed.

Lemma whitespace_is_angle_or_space s :
  forallb is_whitespace s = true -> forallb is_angle_or_space s = true.
Proof.
  induction s as [|c s IH]; [reflexivity|]. simpl.
  intros H. apply andb_true_iff in H as [Hc Hs].
  unfold is_angle_or_space. rewrite Hc, orb_true_r. exact (IH Hs).
Qed.

Lemma significant_string s :
  isSignificantText (VStr s)
  = (2 <? length (trim s))
    && negb (is_entity (trim s))
    && negb (forallb is_angle_or_space (trim s)).
Proof.
  unfold isSignificantText.
  destruct s as [|c s']; [reflexivity|].
  cbn [truthy negb orb].
  destruct (forallb is_whitespace (trim (c :: s'))) eqn:Hw.
  - rewrite (whitespace_is_angle_or_space _ Hw).
    rewrite !andb_false_r. reflexivity.
  - rewrite andb_true_r. reflexivity.
Qed.

(** X16. [isSignificantText] never throws and is false on every value that
    is not a string. On a string it looks at the trimmed text only, and is
    true exactly when that has more than two code units, is not an entity
    [&letters;] and holds a code unit other than [<], [>] and whitespace;
    the test for a whitespace-only text never decides. *)
Theorem significant_text (text : value) (s : jstring) :
  isSignificantText text
  = match text with
    | VStr s =>
        (2 <? length (trim s))
        && negb (is_entity (trim s))
        && negb (forallb is_angle_or_space (trim s))
    | _ => false
    end
  /\ isSignificantText (VStr (trim s)) = isSignificantText (VStr s).
Proof.
  split.
  - destruct text; try apply significant_string;
      unfold isSignificantText; rewrite orb_true_r; reflexivity.
  - rewrite !significant_string, trim_trim. reflexivity.
Qed.


Lemma replace_after_run s :
  replace_whitespace_runs true s = replace_whitespace_runs false (trimStart s).
Proof.
  induction s as [|c s IH]; [reflexivity|].
  simpl. destruct (is_whitespace c) eqn:Hc; [exact IH|].
  simpl. rewrite Hc. reflexivity.
Qed.

Lemma trimStart_replace b s :
  trimStart (replace_whitespace_runs b s)
  = replace_whitespace_runs false (trimStart s).
Proof.
  destruct s as [|c s]; [reflexivity|].
  simpl. destruct (is_whitespace c) eqn:Hc.
  - rewrite <- replace_after_run.
    destruct b; simpl;
      apply trimStart_fixed, replace_runs_after_run.
  - simpl. rewrite Hc. reflexivity.
Qed.

Lemma kept_text_not_empty l :
  List.filter not_whitespace l <> [] -> l <> [].
Proof. intros H ->. apply H. reflexivity. Qed.

Lemma trimEnd_has_text l :
  trimEnd l <> [] -> List.filter not_whitespace (trimEnd l) <> [].
Proof.
  intros Hne.
  destruct (last (trimEnd l)) as [c|] eqn:Hlast.
  - pose proof (trimEnd_no_trailing l c Hlast) as Hc.
    apply last_Some in Hlast as [init ->].
    rewrite List.filter_app. simpl.
    unfold not_whitespace at 2. rewrite Hc. simpl.
    destruct (List.filter not_whitespace init); discriminate.
  - apply last_None in Hlast. contradiction.
Qed.

Lemma replace_not_empty b l :
  List.filter not_whitespace l <> [] -> replace_whitespace_runs b l <> [].
Proof.
  intros H. apply kept_text_not_empty.
  destruct (replace_runs_keeps_text b l) as [-> _]. exact H.
Qed.

Lemma replace_cons b c s :
  replace_whitespace_runs b (c :: s)
  = if is_whitespace c
    then if b then replace_whitespace_runs true s
         else SPACE :: replace_whitespace_runs true s
    else c :: replace_whitespace_runs false s.
Proof. reflexivity. Qed.

Lemma trimEnd_cons c s :
  trimEnd (c :: s)
  = match trimEnd s with
    | [] => if is_whitespace c then [] else [c]
    | kept => c :: kept
    end.
Proof. reflexivity. Qed.

Lemma trimEnd_replace b s :
  trimEnd (replace_whitespace_runs b s)
  = replace_whitespace_runs b (trimEnd s).
Proof.
  revert b. induction s as [|c s IH]; intros b; [reflexivity|].
  rewrite replace_cons, (trimEnd_cons c s).
  destruct (trimEnd s) as [|k ks] eqn:Hs.
  - destruct (is_whitespace c) eqn:Hc.
    + destruct b; rewrite ?trimEnd_cons, IH; reflexivity.
    + rewrite trimEnd_cons, IH, replace_cons, Hc. reflexivity.
  - assert (Hkept : forall b', replace_whitespace_runs b' (k :: ks) <> []).
    { intros b'. apply replace_not_empty. rewrite <- Hs.
      apply trimEnd_has_text. congruence. }
    rewrite (replace_cons b c (k :: ks)).
    destruct (is_whitespace c) eqn:Hc.
    + destruct b; rewrite ?trimEnd_cons, IH; [reflexivity|].
      specialize (Hkept true).
      destruct (replace_whitespace_runs true (k :: ks)); congruence.
    + rewrite trimEnd_cons, IH. specialize (Hkept false).
      destruct (replace_whitespace_runs false (k :: ks)); congruence.
Qed.

Lemma cleaned_trim_first s :
  cleaned_of s = replace_whitespace_runs false (trim s).
Proof.
  unfold cleaned_of, trim. rewrite trimStart_replace. apply trimEnd_replace.
Qed.

(** X17. The two steps of the preprocessor commute: replacing the whitespace
    runs and then trimming gives what trimming first and replacing the runs
    after gives. *)
Theorem preprocess_trim_first (s : jstring) (index : nat) :
  preprocessTextForTranslation (VStr s) index
  = Return (replace_whitespace_runs false (trim s)).
Proof. rewrite preprocess_string, cleaned_trim_first. reflexivity. Qed.

Lemma replace_ends_length b s c :
  last s = Some c -> is_whitespace c = false ->
  1 <= length (replace_whitespace_runs b s).
Proof.
  intros Hlast Hc.
  assert (replace_whitespace_runs b s <> []).
  { apply replace_not_empty. apply last_Some in Hlast as [init ->].
    rewrite List.filter_app. simpl. unfold not_whitespace at 2.
    rewrite Hc. destruct (List.filter not_whitespace init); discriminate. }
  destruct (replace_whitespace_runs b s); [congruence|simpl; lia].
Qed.

(** X18. A text [isSignificantText] accepts is never empty or very short
    for the preprocessor: the preprocessed text has at least three code
    units, so the fallback gives it a placeholder and not the empty
    string. *)
Theorem significant_text_stays (s : jstring) (index : nat) :
  isSignificantText (VStr s) = true ->
  exists r,
    preprocessTextForTranslation (VStr s) index = Return r
    /\ 3 <= length r.
Proof.
  intros H. rewrite significant_string in H.
  apply andb_true_iff in H as [H _].
  apply andb_true_iff in H as [H _]. apply Nat.ltb_lt in H.
  exists (replace_whitespace_runs false (trim s)).
  split; [rewrite preprocess_string, cleaned_trim_first; reflexivity|].
  pose proof (trimEnd_head _ (trimStart_no_leading s)) as Hhead.
  pose proof (trimEnd_no_trailing (trimStart s)) as Htail.
  fold (trim s) in Hhead, Htail.
  destruct (trim s) as [|a [|b [|c t]]]; cbn [length] in H; try lia.
  rewrite replace_cons, (Hhead a eq_refl), replace_cons.
  assert (Hsome : is_Some (last (c :: t)))
    by (apply last_is_Some; discriminate).
  destruct Hsome as [z Hz].
  assert (Hws : is_whitespace z = false) by (apply Htail; exact Hz).
  destruct (is_whitespace b).
  - cbn [length].
    pose proof (replace_ends_length true (c :: t) z Hz Hws). lia.
  - cbn [length].
    pose proof (replace_ends_length false (c :: t) z Hz Hws). lia.
Qed.


(** ** The prompt of the translation call *)

Lemma startsWith_refl s : startsWith s s = true.
Proof. rewrite <- (app_nil_r s) at 1. apply startsWith_app. Qed.

Lemma includes_join sep (lines : list jstring) :
  forall i line,
    lines !! i = Some line -> includes (join_strings sep lines) line = true.
Proof.
  induction lines as [|first rest IH]; intros i line Hi; [discriminate|].
  destruct rest as [|next rest'].
  - destruct i; [|discriminate]. injection Hi as ->.
    apply includes_startsWith, startsWith_refl.
  - change (join_strings sep (first :: next :: rest'))
      with (first ++ sep ++ join_strings sep (next :: rest')).
    destruct i as [|i].
    + injection Hi as ->. apply includes_prefix.
    + apply includes_app_r, includes_app_r. apply (IH i). exact Hi.
Qed.

(** The prompt as the source builds it, by branch, for the strings the two
    languages print as. *)
Lemma prompt_branches texts sourceLang targetLang guidance source target :
  ToString sourceLang = Return source ->
  ToString targetLang = Return target ->
  buildTranslationPrompt texts sourceLang targetLang (context_value guidance)
  = match guidance with
    | Some g =>
        match trim g with
        | [] => buildTranslationPrompt texts sourceLang targetLang VUndefined
        | _ =>
            Return
              ((g ++ LINE_FEED ++ LINE_FEED ++ js "---" ++ LINE_FEED)
                 ++ concat [
                      LINE_FEED;
                      js "TRANSLATION INSTRUCTIONS:"; LINE_FEED;
                      js "- Translate ALL "; index_toString (length texts);
                      js " texts from "; source; js " to "; target;
                      LINE_FEED;
                      js "- Follow the contextual guidelines above precisely";
                      LINE_FEED;
                      js "- Preserve ALL XML structure: <g>, <br/>, <strong>, etc.";
                      LINE_FEED;
                      js "- Maintain exact formatting and spacing"; LINE_FEED;
                      js "- Return ONLY JSON format: "; JSON_FORMAT;
                      LINE_FEED; LINE_FEED ]
                 ++ js "TEXTS TO TRANSLATE:" ++ LINE_FEED
                 ++ text_lines texts)
        end
    | None => buildTranslationPrompt texts sourceLang targetLang VUndefined
    end.
Proof.
  intros Hsource Htarget.
  destruct guidance as [[|c g]|]; [reflexivity| |reflexivity].
  unfold buildTranslationPrompt.
  cbn [context_value truthy string_receiver bind ToString].
  destruct (trim (c :: g)) as [|k ks]; [reflexivity|].
  cbn [length Nat.ltb Nat.leb]. rewrite Hsource, Htarget. cbn [bind].
  f_equal. unfold concat. cbn [List.concat].
  rewrite ?app_nil_r, <- ?app_assoc. reflexivity.
Qed.

Lemma standard_prompt_end texts sourceLang targetLang source target :
  ToString sourceLang = Return source ->
  ToString targetLang = Return target ->
  exists head,
    buildTranslationPrompt texts sourceLang targetLang VUndefined
    = Return (head ++ js "TEXTS TO TRANSLATE:" ++ LINE_FEED
                ++ text_lines texts).
Proof.
  intros Hsource Htarget.
  exists (concat [
      js "Translate each text from "; source; js " to "; target; js ".";
        LINE_FEED;
      LINE_FEED;
      js "CRITICAL REQUIREMENTS:"; LINE_FEED;
      js "- Preserve ALL XML structure exactly: <g>, <br/>, <strong>, etc.";
        LINE_FEED;
      js "- Maintain exact formatting and spacing"; LINE_FEED;
      js "- Return ONLY JSON format: "; JSON_FORMAT; LINE_FEED;
      LINE_FEED ]).
  unfold buildTranslationPrompt. cbn [truthy bind].
  rewrite Hsource, Htarget. cbn [bind]. f_equal.
  unfold concat. cbn [List.concat].
  rewrite ?app_nil_r, <- ?app_assoc. reflexivity.
Qed.

(** When one of the two languages cannot be printed, no prompt is built. *)
Lemma prompt_not_printed texts sourceLang targetLang guidance :
  printable sourceLang && printable targetLang = false ->
  buildTranslationPrompt texts sourceLang targetLang (context_value guidance)
  = Throw TypeError.
Proof.
  intros Hnot. unfold buildTranslationPrompt.
  assert (Hlanguages :
    ToString sourceLang = Throw TypeError
    \/ exists source,
         ToString sourceLang = Return source
         /\ ToString targetLang = Throw TypeError).
  { unfold printable in Hnot.
    destruct (ToString sourceLang) as [source|e] eqn:Hsource.
    - right. exists source. split; [reflexivity|].
      destruct (ToString targetLang) as [target|e] eqn:Htarget;
        [discriminate|].
      apply ToString_throws in Htarget as ->. reflexivity.
    - left. apply ToString_throws in Hsource as ->. reflexivity. }
  destruct guidance as [[|c g]|];
    cbn [context_value truthy string_receiver bind ToString];
    try destruct (0 <? length (trim (c :: g)));
    destruct Hlanguages as [Hsource|(source & Hsource & Htarget)];
    rewrite Hsource; cbn [bind]; rewrite ?Htarget; reflexivity.
Qed.

(** X19. The guidance in the prompt, for a source and a target language
    that can be printed: a guidance that holds something besides whitespace
    opens the prompt, unchanged, followed by a blank line and the separator
    [---]; an absent, empty or whitespace-only guidance gives the prompt of
    a request without guidance. In both cases the prompt ends with the
    heading of the texts and their numbered lines. When one of the two
    languages cannot be printed the function throws a TypeError. *)
Theorem guidance_in_prompt (texts : list jstring)
  (sourceLang targetLang : value) (guidance : option jstring) :
  if printable sourceLang && printable targetLang then
    exists prompt head,
      buildTranslationPrompt texts sourceLang targetLang
        (context_value guidance) = Return prompt
      /\ prompt
         = head ++ js "TEXTS TO TRANSLATE:" ++ LINE_FEED ++ text_lines texts
      /\ match guidance with
         | Some g =>
             match trim g with
             | [] =>
                 buildTranslationPrompt texts sourceLang targetLang VUndefined
                 = Return prompt
             | _ =>
                 startsWith prompt
                   (g ++ LINE_FEED ++ LINE_FEED ++ js "---" ++ LINE_FEED)
                 = true
             end
         | None =>
             buildTranslationPrompt texts sourceLang targetLang VUndefined
             = Return prompt
         end
  else
    buildTranslationPrompt texts sourceLang targetLang
      (context_value guidance) = Throw TypeError.
Proof.
  destruct (printable sourceLang && printable targetLang) eqn:Hprintable;
    [|apply prompt_not_printed, Hprintable].
  apply andb_true_iff in Hprintable as [Hsource Htarget].
  apply printable_prints in Hsource as [source Hsource].
  apply printable_prints in Htarget as [target Htarget].
  rewrite (prompt_branches _ _ _ _ _ _ Hsource Htarget).
  destruct (standard_prompt_end texts sourceLang targetLang source target
              Hsource Htarget) as [head Hstandard].
  destruct guidance as [g|].
  - destruct (trim g) as [|k ks].
    + exists (head ++ js "TEXTS TO TRANSLATE:" ++ LINE_FEED
                ++ text_lines texts), head.
      rewrite Hstandard. auto.
    + eexists _, _. split; [reflexivity|]. split.
      * rewrite (app_assoc (g ++ _)). reflexivity.
      * apply startsWith_app.
  - exists (head ++ js "TEXTS TO TRANSLATE:" ++ LINE_FEED
              ++ text_lines texts), head.
    rewrite Hstandard. auto.
Qed.

(** X20. Every text is in the prompt: for a source and a target language
    that can be printed, whatever the guidance, the text at index [i]
    appears in the prompt as the line [i: ] followed by the text between
    quotation marks, with nothing escaped. When one of the two languages
    cannot be printed the function throws a TypeError. *)
Theorem texts_in_prompt (texts : list jstring)
  (sourceLang targetLang : value) (guidance : option jstring) :
  if printable sourceLang && printable targetLang then
    exists prompt,
      buildTranslationPrompt texts sourceLang targetLang
        (context_value guidance) = Return prompt
      /\ forall i text,
           texts !! i = Some text ->
           includes prompt
             (index_toString i ++ js ": " ++ QUOTE ++ text ++ QUOTE) = true
  else
    buildTranslationPrompt texts sourceLang targetLang
      (context_value guidance) = Throw TypeError.
Proof.
  destruct (printable sourceLang && printable targetLang) eqn:Hprintable;
    [|apply prompt_not_printed, Hprintable].
  apply andb_true_iff in Hprintable as [Hsource Htarget].
  apply printable_prints in Hsource as [source Hsource].
  apply printable_prints in Htarget as [target Htarget].
  assert (Hlines : forall head i text,
    texts !! i = Some text ->
    includes (head ++ js "TEXTS TO TRANSLATE:" ++ LINE_FEED
                ++ text_lines texts)
      (index_toString i ++ js ": " ++ QUOTE ++ text ++ QUOTE) = true).
  { intros head i text Hi. do 3 apply includes_app_r.
    unfold text_lines. apply (includes_join _ _ i).
    rewrite list_lookup_imap, Hi. cbn [fmap option_fmap option_map].
    unfold text_line, concat. cbn [List.concat].
    rewrite app_nil_r. reflexivity. }
  rewrite (prompt_branches _ _ _ _ _ _ Hsource Htarget).
  destruct (standard_prompt_end texts sourceLang targetLang source target
              Hsource Htarget) as [head Hstandard].
  assert (Hplain : exists prompt,
    buildTranslationPrompt texts sourceLang targetLang VUndefined
    = Return prompt
    /\ forall i text,
         texts !! i = Some text ->
         includes prompt
           (index_toString i ++ js ": " ++ QUOTE ++ text ++ QUOTE) = true).
  { eexists. split; [exact Hstandard|]. apply Hlines. }
  destruct guidance as [g|]; [|exact Hplain].
  destruct (trim g) as [|k ks]; [exact Hplain|].
  eexists. split; [reflexivity|]. intros i text Hi.
  rewrite (app_assoc (g ++ _)). apply Hlines. exact Hi.
Qed.

(** ** The external call of the translation *)

Lemma failed_call_falls_back
  (translateWithClaude :
     list jstring -> value -> value -> value -> completion value)
  (requestData : TranslationRequest) :
  (forall processed sourceLang targetLang context,
     exists e,
       translateWithClaude processed sourceLang targetLang context
       = Throw e) ->
  processTranslation translateWithClaude requestData
  = processTranslation unreachable_model requestData.
Proof.
  intros Hfails. unfold processTranslation.
  destruct (negb (truthy (chunkTexts requestData))
            || negb (Array_isArray (chunkTexts requestData)));
    [reflexivity|].
  destruct (negb (truthy (ProcessXlf.targetLang requestData)));
    [reflexivity|].
  destruct (chunkTexts requestData) as [| | | | |texts|]; try reflexivity.
  destruct (length texts =? 0); [reflexivity|].
  destruct (map_from preprocessTextForTranslation 0 texts) as [processed|];
    cbn [bind]; [|reflexivity].
  destruct (Hfails processed
              (default_to (VStr (js "en")) (sourceLang requestData))
              (ProcessXlf.targetLang requestData)
              (ProcessXlf.translationContext requestData))
    as (e & ->).
  reflexivity.
Qed.



(** X21. Without an API key the translation is the local one: when the
    variable [CLAUDE_API_KEY] is unset or empty, whatever [fetch] and
    [JSON.parse] would do, every request gets the response of a model that
    cannot be reached, and its error if it has one. *)
Theorem missing_key_falls_back
  (fetch : jstring -> FetchInit -> completion Response)
  (JSON_parse : jstring -> completion value) (TypeError_message : jstring)
  (requestData : TranslationRequest) :
  processTranslation
    (translateWithClaude None fetch JSON_parse TypeError_message) requestData
  = processTranslation unreachable_model requestData
  /\ processTranslation
       (translateWithClaude (Some []) fetch JSON_parse TypeError_message)
       requestData
     = processTranslation unreachable_model requestData.
Proof.
  split; apply failed_call_falls_back; intros processed sl tl context;
    unfold translateWithClaude; do 3 (apply bind_fails; intros ? _); eauto.
Qed.

(** X22. A refused request is answered locally: when the service answers
    every request with a response that is not [ok], whatever its status and
    its text, the response of [processTranslation] is the one of a model
    that cannot be reached. *)
Theorem refused_call_falls_back (apiKey : option jstring)
  (fetch : jstring -> FetchInit -> completion Response)
  (JSON_parse : jstring -> completion value) (TypeError_message : jstring)
  (requestData : TranslationRequest) :
  (forall address init response,
     fetch address init = Return response -> ok response = false) ->
  processTranslation
    (translateWithClaude apiKey fetch JSON_parse TypeError_message)
    requestData
  = processTranslation unreachable_model requestData.
Proof.
  intros Hrefused. apply failed_call_falls_back.
  intros processed sl tl context. unfold translateWithClaude.
  do 3 (apply bind_fails; intros ? _).
  destruct apiKey as [[|c key]|]; eauto.
  apply bind_fails. intros prompt _.
  apply bind_fails. intros response Hresponse.
  rewrite (Hrefused _ _ _ Hresponse). cbn [negb].
  apply bind_fails. eauto.
Qed.


(** X23. What the external call returns: [translateWithClaude] returns
    only when the key is set, the service gave an [ok] response whose body
    holds a non-empty string at [content[0].text], and [JSON.parse] accepted
    that string once the code fences and the surrounding whitespace were
    removed. The value returned is the parsed one, never [null] nor
    [undefined]: a reply that parses to [null] is reported as a parse
    failure. *)
Theorem parsed_reply_returned (apiKey : option jstring)
  (fetch : jstring -> FetchInit -> completion Response)
  (JSON_parse : jstring -> completion value) (TypeError_message : jstring)
  (texts : list jstring) (sourceLang targetLang context translations : value) :
  translateWithClaude apiKey fetch JSON_parse TypeError_message
    texts sourceLang targetLang context = Return translations ->
  nullish translations = false
  /\ exists key address init response data content reply,
       apiKey = Some key /\ key <> []
       /\ fetch address init = Return response /\ ok response = true
       /\ json response = Return data
       /\ get_named data (js "content") = Return content
       /\ optional_named (optional_first content) (js "text") = VStr reply
       /\ reply <> []
       /\ JSON_parse (trim (remove_code_fences reply)) = Return translations.
Proof.
  unfold translateWithClaude. intros Hreturns.
  apply bind_returns in Hreturns as (source & _ & Hreturns).
  apply bind_returns in Hreturns as (target & _ & Hreturns).
  apply bind_returns in Hreturns as (preview & _ & Hreturns).
  destruct apiKey as [[|c key]|]; try discriminate.
  apply bind_returns in Hreturns as (prompt & _ & Hreturns).
  apply bind_returns in Hreturns as (response & Hresponse & Hreturns).
  destruct (ok response) eqn:Hok; cbn [negb] in Hreturns.
  2:{ apply bind_returns in Hreturns as (errorText & _ & Hreturns).
      discriminate. }
  apply bind_returns in Hreturns as (data & Hdata & Hreturns).
  apply bind_returns in Hreturns as (content & Hcontent & Hreturns).
  destruct (negb (truthy (optional_named (optional_first content)
                            (js "text")))) eqn:Htruthy; [discriminate|].
  apply bind_returns in Hreturns as (shown & _ & Hreturns).
  destruct (optional_named (optional_first content) (js "text"))
    as [| |b|n|reply|elements|props] eqn:Htext;
    try discriminate.
  destruct reply as [|r reply]; [discriminate|].
  cbn [string_receiver bind] in Hreturns.
  match type of Hreturns with
  | try_catch ?c _ = _ => destruct c as [v|e] eqn:Hparsed
  end; cbn [try_catch] in Hreturns; [|discriminate].
  injection Hreturns as ->.
  apply bind_returns in Hparsed as (parsed & Hparse & Hparsed).
  apply bind_returns in Hparsed as (logged & Hkeys & Hparsed).
  injection Hparsed as ->.
  split; [destruct translations; try reflexivity; discriminate|].
  eexists (c :: key), _, _, response, data, content, (r :: reply).
  repeat split; try eassumption; discriminate.
Qed.


(** ** The code fences of a reply *)

Lemma remove_fences_skip s :
  forall k,
    remove_code_fences_from k s = remove_code_fences_from 0 (skipn k s).
Proof.
  induction s as [|c rest IH]; intros [|k]; try reflexivity.
  simpl. apply IH.
Qed.

Lemma remove_fences_match c rest n :
  fence_match (c :: rest) = Some (S n) ->
  remove_code_fences_from 0 (c :: rest)
  = remove_code_fences_from 0 (skipn (S n) (c :: rest)).
Proof.
  intros Hmatch. cbn [remove_code_fences_from]. rewrite Hmatch.
  replace (S n - 1) with n by lia.
  rewrite (remove_fences_skip rest n). reflexivity.
Qed.

Lemma skip_whitespace_run s : skipn (whitespace_run s) s = trimStart s.
Proof.
  induction s as [|c rest IH]; [reflexivity|].
  simpl. destruct (is_whitespace c); [exact IH|reflexivity].
Qed.

Lemma whitespace_run_all w t :
  forallb is_whitespace w = true ->
  whitespace_run (w ++ t) = length w + whitespace_run t.
Proof.
  induction w as [|c w IH]; intros Hw; [reflexivity|].
  apply andb_true_iff in Hw as [Hc Hw]. simpl. rewrite Hc, (IH Hw).
  reflexivity.
Qed.

Lemma trimStart_all w t :
  forallb is_whitespace w = true -> trimStart (w ++ t) = trimStart t.
Proof.
  induction w as [|c w IH]; intros Hw; [reflexivity|].
  apply andb_true_iff in Hw as [Hc Hw]. simpl. rewrite Hc. exact (IH Hw).
Qed.

Lemma trimStart_text b t :
  forallb is_whitespace b = false -> trimStart (b ++ t) = trimStart b ++ t.
Proof.
  induction b as [|c b IH]; intros Hb; [discriminate|].
  simpl in *. destruct (is_whitespace c); [exact (IH Hb)|reflexivity].
Qed.

Lemma no_backquote_trimStart b :
  no_backquote b = true -> no_backquote (trimStart b) = true.
Proof.
  induction b as [|c b IH]; intros Hb; [reflexivity|].
  simpl. destruct (is_whitespace c); [|exact Hb].
  apply andb_true_iff in Hb as [_ Hb]. exact (IH Hb).
Qed.

Lemma no_fence_at_text b t :
  no_backquote b = true -> b <> [] ->
  startsWith (b ++ t) (js "```") = false
  /\ startsWith (b ++ t) (js "```json") = false.
Proof.
  destruct b as [|c b]; intros Hb Hne; [congruence|].
  apply andb_true_iff in Hb as [Hc _].
  apply negb_true_iff in Hc.
  change (js "```") with [96; 96; 96]%N.
  change (js "```json") with [96; 96; 96; 106; 115; 111; 110]%N.
  simpl. rewrite Hc. split; reflexivity.
Qed.

Lemma whitespace_not_backquote c : is_whitespace c = true -> (c =? 96)%N = false.
Proof.
  intros Hc. destruct (c =? 96)%N eqn:E; [|reflexivity].
  apply N.eqb_eq in E. subst c. discriminate.
Qed.

Lemma trimEnd_nil_blank l : trimEnd l = [] -> forallb is_whitespace l = true.
Proof.
  induction l as [|c l IH]; [reflexivity|].
  simpl. destruct (trimEnd l); [|discriminate].
  destruct (is_whitespace c); [|discriminate].
  intros _. apply IH. reflexivity.
Qed.

(** A closing fence and the whitespace before it are one match. *)
Lemma closing_fence_removed w :
  forallb is_whitespace w = true ->
  remove_code_fences_from 0 (w ++ js "```") = [].
Proof.
  intros Hw. destruct w as [|c w]; [reflexivity|].
  pose proof Hw as Hcw. apply andb_true_iff in Hcw as [Hc _].
  assert (Hmatch : fence_match ((c :: w) ++ js "```")
                   = Some (S (length w + 3))).
  { unfold fence_match.
    change (js "```json") with [96; 96; 96; 106; 115; 111; 110]%N.
    cbn [app startsWith]. rewrite (whitespace_not_backquote c Hc).
    cbn [andb].
    change (c :: w ++ js "```") with ((c :: w) ++ js "```").
    rewrite skip_whitespace_run, (trimStart_all _ _ Hw).
    rewrite (whitespace_run_all _ _ Hw).
    change (trimStart (js "```")) with (js "```").
    change (startsWith (js "```") (js "```")) with true.
    change (whitespace_run (js "```")) with 0.
    cbn [length]. f_equal. lia. }
  change ((c :: w) ++ js "```") with (c :: w ++ js "```") in *.
  rewrite (remove_fences_match _ _ _ Hmatch).
  rewrite skipn_all2; [reflexivity|].
  cbn [length]. rewrite length_app. change (length (js "```")) with 3. lia.
Qed.

(** Before a closing fence, text without backquote is kept up to its
    trailing whitespace. *)
Lemma text_before_fence b w :
  no_backquote b = true -> forallb is_whitespace w = true ->
  remove_code_fences_from 0 (b ++ w ++ js "```") = trimEnd b.
Proof.
  intros Hb Hw. induction b as [|c b IH].
  - apply closing_fence_removed, Hw.
  - pose proof Hb as Hcb. apply andb_true_iff in Hcb as [Hc Hb'].
    apply negb_true_iff in Hc. specialize (IH Hb').
    destruct (forallb is_whitespace (c :: b)) eqn:Hblank.
    + rewrite app_assoc, closing_fence_removed.
      * symmetry. apply trimEnd_whitespace, Hblank.
      * rewrite forallb_app, Hblank, Hw. reflexivity.
    + assert (Hmatch : fence_match ((c :: b) ++ w ++ js "```") = None).
      { unfold fence_match.
        destruct (no_fence_at_text (c :: b) (w ++ js "```") Hb)
          as [_ ->]; [discriminate|].
        rewrite skip_whitespace_run, (trimStart_text _ _ Hblank).
        destruct (no_fence_at_text (trimStart (c :: b)) (w ++ js "```"))
          as [-> _]; [apply no_backquote_trimStart, Hb| |reflexivity].
        intros Hnil. apply trimStart_blank in Hnil. congruence. }
      change ((c :: b) ++ w ++ js "```") with (c :: b ++ w ++ js "```") in *.
      cbn [remove_code_fences_from]. rewrite Hmatch, IH.
      simpl. destruct (trimEnd b) as [|k ks] eqn:Hend; [|reflexivity].
      apply trimEnd_nil_blank in Hend. simpl in Hblank.
      rewrite Hend, andb_true_r in Hblank. rewrite Hblank. reflexivity.
Qed.

Lemma unfenced_text_kept b :
  no_backquote b = true -> remove_code_fences_from 0 b = b.
Proof.
  induction b as [|c b IH]; intros Hb; [reflexivity|].
  assert (Hmatch : fence_match (c :: b) = None).
  { unfold fence_match.
    destruct (no_fence_at_text (c :: b) [] Hb) as [H3 H7]; [discriminate|].
    rewrite app_nil_r in H3, H7. rewrite H7, skip_whitespace_run.
    destruct (trimStart (c :: b)) as [|d rest] eqn:Hstart; [reflexivity|].
    destruct (no_fence_at_text (d :: rest) []) as [H3' _];
      [rewrite <- Hstart; apply no_backquote_trimStart, Hb|discriminate|].
    rewrite app_nil_r in H3'. rewrite H3'. reflexivity. }
  cbn [remove_code_fences_from]. rewrite Hmatch.
  apply andb_true_iff in Hb as [_ Hb]. rewrite (IH Hb). reflexivity.
Qed.

(** X24. The fences around a reply: a reply without backquote is left as it
    is, and the same reply between an opening [```json] fence and a closing
    [```] fence, each separated from it by any whitespace, is cleaned to the
    same string, so [JSON.parse] reads the same text in both cases. *)
Theorem fenced_reply_unwrapped (body before after : jstring) :
  no_backquote body = true ->
  forallb is_whitespace before = true ->
  forallb is_whitespace after = true ->
  remove_code_fences body = body
  /\ trim (remove_code_fences
             (js "```json" ++ before ++ body ++ after ++ js "```"))
     = trim (remove_code_fences body).
Proof.
  intros Hbody Hbefore Hafter. unfold remove_code_fences.
  rewrite (unfenced_text_kept body Hbody). split; [reflexivity|].
  assert (Hmatch :
    fence_match (js "```json" ++ before ++ body ++ after ++ js "```")
    = Some (S (6 + whitespace_run (before ++ body ++ after ++ js "```")))).
  { unfold fence_match. rewrite startsWith_app. reflexivity. }
  change (js "```json" ++ before ++ body ++ after ++ js "```")
    with (96%N :: [96; 96; 106; 115; 111; 110]%N
                   ++ before ++ body ++ after ++ js "```") in *.
  rewrite (remove_fences_match _ _ _ Hmatch).
  change (skipn (S (6 + ?n)) (96%N :: [96; 96; 106; 115; 111; 110]%N ++ ?x))
    with (skipn n x).
  rewrite skip_whitespace_run, (trimStart_all _ _ Hbefore).
  destruct (forallb is_whitespace body) eqn:Hblank.
  - rewrite app_assoc, trimStart_all
      by (rewrite forallb_app, Hblank, Hafter; reflexivity).
    symmetry. apply trim_blank, Hblank.
  - rewrite (trimStart_text _ _ Hblank).
    rewrite (text_before_fence _ _ (no_backquote_trimStart _ Hbody) Hafter).
    apply trim_trim.
Qed.


(** ** The attributes of a tag *)

Lemma parse_attributes_skip s :
  forall k m,
    parse_attributes_from k s m = parse_attributes_from 0 (skipn k s) m.
Proof.
  induction s as [|c rest IH]; intros [|k] m; try reflexivity.
  simpl. apply IH.
Qed.

Lemma parse_attributes_match c rest name v n m :
  attribute_match (c :: rest) = Some (name, v, S n) ->
  parse_attributes_from 0 (c :: rest) m
  = parse_attributes_from 0 (skipn (S n) (c :: rest))
      (set_attribute name v m).
Proof.
  intros Hmatch. cbn [parse_attributes_from]. rewrite Hmatch.
  replace (S n - 1) with n by lia.
  rewrite (parse_attributes_skip rest n). reflexivity.
Qed.

Lemma word_run_stop p t :
  forallb is_word_char p = true -> word_run t = 0 ->
  word_run (p ++ t) = length p.
Proof.
  intros Hp Ht. induction p as [|c p IH]; [exact Ht|].
  apply andb_true_iff in Hp as [Hc Hp]. simpl. rewrite Hc, (IH Hp).
  reflexivity.
Qed.

Lemma word_run_words s :
  forallb is_word_char (firstn (word_run s) s) = true
  /\ length (firstn (word_run s) s) = word_run s
  /\ word_run (skipn (word_run s) s) = 0.
Proof.
  induction s as [|c s (IHw & IHl & IHs)]; [repeat split|].
  simpl. destruct (is_word_char c) eqn:Hc; simpl.
  - rewrite Hc, IHw, IHl. repeat split. exact IHs.
  - rewrite Hc. repeat split.
Qed.

Lemma unquoted_run_stop v t :
  is_attribute_value v = true ->
  unquoted_run (v ++ 34%N :: t) = length v.
Proof.
  intros Hv. induction v as [|c v IH]; [reflexivity|].
  apply andb_true_iff in Hv as [Hc Hv]. apply negb_true_iff in Hc.
  simpl. rewrite Hc, (IH Hv). reflexivity.
Qed.

(** The parts of a name: a word, and after a colon another one. *)
Lemma attribute_name_parts name :
  is_attribute_name name = true ->
  exists p q,
    name = p ++ q /\ p <> [] /\ forallb is_word_char p = true
    /\ (q = []
        \/ exists r, q = 58%N :: r /\ r <> []
                     /\ forallb is_word_char r = true).
Proof.
  unfold is_attribute_name. intros Hname.
  apply andb_true_iff in Hname as [Hn Hrest].
  apply Nat.ltb_lt in Hn.
  destruct (word_run_words name) as (Hwords & Hlength & _).
  exists (firstn (word_run name) name), (skipn (word_run name) name).
  split; [symmetry; apply firstn_skipn|].
  split.
  { intros Hnil. rewrite Hnil in Hlength. simpl in Hlength. lia. }
  split; [exact Hwords|].
  destruct (skipn (word_run name) name) as [|d r]; [left; reflexivity|].
  right.
  apply andb_true_iff in Hrest as [Hrest Hw].
  apply andb_true_iff in Hrest as [Hd Hr].
  apply N.eqb_eq in Hd. subst d. apply Nat.ltb_lt in Hr.
  exists r. repeat split; [|exact Hw].
  intros ->. simpl in Hr. lia.
Qed.

Lemma value_read name v t :
  is_attribute_value v = true ->
  match skipn (length name) (name ++ 61%N :: 34%N :: v ++ 34%N :: t) with
  | 61%N :: 34%N :: rest =>
      let k := unquoted_run rest in
      match skipn k rest with
      | 34%N :: _ =>
          Some (firstn (length name)
                  (name ++ 61%N :: 34%N :: v ++ 34%N :: t),
                firstn k rest, length name + 3 + k)
      | _ => None
      end
  | _ => None
  end
  = Some (name, v, length name + 3 + length v).
Proof.
  intros Hv.
  rewrite skipn_app, skipn_all, Nat.sub_diag. cbn [app skipn]. cbv zeta.
  rewrite (unquoted_run_stop v t Hv).
  rewrite skipn_app, skipn_all, Nat.sub_diag. cbn [app skipn].
  rewrite !firstn_app, !firstn_all, !Nat.sub_diag. cbn [firstn].
  rewrite !app_nil_r. reflexivity.
Qed.

Lemma length_not_zero {A : Type} (l : list A) :
  l <> [] -> (length l =? 0) = false.
Proof. destruct l; [congruence|reflexivity]. Qed.

(** The expression reads an attribute written with such a name and such a
    value as it was written. *)
Lemma attribute_read name v t :
  is_attribute_name name = true -> is_attribute_value v = true ->
  attribute_match (name ++ 61%N :: 34%N :: v ++ 34%N :: t)
  = Some (name, v, length name + 3 + length v).
Proof.
  intros Hname Hv.
  destruct (attribute_name_parts name Hname)
    as (p & q & -> & Hne & Hp & Hq).
  set (rest := 61%N :: 34%N :: v ++ 34%N :: t).
  assert (Hrun : word_run ((p ++ q) ++ rest) = length p).
  { rewrite <- app_assoc. apply word_run_stop; [exact Hp|].
    destruct Hq as [->|(r & -> & _ & _)]; reflexivity. }
  assert (Hskip : skipn (length p) ((p ++ q) ++ rest) = q ++ rest).
  { rewrite <- app_assoc, skipn_app, skipn_all, Nat.sub_diag.
    reflexivity. }
  unfold attribute_match. cbv zeta.
  rewrite Hrun, (length_not_zero p Hne), Hskip.
  destruct Hq as [->|(r & -> & Hr & Hword)].
  - unfold rest at 1. cbn [app]. cbv beta iota.
    rewrite (app_nil_r p). apply value_read, Hv.
  - assert (Hrun' : word_run (r ++ rest) = length r)
      by (apply word_run_stop; [exact Hword|reflexivity]).
    cbn [app]. cbv beta iota zeta.
    rewrite Hrun', (length_not_zero r Hr).
    replace (length p + 1 + length r) with (length (p ++ 58%N :: r))
      by (rewrite length_app; cbn [length]; lia).
    apply value_read, Hv.
Qed.

Lemma attributes_assigned attributes :
  Forall (fun a => is_attribute_name (fst a) = true
                   /\ is_attribute_value (snd a) = true) attributes ->
  forall m,
    parse_attributes_from 0 (attributes_source attributes) m
    = foldl (fun m a => set_attribute (fst a) (snd a) m) m attributes.
Proof.
  induction 1 as [|[name v] rest [Hname Hv] Hrest IH]; intros m;
    [reflexivity|].
  cbn [fst snd] in Hname, Hv. cbn [attributes_source foldl fst snd].
  cbn [parse_attributes_from].
  change (attribute_match (32%N :: ?s)) with (@None (jstring * jstring * nat)).
  pose proof (attribute_read name v (attributes_source rest) Hname Hv)
    as Hread.
  destruct (attribute_name_parts name Hname) as (p & q & Hparts & Hne & _).
  destruct name as [|c name];
    [destruct p; [congruence|discriminate]|].
  cbn [app length] in Hread |- *.
  replace (S (length name) + 3 + length v)
    with (S (length name + 3 + length v)) in Hread by lia.
  rewrite (parse_attributes_match _ _ _ _ _ m Hread).
  rewrite <- IH. f_equal.
  change (c :: name ++ 61%N :: 34%N :: v ++ 34%N :: attributes_source rest)
    with ((c :: name) ++ 61%N :: 34%N :: v ++ 34%N :: attributes_source rest).
  replace (S (length name + 3 + length v))
    with (length (c :: name) + (2 + (length v + 1)))
    by (cbn [length]; lia).
  rewrite skipn_app, skipn_all2 by lia.
  replace (length (c :: name) + (2 + (length v + 1)) - length (c :: name))
    with (2 + (length v + 1)) by lia.
  cbn [app skipn Nat.add].
  change (34%N :: attributes_source rest)
    with ([34%N] ++ attributes_source rest).
  rewrite app_assoc, skipn_app, skipn_all2
    by (rewrite length_app; cbn [length]; lia).
  rewrite length_app. cbn [length].
  replace (length v + 1 - (length v + 1)) with 0 by lia.
  reflexivity.
Qed.

(** X25. Reading back the attributes of a tag: when every name is a word,
    or two words joined by a colon, and no value holds a double quote, the
    text that writes the attributes one after the other gives the object
    the assignments give when made in that order, so the value of a
    repeated name is the last one; an attribute named [__proto__] is left
    out, since assigning a string to that name adds no property. *)
Theorem attributes_read_back (attributes : list (jstring * jstring)) :
  Forall (fun a => is_attribute_name (fst a) = true
                   /\ is_attribute_value (snd a) = true) attributes ->
  parseAttributes (VStr (attributes_source attributes))
  = Return
      (foldl (fun m a => <[fst a := snd a]> m) ∅
         (List.filter (fun a => negb (bool_decide (fst a = js "__proto__")))
            attributes)).
Proof.
  intros Hattributes. unfold parseAttributes. cbn [ToString bind]. f_equal.
  rewrite (attributes_assigned attributes Hattributes).
  generalize (∅ : gmap jstring jstring). clear Hattributes.
  induction attributes as [|[name v] rest IH]; intros m; [reflexivity|].
  cbn [foldl List.filter fst snd]. rewrite IH. unfold set_attribute.
  destruct (bool_decide (name = js "__proto__")); reflexivity.
Qed.


(** ** The external call of the context generator *)

Import GenerateContext.

Lemma failed_context_call_local
  (generateContextWithClaude :
     list value -> value -> value -> completion jstring)
  (requestData : ContextRequest) :
  (forall samples userContext targetLang,
     exists e,
       generateContextWithClaude samples userContext targetLang = Throw e) ->
  generateTranslationContext generateContextWithClaude requestData
  = generateTranslationContext unreachable_context_model requestData.
Proof.
  intros Hfails. unfold generateTranslationContext. cbv zeta.
  destruct (negb (truthy _) || negb (Array_isArray _)); [reflexivity|].
  destruct (default_to (VArr []) (sampleTexts requestData))
    as [| | | | |samples|]; try reflexivity.
  destruct (length samples =? 0); [reflexivity|].
  destruct (Hfails samples
              (default_to (VStr []) (GenerateContext.userContext requestData))
              (default_to (VStr (js "es"))
                 (GenerateContext.targetLang requestData))) as [e ->].
  reflexivity.
Qed.

(** X26. Without an API key the context is the local one: when the variable
    [CLAUDE_API_KEY] is unset or empty, whatever [fetch] would do, every
    context request gets the response of a model that cannot be reached,
    and its error if it has one. *)
Theorem missing_key_context_local
  (fetch : jstring -> FetchInit -> completion Response)
  (requestData : ContextRequest) :
  generateTranslationContext (generateContextWithClaude None fetch)
    requestData
  = generateTranslationContext unreachable_context_model requestData
  /\ generateTranslationContext (generateContextWithClaude (Some []) fetch)
       requestData
     = generateTranslationContext unreachable_context_model requestData.
Proof.
  split; apply failed_context_call_local; intros samples u t;
    unfold generateContextWithClaude; apply bind_fails; eauto.
Qed.

(** X27. Only the first forty samples are sent: the external call on a list
    of samples is the call on its first forty, whatever the key, the
    service and the other arguments. *)
Theorem forty_samples_sent (apiKey : option jstring)
  (fetch : jstring -> FetchInit -> completion Response)
  (samples : list value) (userContext targetLang : value) :
  generateContextWithClaude apiKey fetch samples userContext targetLang
  = generateContextWithClaude apiKey fetch (firstn 40 samples)
      userContext targetLang.
Proof.
  unfold generateContextWithClaude.
  rewrite firstn_firstn, Nat.min_id. reflexivity.
Qed.

(** X28. What the external call of the context returns: it returns only
    when the key is set and the service gave an [ok] response whose body
    holds a non-empty string at [content[0].text]; the context is that
    string trimmed, so it neither starts nor ends with whitespace. *)
Theorem context_reply_returned (apiKey : option jstring)
  (fetch : jstring -> FetchInit -> completion Response)
  (samples : list value) (userContext targetLang : value)
  (context : jstring) :
  generateContextWithClaude apiKey fetch samples userContext targetLang
  = Return context ->
  no_leading_whitespace context /\ no_trailing_whitespace context
  /\ exists key address init response data content reply,
       apiKey = Some key /\ key <> []
       /\ fetch address init = Return response /\ ok response = true
       /\ json response = Return data
       /\ get_named data (js "content") = Return content
       /\ optional_named (optional_first content) (js "text") = VStr reply
       /\ reply <> []
       /\ context = trim reply.
Proof.
  unfold generateContextWithClaude. intros Hreturns.
  apply bind_returns in Hreturns as (shown & _ & Hreturns).
  destruct apiKey as [[|c key]|]; try discriminate.
  apply bind_returns in Hreturns as (sample & _ & Hreturns).
  apply bind_returns in Hreturns as (prompt & _ & Hreturns).
  apply bind_returns in Hreturns as (response & Hresponse & Hreturns).
  destruct (ok response) eqn:Hok; cbn [negb] in Hreturns.
  2:{ apply bind_returns in Hreturns as (errorText & _ & Hreturns).
      discriminate. }
  apply bind_returns in Hreturns as (data & Hdata & Hreturns).
  apply bind_returns in Hreturns as (content & Hcontent & Hreturns).
  destruct (negb (truthy (optional_named (optional_first content)
                            (js "text")))) eqn:Htruthy; [discriminate|].
  apply bind_returns in Hreturns as (length_shown & _ & Hreturns).
  destruct (optional_named (optional_first content) (js "text"))
    as [| |b|n|reply|elements|props] eqn:Htext;
    try discriminate.
  destruct reply as [|r reply]; [discriminate|].
  cbn [string_receiver bind] in Hreturns.
  injection Hreturns as <-.
  split; [apply trimEnd_head, trimStart_no_leading|].
  split; [apply trimEnd_no_trailing|].
  eexists (c :: key), _, _, response, data, content, (r :: reply).
  repeat split; try eassumption; discriminate.
Qed.


Lemma analysis_prompt_returns sample (user : option jstring) targetLang :
  printable targetLang = true ->
  exists prompt,
    analysis_prompt sample (default_to (VStr []) (context_value user))
      targetLang = Return prompt.
Proof.
  intros Htarget. apply printable_prints in Htarget as [target Htarget].
  unfold analysis_prompt.
  destruct user as [[|c u]|]; cbn [context_value default_to truthy ToString bind];
    rewrite Htarget; cbn [bind]; eexists; reflexivity.
Qed.

(** X29. A blank reply is accepted: on a request with sample strings, a
    target language that can be printed and a string or no user context,
    when the service answers with a text that is not empty and holds only
    whitespace, the context request succeeds with an empty context, of
    length 0, and [generationMethod] is ["local"] although no local
    analysis was made. *)
Theorem blank_reply_accepted (key : jstring)
  (fetch : jstring -> FetchInit -> completion Response)
  (response : Response) (data content : value) (reply : jstring)
  (texts : list jstring) (user : option jstring)
  (targetLang contentType : value) :
  key <> [] -> texts <> [] -> printable targetLang = true ->
  (forall address init, fetch address init = Return response) ->
  ok response = true ->
  json response = Return data ->
  get_named data (js "content") = Return content ->
  optional_named (optional_first content) (js "text") = VStr reply ->
  reply <> [] -> forallb is_whitespace reply = true ->
  exists r,
    generateTranslationContext (generateContextWithClaude (Some key) fetch)
      (typed_context_request (List.map VStr texts) user targetLang
         contentType) = Return r
    /\ translationContext r = []
    /\ contextLength (stats r) = 0
    /\ generationMethod (metadata r) = js "local".
Proof.
  intros Hkey Htexts Htarget Hfetch Hok Hdata Hcontent Htext Hreply Hblank.
  unfold generateTranslationContext, typed_context_request.
  cbn [sampleTexts GenerateContext.userContext GenerateContext.targetLang
       GenerateContext.contentType default_to truthy Array_isArray negb orb].
  destruct texts as [|text texts']; [congruence|].
  cbn [List.map length Nat.eqb].
  change (VStr text :: List.map VStr texts')
    with (List.map VStr (text :: texts')).
  assert (Hprints : printable (default_to (VStr (js "es")) targetLang) = true)
    by (apply printable_default; [reflexivity|exact Htarget]).
  assert (Hcall :
    generateContextWithClaude (Some key) fetch
      (List.map VStr (text :: texts'))
      (default_to (VStr []) (context_value user))
      (default_to (VStr (js "es")) targetLang)
    = Return []).
  { unfold generateContextWithClaude.
    destruct (printable_prints _ Hprints) as [shown ->]. cbn [bind].
    destruct key as [|k key]; [congruence|].
    rewrite List.firstn_map, Array_join_strings. cbn [bind].
    destruct (analysis_prompt_returns
                (join_strings (concat [LINE_FEED; js "---"; LINE_FEED])
                   (firstn 40 (text :: texts')))
                user _ Hprints) as [prompt ->].
    cbn [bind].
    rewrite Hfetch. cbn [bind]. rewrite Hok. cbn [negb].
    rewrite Hdata. cbn [bind]. rewrite Hcontent. cbn [bind].
    rewrite Htext. destruct reply as [|c reply]; [congruence|].
    cbn [truthy negb length_of ToString string_receiver bind].
    apply trim_blank in Hblank. rewrite Hblank. reflexivity. }
  destruct (printable_prints _ Hprints) as [shown ->]. cbn [bind].
  rewrite Hcall. cbn [try_catch bind].
  eexists. repeat split; reflexivity.
Qed.

(** ** The routes of server.js *)

Lemma validation_failure_thrown
  (translateWithClaude :
     list jstring -> value -> value -> value -> completion value)
  (requestData : TranslationRequest) (message : jstring) :
  validation_message requestData = Some message ->
  processTranslation translateWithClaude requestData = Throw (Error message).
Proof.
  unfold validation_message, processTranslation. intros Hcheck.
  destruct (chunkTexts requestData) as [| | | | |texts|];
    cbn [truthy Array_isArray negb orb]; rewrite ?orb_true_r;
    try (injection Hcheck as <-; reflexivity).
  destruct (negb (truthy (ProcessXlf.targetLang requestData)));
    [injection Hcheck as <-; reflexivity|].
  destruct texts; [injection Hcheck as <-; reflexivity|discriminate].
Qed.

Lemma validation_passed_valid (requestData : TranslationRequest) :
  validation_message requestData = None -> valid_request requestData.
Proof.
  unfold validation_message. intros Hcheck.
  destruct (chunkTexts requestData) as [| | | | |texts|] eqn:Hchunks;
    try discriminate.
  destruct (truthy (ProcessXlf.targetLang requestData)) eqn:Htarget;
    [|discriminate].
  destruct texts as [|t texts']; [discriminate|].
  exists (t :: texts'). auto.
Qed.

Lemma context_failure_thrown
  (generateContextWithClaude :
     list value -> value -> value -> completion jstring)
  (requestData : ContextRequest) (message : jstring) :
  context_validation_message requestData = Some message ->
  generateTranslationContext generateContextWithClaude requestData
  = Throw (Error message).
Proof.
  unfold context_validation_message, generateTranslationContext.
  destruct (sampleTexts requestData) as [| | | | |samples|];
    cbn [default_to truthy Array_isArray negb orb length Nat.eqb];
    rewrite ?orb_true_r; try (intros [= <-]; reflexivity).
  destruct samples as [|sample samples']; [intros [= <-]; reflexivity|].
  discriminate.
Qed.

Lemma context_passed_outcome
  (generateContextWithClaude :
     list value -> value -> value -> completion jstring)
  (requestData : ContextRequest) :
  context_validation_message requestData = None ->
  (exists r,
     generateTranslationContext generateContextWithClaude requestData
     = Return r /\ GenerateContext.success r = true)
  \/ generateTranslationContext generateContextWithClaude requestData
     = Throw TypeError.
Proof.
  unfold context_validation_message, generateTranslationContext.
  destruct (sampleTexts requestData) as [| | | | |samples|];
    try discriminate.
  destruct samples as [|sample samples']; [discriminate|]. intros _.
  cbn [default_to truthy Array_isArray negb orb length Nat.eqb].
  destruct (ToString (default_to (VStr (js "es"))
                        (GenerateContext.targetLang requestData)))
    as [shown|e0] eqn:Hshown; cbn [bind];
    [|apply ToString_throws in Hshown as ->; right; reflexivity].
  destruct (generateContextWithClaude _ _ _) as [c|e]; cbn [try_catch bind];
    [left; eexists; split; reflexivity|].
  destruct (generateEnhancedLocalContext _ _ _) as [c|e'] eqn:Hlocal;
    cbn [bind]; [left; eexists; split; reflexivity|].
  apply local_context_throws in Hlocal as ->. right. reflexivity.
Qed.

(** X30. What the two POST routes answer: a request the validation rejects
    gets the status 500, never a 4xx, with [success] false, the message of
    the validation as [error] and the name of the service; any other
    request gets either the status 200 with a result whose [success] is
    true, or the status 500 with the message of a TypeError. *)
Theorem routes_answer
  (translateWithClaude :
     list jstring -> value -> value -> value -> completion value)
  (generateContextWithClaude :
     list value -> value -> value -> completion jstring)
  (TypeError_message : jstring)
  (translation : TranslationRequest) (context : ContextRequest) :
  match validation_message translation with
  | Some message =>
      Server.post_process_xlf translateWithClaude TypeError_message
        translation
      = {| Server.statusCode := 500;
           Server.payload :=
             Server.Failure false message (js "process-xlf") |}
  | None =>
      (exists r,
         Server.post_process_xlf translateWithClaude TypeError_message
           translation
         = {| Server.statusCode := 200; Server.payload := Server.Result r |}
         /\ ProcessXlf.success r = true)
      \/ Server.post_process_xlf translateWithClaude TypeError_message
           translation
         = {| Server.statusCode := 500;
              Server.payload :=
                Server.Failure false TypeError_message (js "process-xlf") |}
  end
  /\ match context_validation_message context with
     | Some message =>
         Server.post_generate_context generateContextWithClaude
           TypeError_message context
         = {| Server.statusCode := 500;
              Server.payload :=
                Server.Failure false message (js "generate-context") |}
     | None =>
         (exists r,
            Server.post_generate_context generateContextWithClaude
              TypeError_message context
            = {| Server.statusCode := 200;
                 Server.payload := Server.Result r |}
            /\ GenerateContext.success r = true)
         \/ Server.post_generate_context generateContextWithClaude
              TypeError_message context
            = {| Server.statusCode := 500;
                 Server.payload :=
                   Server.Failure false TypeError_message
                     (js "generate-context") |}
     end.
Proof.
  split.
  - unfold Server.post_process_xlf.
    destruct (validation_message translation) as [message|] eqn:Hcheck.
    + rewrite (validation_failure_thrown _ _ _ Hcheck). reflexivity.
    + apply validation_passed_valid in Hcheck.
      destruct (processTranslation translateWithClaude translation)
        as [r|e] eqn:Hrun.
      * left. exists r. split; [reflexivity|].
        exact (returned_response_succeeds _ _ _ Hrun).
      * right. apply (valid_request_throws _ _ _ Hcheck) in Hrun as ->.
        reflexivity.
  - unfold Server.post_generate_context.
    destruct (context_validation_message context) as [message|] eqn:Hcheck.
    + rewrite (context_failure_thrown _ _ _ Hcheck). reflexivity.
    + destruct (context_passed_outcome generateContextWithClaude _ Hcheck)
        as [(r & -> & Hr)| ->].
      * left. exists r. split; [reflexivity|exact Hr].
      * right. reflexivity.
Qed.

End Properties.

(** ** The properties at concrete requests

    The strings of the requests below hold no code unit above U+00FF, so
    the conversion of the class is never consulted on them. *)
#[local] Existing Instance unconverted.

Import ProcessXlf.

Lemma fallback_translations_shape_witness :
  exists r m,
    processTranslation unreachable_model
      (typed_request [js "Hello world"; js "  "] (js "fr") None
         VUndefined VUndefined VUndefined VUndefined) = Return r
    /\ translations r = Fallbacks m
    /\ size m = 2
    /\ dom m = list_to_set (index_toString <$> seq 0 2)
    /\ (forall i text, [js "Hello world"; js "  "] !! i = Some text ->
          exists v, m !! index_toString i = Some v
            /\ (cleaned_of text = [] /\ v = []
                \/ cleaned_of text <> [] /\ matches_fallback_pattern v i)).
Proof.
  apply (fallback_translations_shape unreachable_model
           [js "Hello world"; js "  "] (js "fr") None
           VUndefined VUndefined VUndefined VUndefined
           (Error (js "Claude API key not configured")));
    [discriminate|discriminate|reflexivity|reflexivity|reflexivity].
Defined.

(** C1, as stated, fails: the request
    [{chunkTexts: ['Hello world', ''], targetLang: 'fr'}] passes validation,
    the model is unreachable, and the value at key ['1'] is the empty
    string, which is no placeholder [[TOKEN_1]]. *)
Lemma fallback_value_not_placeholder :
  let requestData :=
    plain_request (VArr [VStr (js "Hello world"); VStr []])
      (VStr (js "fr")) in
  valid_request requestData
  /\ exists r m,
       processTranslation unreachable_model requestData = Return r
       /\ translations r = Fallbacks m
       /\ m !! js "1" = Some []
       /\ ~ matches_fallback_pattern [] 1.
Proof.
  split.
  - eexists. split; [reflexivity|]. split; [discriminate|reflexivity].
  - eexists _, _. split; [vm_compute; reflexivity|].
    split; [reflexivity|]. split; [vm_compute; reflexivity|].
    intros [token H]. symmetry in H. exact (placeholder_not_empty _ _ H).
Qed.

Lemma typed_request_succeeds_witness :
  valid_request
    (typed_request [js "Hello world"] (js "fr") (Some (js "Technical"))
       VUndefined VUndefined VUndefined VUndefined)
  /\ exists r,
       processTranslation (fun _ _ _ _ => Return VNull)
         (typed_request [js "Hello world"] (js "fr") (Some (js "Technical"))
            VUndefined VUndefined VUndefined VUndefined) = Return r
       /\ success r = true.
Proof.
  apply (typed_request_succeeds (fun _ _ _ _ => Return VNull)
           [js "Hello world"] (js "fr") (Some (js "Technical"))
           VUndefined VUndefined VUndefined VUndefined);
    [discriminate|discriminate|reflexivity|reflexivity].
Defined.

(** C2, as stated, fails: the request
    [{chunkTexts: ["Hello"], targetLang: true}] passes validation, the model
    is unreachable, and the fallback throws a TypeError at
    [targetLang.toUpperCase()]: no response is returned. *)
Lemma untyped_target_language_escapes :
  let requestData :=
    plain_request (VArr [VStr (js "Hello")]) (VBool true) in
  valid_request requestData
  /\ processTranslation unreachable_model requestData = Throw TypeError.
Proof.
  split.
  - eexists. split; [reflexivity|]. split; [discriminate|reflexivity].
  - vm_compute. reflexivity.
Qed.

Lemma non_string_chunk_escapes_witness :
  let requestData :=
    plain_request (VArr [VStr (js "Hello world"); VNull; VNum 7])
      (VStr (js "fr")) in
  valid_request requestData
  /\ map_from preprocessTextForTranslation 0
       [VStr (js "Hello world"); VNull; VNum 7] = Throw TypeError
  /\ forall translateWithClaude,
       processTranslation translateWithClaude requestData = Throw TypeError.
Proof.
  apply (non_string_chunk_escapes
           (plain_request (VArr [VStr (js "Hello world"); VNull; VNum 7])
              (VStr (js "fr")))
           [VStr (js "Hello world"); VNull; VNum 7]);
    reflexivity.
Defined.

Lemma fallbacks_by_guidance_witness :
  Forall preprocessed [js "Hello world"; []]
  /\ exists m,
       generateContextualFallbacks
         (List.map VStr [js "Hello world"; []]) (VStr (js "fr"))
         (context_value (Some (js "PRL technical manual"))) = Return m
       /\ m !! js "0" = Some (js "[WORKPLACE_SAFETY_FR_0]")
       /\ m !! js "1" = Some [].
Proof.
  assert (Htexts : Forall preprocessed [js "Hello world"; []]).
  { repeat constructor.
    - exists (js " Hello   world "), 0. vm_compute. reflexivity.
    - exists (js "  "), 1. vm_compute. reflexivity. }
  split; [exact Htexts|].
  destruct (fallbacks_by_guidance [js "Hello world"; []] (js "fr")
              (Some (js "PRL technical manual")) Htexts)
    as [(m & Hm & _ & Hin) _].
  exists m. split; [exact Hm|].
  split; [exact (Hin 0 _ eq_refl)|exact (Hin 1 _ eq_refl)].
Defined.

Import GenerateContext.



Lemma local_context_tagged_claude_witness :
  exists r,
    generateTranslationContext unreachable_context_model click_request
    = Return r
    /\ generationMethod (metadata r) = js "claude".
Proof.
  destruct (generateTranslationContext unreachable_context_model
              click_request) as [r|e] eqn:Hrun.
  - exists r. split; [reflexivity|].
    apply (local_context_tagged_claude unreachable_context_model
             click_request r
             (fun _ _ _ => ex_intro _ _ eq_refl) Hrun).
  - vm_compute in Hrun. discriminate.
Defined.

(** C6, as stated, fails: the returned block does not contain
    [**SPECIAL CONSIDERATIONS**: UI elements, interaction clarity] with a
    space after the comma. *)
Lemma click_context_has_no_comma_space :
  exists r,
    generateTranslationContext unreachable_context_model click_request
    = Return r
    /\ includes (translationContext r)
         (js "**SPECIAL CONSIDERATIONS**: UI elements, interaction clarity")
       = false.
Proof.
  eexists. split; [vm_compute; reflexivity|]. vm_compute. reflexivity.
Qed.

Import ProcessXlf.

Lemma reply_passed_through_witness :
  exists r,
    processTranslation (fun _ _ _ _ => Return (VObj []))
      (typed_request [js "Hello"; js "world"] (js "fr") None
         VUndefined VUndefined VUndefined VUndefined) = Return r
    /\ translations r = Parsed (VObj [])
    /\ realTranslations (ProcessXlf.stats r) = 0
    /\ textsProcessed (ProcessXlf.stats r) = 2.
Proof.
  apply (reply_passed_through (fun _ _ _ _ => Return (VObj []))
           [js "Hello"; js "world"] (js "fr") None
           VUndefined VUndefined VUndefined VUndefined (VObj []) 0);
    [discriminate|discriminate|reflexivity|reflexivity|reflexivity
    |reflexivity].
Defined.

Lemma null_reply_falls_back_witness :
  processTranslation (fun _ _ _ _ => Return VNull)
    (plain_request (VArr [VStr (js "Hello world")]) (VStr (js "fr")))
  = processTranslation unreachable_model
      (plain_request (VArr [VStr (js "Hello world")]) (VStr (js "fr"))).
Proof.
  apply (null_reply_falls_back (fun _ _ _ _ => Return VNull)).
  intros. exists VNull. split; reflexivity.
Defined.

Import GenerateContext.

Lemma typed_context_request_succeeds_witness :
  exists r,
    generateTranslationContext unreachable_context_model
      (typed_context_request [VStr (js "Start the quiz"); VNum 7; VNull]
         (Some (js " formal tone ")) (VStr (js "de")) VUndefined)
    = Return r
    /\ success r = true
    /\ sampleTextsAnalyzed (stats r) = 3
    /\ contextLength (stats r) = length (translationContext r).
Proof.
  apply (typed_context_request_succeeds unreachable_context_model
           [VStr (js "Start the quiz"); VNum 7; VNull]
           (js "Start the quiz 7 ")
           (Some (js " formal tone ")) (VStr (js "de")) VUndefined);
    [discriminate|reflexivity|reflexivity].
Defined.

Lemma untyped_user_context_escapes_witness :
  generateTranslationContext unreachable_context_model {|
    sampleTexts := VArr [VStr (js "Hello")];
    userContext := VNum 5;
    GenerateContext.targetLang := VUndefined;
    contentType := VUndefined
  |} = Throw TypeError.
Proof.
  apply (untyped_user_context_escapes unreachable_context_model
           [VStr (js "Hello")] (VNum 5) VUndefined VUndefined);
    [discriminate|reflexivity|reflexivity|].
  intros. eexists. reflexivity.
Defined.

Lemma remote_context_tag_witness :
  exists r,
    generateTranslationContext
      (fun _ _ _ => Return (js "Use a formal register.")) {|
        sampleTexts := VArr [VStr (js "Hello")];
        userContext := VUndefined;
        GenerateContext.targetLang := VUndefined;
        contentType := VUndefined
      |} = Return r
    /\ translationContext r = js "Use a formal register."
    /\ generationMethod (metadata r)
       = (if includes (js "Use a formal register.") MARKER
          then js "claude" else js "local").
Proof.
  apply (remote_context_tag
           (fun _ _ _ => Return (js "Use a formal register."))
           [VStr (js "Hello")] VUndefined VUndefined VUndefined
           (js "Use a formal register."));
    [discriminate|reflexivity|reflexivity].
Defined.

Import ProcessXlf.

Lemma significant_text_stays_witness :
  exists r,
    preprocessTextForTranslation
      (VStr (js "  a" ++ [10%N; 9%N] ++ js " b ")) 0 = Return r
    /\ 3 <= length r.
Proof.
  apply (significant_text_stays (js "  a" ++ [10%N; 9%N] ++ js " b ") 0).
  reflexivity.
Defined.

Lemma refused_call_falls_back_witness :
  processTranslation
    (translateWithClaude (Some (js "key"))
       (fun _ _ =>
          Return {| ok := false; status := 529;
                    text := Return (js "overloaded");
                    json := Throw TypeError |})
       (fun _ => Return (VObj [])) (js "not a function"))
    (plain_request (VArr [VStr (js "Hello world")]) (VStr (js "fr")))
  = processTranslation unreachable_model
      (plain_request (VArr [VStr (js "Hello world")]) (VStr (js "fr"))).
Proof.
  apply (refused_call_falls_back (Some (js "key"))
           (fun _ _ =>
              Return {| ok := false; status := 529;
                        text := Return (js "overloaded");
                        json := Throw TypeError |})).
  intros address init response Hresponse.
  injection Hresponse as <-. reflexivity.
Defined.

Lemma parsed_reply_returned_witness :
  nullish (VObj [(js "0", VStr (js "Bonjour"))]) = false
  /\ exists key address init response data content reply,
       Some (js "key") = Some key /\ key <> []
       /\ (fun (_ : jstring) (_ : FetchInit) =>
             Return {| ok := true; status := 200;
                       text := Return [];
                       json := Return (VObj [
                         (js "content",
                          VArr [VObj [(js "text", VStr (js "{}"))]]) ]) |})
            address init = Return response
       /\ ok response = true
       /\ json response = Return data
       /\ get_named data (js "content") = Return content
       /\ optional_named (optional_first content) (js "text") = VStr reply
       /\ reply <> []
       /\ (fun _ : jstring => Return (VObj [(js "0", VStr (js "Bonjour"))]))
            (trim (remove_code_fences reply))
          = Return (VObj [(js "0", VStr (js "Bonjour"))]).
Proof.
  apply (parsed_reply_returned (Some (js "key"))
           (fun _ _ =>
              Return {| ok := true; status := 200;
                        text := Return [];
                        json := Return (VObj [
                          (js "content",
                           VArr [VObj [(js "text", VStr (js "{}"))]]) ]) |})
           (fun _ => Return (VObj [(js "0", VStr (js "Bonjour"))]))
           (js "not a function")
           [js "Hello"] (VStr (js "en")) (VStr (js "fr")) VUndefined).
  vm_compute. reflexivity.
Defined.

Lemma fenced_reply_unwrapped_witness :
  remove_code_fences (js "{}") = js "{}"
  /\ trim (remove_code_fences
             (js "```json" ++ [10%N] ++ js "{}" ++ [10%N] ++ js "```"))
     = trim (remove_code_fences (js "{}")).
Proof.
  apply (fenced_reply_unwrapped (js "{}") [10%N] [10%N]); reflexivity.
Defined.

Lemma attributes_read_back_witness :
  parseAttributes
    (VStr (attributes_source
             [(js "id", js "a1"); (js "xml:space", js "preserve");
              (js "__proto__", js "x"); (js "id", js "a2")]))
  = Return
      (foldl (fun m a => <[fst a := snd a]> m) ∅
         (List.filter (fun a => negb (bool_decide (fst a = js "__proto__")))
            [(js "id", js "a1"); (js "xml:space", js "preserve");
             (js "__proto__", js "x"); (js "id", js "a2")])).
Proof.
  apply (attributes_read_back
           [(js "id", js "a1"); (js "xml:space", js "preserve");
            (js "__proto__", js "x"); (js "id", js "a2")]).
  repeat constructor.
Defined.

Import GenerateContext.

Lemma context_reply_returned_witness :
  no_leading_whitespace (js "Formal.")
  /\ no_trailing_whitespace (js "Formal.")
  /\ exists key address init response data content reply,
       Some (js "key") = Some key /\ key <> []
       /\ (fun (_ : jstring) (_ : FetchInit) =>
             Return {| ok := true; status := 200;
                       text := Return [];
                       json := Return (VObj [
                         (js "content",
                          VArr [VObj [(js "text",
                                       VStr (js " Formal. "))]]) ]) |})
            address init = Return response
       /\ ok response = true
       /\ json response = Return data
       /\ get_named data (js "content") = Return content
       /\ optional_named (optional_first content) (js "text") = VStr reply
       /\ reply <> []
       /\ js "Formal." = trim reply.
Proof.
  apply (context_reply_returned (Some (js "key"))
           (fun _ _ =>
              Return {| ok := true; status := 200;
                        text := Return [];
                        json := Return (VObj [
                          (js "content",
                           VArr [VObj [(js "text",
                                        VStr (js " Formal. "))]]) ]) |})
           [VStr (js "Hello")] VUndefined (VStr (js "de"))).
  vm_compute. reflexivity.
Defined.

Lemma blank_reply_accepted_witness :
  exists r,
    generateTranslationContext
      (generateContextWithClaude (Some (js "key"))
         (fun _ _ =>
            Return {| ok := true; status := 200;
                      text := Return [];
                      json := Return (VObj [
                        (js "content",
                         VArr [VObj [(js "text", VStr [10%N; 32%N])]]) ])
                   |})) {|
      sampleTexts := VArr [VStr (js "Hello")];
      userContext := VUndefined;
      GenerateContext.targetLang := VUndefined;
      contentType := VUndefined
    |} = Return r
    /\ translationContext r = []
    /\ contextLength (stats r) = 0
    /\ generationMethod (metadata r) = js "local".
Proof.
  apply (blank_reply_accepted (js "key")
           (fun _ _ =>
              Return {| ok := true; status := 200;
                        text := Return [];
                        json := Return (VObj [
                          (js "content",
                           VArr [VObj [(js "text", VStr [10%N; 32%N])]]) ])
                     |})
           {| ok := true; status := 200;
              text := Return [];
              json := Return (VObj [
                (js "content",
                 VArr [VObj [(js "text", VStr [10%N; 32%N])]]) ]) |}
           (VObj [(js "content",
                   VArr [VObj [(js "text", VStr [10%N; 32%N])]])])
           (VArr [VObj [(js "text", VStr [10%N; 32%N])]])
           [10%N; 32%N]
           [js "Hello"] None VUndefined VUndefined);
    try discriminate; reflexivity.
Defined.


Lemma confidence_capped_witness :
  exists r,
    detectContentDomain [VStr (js "api api api server code")] = Return r
    /\ SFltb (Number_of_Z 95) (confidence r) = false.
Proof.
  apply (confidence_capped [VStr (js "api api api server code")]
           (js "api api api server code")).
  reflexivity.
Defined.

Lemma weights_are_match_totals_witness :
  exists r,
    detectContentDomain [VStr (js "The Quiz"); VNull; VNum 3] = Return r
    /\ weights r
       = List.map
           (fun entry =>
              (fst entry,
               keyword_matches (toLowerCase (js "The Quiz  3")) (snd entry)))
           domains.
Proof.
  apply (weights_are_match_totals [VStr (js "The Quiz"); VNull; VNum 3]
           (js "The Quiz  3")).
  reflexivity.
Defined.

Lemma selected_domain_is_known_witness :
  exists r key domain approach,
    detectContentDomain [VStr (js "Install the server")] = Return r
    /\ (key, domain) ∈ domains
    /\ primary r = key
    /\ description r = name domain
    /\ getTerminologyApproach (primary r) (VStr (js "de")) = Return approach
    /\ property (approaches (js "de")) key = Some approach.
Proof.
  apply (selected_domain_is_known [VStr (js "Install the server")]
           (js "Install the server") (VStr (js "de")) (js "de"));
    reflexivity.
Defined.

Lemma local_context_block_witness :
  exists analysis d approach block,
    analyzeContentPatterns [VStr (js "Click the button")] = Return analysis
    /\ detectContentDomain [VStr (js "Click the button")] = Return d
    /\ getTerminologyApproach (primary d) (VNum 1000000000000000000000)
       = Return approach
    /\ generateEnhancedLocalContext [VStr (js "Click the button")]
         (context_value (Some (js " formal tone ")))
         (VNum 1000000000000000000000) = Return block
    /\ block
       = join_strings LF
           (local_context_lines analysis d (Some (js " formal tone "))
              approach (js "1e+21"))
    /\ includes block (js "**DOMAIN**: ") = true.
Proof.
  apply (local_context_block [VStr (js "Click the button")]
           (js "Click the button") (Some (js " formal tone "))
           (VNum 1000000000000000000000) (js "1e+21"));
    vm_compute; reflexivity.
Defined.
